(** * profillic-hmmer: the model builder and the ordered work distributor

    A shallow embedding of [profillic-alignment-p7_builder.hpp] (the
    converter from an alignment profile to a count model, the steps of the
    build pipeline and the maximum-length estimator) and of the reader loop
    of [profillic-alignment-hmmbuild.cpp].

    C [float] and [double] values are IEEE 754 binary32 and binary64
    numbers, written with the Standard Library's executable specification
    of IEEE arithmetic ([SpecFloat], parameterised by precision and maximal
    exponent, rounding to nearest even); every operation is rounded to the
    type the C expression has.  C [int] values are [Z]; indices into arrays
    are [nat]. *)

From Stdlib Require Import ZArith Lia Bool String Ascii.
From Stdlib Require Import QArith Qabs Lqa Qpower.
From Stdlib Require Import Floats.SpecFloat.
From stdpp Require Import base tactics option list sorting.

Local Open Scope Z_scope.

(** ** IEEE arithmetic *)

Module IEEE.

(** A [float] (binary32) and a [double] (binary64) share the carrier
    [spec_float]; the operations differ in precision and exponent range. *)
Definition float32 := spec_float.
Definition float64 := spec_float.

Definition prec32 : Z := 24.
Definition emax32 : Z := 128.
Definition prec64 : Z := 53.
Definition emax64 : Z := 1024.

Definition valid32 (x : float32) : bool := valid_binary prec32 emax32 x.
Definition valid64 (x : float64) : bool := valid_binary prec64 emax64 x.

(** binary32 operations *)
Definition fadd (x y : float32) : float32 := SFadd prec32 emax32 x y.
Definition fsub (x y : float32) : float32 := SFsub prec32 emax32 x y.
Definition fmul (x y : float32) : float32 := SFmul prec32 emax32 x y.
Definition fdiv (x y : float32) : float32 := SFdiv prec32 emax32 x y.

(** binary64 operations *)
Definition dadd (x y : float64) : float64 := SFadd prec64 emax64 x y.
Definition dsub (x y : float64) : float64 := SFsub prec64 emax64 x y.
Definition dmul (x y : float64) : float64 := SFmul prec64 emax64 x y.
Definition ddiv (x y : float64) : float64 := SFdiv prec64 emax64 x y.
Definition dltb (x y : float64) : bool := SFltb x y.
Definition dleb (x y : float64) : bool := SFleb x y.
Definition deqb (x y : float64) : bool := SFeqb x y.

(** Conversions: [(float) n] and [(double) n] of an [int], the promotion
    of a [float] to [double] (exact) and the rounding of a [double] to
    [float]. *)
Definition f_of_Z (n : Z) : float32 := binary_normalize prec32 emax32 n 0 false.
Definition d_of_Z (n : Z) : float64 := binary_normalize prec64 emax64 n 0 false.

Definition d_of_f (x : float32) : float64 :=
  match x with
  | S754_finite s m e => binary_round prec64 emax64 s m e
  | _ => x
  end.

Definition f_of_d (x : float64) : float32 :=
  match x with
  | S754_finite s m e => binary_round prec32 emax32 s m e
  | _ => x
  end.

Definition f0 : float32 := S754_zero false.
Definition f1 : float32 := f_of_Z 1.
Definition d0 : float64 := S754_zero false.
Definition d1 : float64 := d_of_Z 1.

End IEEE.

Export IEEE.

(** ** Status codes (Easel) *)

Inductive status : Type :=
| eslOK
| eslEMEM
| eslENORESULT
| eslERANGE
| eslEINVAL
| eslFAIL.

#[global] Instance status_eq_dec : EqDecision status.
Proof. solve_decision. Defined.

(** ** The model [P7_HMM]

    The fields the builder reads or writes ([hmmer.h] is not part of the
    sources; the field types are those of the HMMER library: [float]
    arrays, [int nseq], [float eff_nseq], [int max_length]).  [t], [mat]
    and [ins] have rows [0..M]; a transition row has the seven entries
    [p7H_MM .. p7H_DD], an emission row has [abc->K] entries. *)

Definition p7H_MM : nat := 0.
Definition p7H_MI : nat := 1.
Definition p7H_MD : nat := 2.
Definition p7H_IM : nat := 3.
Definition p7H_II : nat := 4.
Definition p7H_DM : nat := 5.
Definition p7H_DD : nat := 6.
Definition p7H_NTRANSITIONS : nat := 7.

(** Flag bits of [hmm->flags]. *)
Definition p7H_RF : Z := Z.shiftl 1 2.
Definition p7H_CS : Z := Z.shiftl 1 3.
Definition p7H_MAP : Z := Z.shiftl 1 8.
Definition p7H_GA : Z := Z.shiftl 1 10.
Definition p7H_TC : Z := Z.shiftl 1 11.
Definition p7H_NC : Z := Z.shiftl 1 12.
Definition p7H_CA : Z := Z.shiftl 1 13.
Definition p7H_CHKSUM : Z := Z.shiftl 1 15.

Record P7_HMM : Type := mkHMM {
  hmm_M : Z;
  hmm_K : nat;                      (* abc->K, the alphabet size *)
  hmm_t : list (list float32);
  hmm_mat : list (list float32);
  hmm_ins : list (list float32);
  hmm_nseq : Z;
  hmm_eff_nseq : float32;
  hmm_max_length : Z;
  hmm_checksum : Z;
  hmm_flags : Z;
  hmm_mm : option (list bool);      (* the mask line; [true] is 'm' *)
  hmm_rf : option string;
  hmm_cs : option string;
  hmm_ca : option string;
  hmm_map : option (list Z);
  hmm_cutoff : list float32         (* GA1 GA2 TC1 TC2 NC1 NC2 *)
}.

Definition set_t (h : P7_HMM) (v : list (list float32)) : P7_HMM :=
  mkHMM (hmm_M h) (hmm_K h) v (hmm_mat h) (hmm_ins h) (hmm_nseq h)
        (hmm_eff_nseq h) (hmm_max_length h) (hmm_checksum h) (hmm_flags h)
        (hmm_mm h) (hmm_rf h) (hmm_cs h) (hmm_ca h) (hmm_map h) (hmm_cutoff h).
Definition set_mat (h : P7_HMM) (v : list (list float32)) : P7_HMM :=
  mkHMM (hmm_M h) (hmm_K h) (hmm_t h) v (hmm_ins h) (hmm_nseq h)
        (hmm_eff_nseq h) (hmm_max_length h) (hmm_checksum h) (hmm_flags h)
        (hmm_mm h) (hmm_rf h) (hmm_cs h) (hmm_ca h) (hmm_map h) (hmm_cutoff h).
Definition set_ins (h : P7_HMM) (v : list (list float32)) : P7_HMM :=
  mkHMM (hmm_M h) (hmm_K h) (hmm_t h) (hmm_mat h) v (hmm_nseq h)
        (hmm_eff_nseq h) (hmm_max_length h) (hmm_checksum h) (hmm_flags h)
        (hmm_mm h) (hmm_rf h) (hmm_cs h) (hmm_ca h) (hmm_map h) (hmm_cutoff h).
Definition set_nseq (h : P7_HMM) (v : Z) : P7_HMM :=
  mkHMM (hmm_M h) (hmm_K h) (hmm_t h) (hmm_mat h) (hmm_ins h) v
        (hmm_eff_nseq h) (hmm_max_length h) (hmm_checksum h) (hmm_flags h)
        (hmm_mm h) (hmm_rf h) (hmm_cs h) (hmm_ca h) (hmm_map h) (hmm_cutoff h).
Definition set_eff_nseq (h : P7_HMM) (v : float32) : P7_HMM :=
  mkHMM (hmm_M h) (hmm_K h) (hmm_t h) (hmm_mat h) (hmm_ins h) (hmm_nseq h)
        v (hmm_max_length h) (hmm_checksum h) (hmm_flags h)
        (hmm_mm h) (hmm_rf h) (hmm_cs h) (hmm_ca h) (hmm_map h) (hmm_cutoff h).
Definition set_max_length (h : P7_HMM) (w : Z) : P7_HMM :=
  mkHMM (hmm_M h) (hmm_K h) (hmm_t h) (hmm_mat h) (hmm_ins h) (hmm_nseq h)
        (hmm_eff_nseq h) w (hmm_checksum h) (hmm_flags h)
        (hmm_mm h) (hmm_rf h) (hmm_cs h) (hmm_ca h) (hmm_map h) (hmm_cutoff h).
Definition set_checksum (h : P7_HMM) (v : Z) : P7_HMM :=
  mkHMM (hmm_M h) (hmm_K h) (hmm_t h) (hmm_mat h) (hmm_ins h) (hmm_nseq h)
        (hmm_eff_nseq h) (hmm_max_length h) v (hmm_flags h)
        (hmm_mm h) (hmm_rf h) (hmm_cs h) (hmm_ca h) (hmm_map h) (hmm_cutoff h).
Definition set_flags (h : P7_HMM) (v : Z) : P7_HMM :=
  mkHMM (hmm_M h) (hmm_K h) (hmm_t h) (hmm_mat h) (hmm_ins h) (hmm_nseq h)
        (hmm_eff_nseq h) (hmm_max_length h) (hmm_checksum h) v
        (hmm_mm h) (hmm_rf h) (hmm_cs h) (hmm_ca h) (hmm_map h) (hmm_cutoff h).
Definition set_rf (h : P7_HMM) (v : option string) : P7_HMM :=
  mkHMM (hmm_M h) (hmm_K h) (hmm_t h) (hmm_mat h) (hmm_ins h) (hmm_nseq h)
        (hmm_eff_nseq h) (hmm_max_length h) (hmm_checksum h) (hmm_flags h)
        (hmm_mm h) v (hmm_cs h) (hmm_ca h) (hmm_map h) (hmm_cutoff h).
Definition set_cs (h : P7_HMM) (v : option string) : P7_HMM :=
  mkHMM (hmm_M h) (hmm_K h) (hmm_t h) (hmm_mat h) (hmm_ins h) (hmm_nseq h)
        (hmm_eff_nseq h) (hmm_max_length h) (hmm_checksum h) (hmm_flags h)
        (hmm_mm h) (hmm_rf h) v (hmm_ca h) (hmm_map h) (hmm_cutoff h).
Definition set_ca (h : P7_HMM) (v : option string) : P7_HMM :=
  mkHMM (hmm_M h) (hmm_K h) (hmm_t h) (hmm_mat h) (hmm_ins h) (hmm_nseq h)
        (hmm_eff_nseq h) (hmm_max_length h) (hmm_checksum h) (hmm_flags h)
        (hmm_mm h) (hmm_rf h) (hmm_cs h) v (hmm_map h) (hmm_cutoff h).
Definition set_map (h : P7_HMM) (v : option (list Z)) : P7_HMM :=
  mkHMM (hmm_M h) (hmm_K h) (hmm_t h) (hmm_mat h) (hmm_ins h) (hmm_nseq h)
        (hmm_eff_nseq h) (hmm_max_length h) (hmm_checksum h) (hmm_flags h)
        (hmm_mm h) (hmm_rf h) (hmm_cs h) (hmm_ca h) v (hmm_cutoff h).
Definition set_cutoff (h : P7_HMM) (v : list float32) : P7_HMM :=
  mkHMM (hmm_M h) (hmm_K h) (hmm_t h) (hmm_mat h) (hmm_ins h) (hmm_nseq h)
        (hmm_eff_nseq h) (hmm_max_length h) (hmm_checksum h) (hmm_flags h)
        (hmm_mm h) (hmm_rf h) (hmm_cs h) (hmm_ca h) (hmm_map h) v.

(** [a[k][j]] of a two-dimensional array; an index outside the rows that
    were allocated reads the default [d] (the C program has no defined value
    there, and never reads one on a model with [M >= 1]); a write outside
    them is dropped. *)
Definition rd2 {A : Type} (d : A) (a : list (list A)) (k j : nat) : A :=
  default d ((a !! k) ≫= (λ r, r !! j)).

Definition wr2 {A : Type} (a : list (list A)) (k j : nat) (v : A) : list (list A) :=
  match a !! k with
  | Some r => <[k := <[j := v]> r]> a
  | None => a
  end.

Definition tr (h : P7_HMM) (k : nat) (j : nat) : float32 := rd2 f0 (hmm_t h) k j.
Definition set_tr (h : P7_HMM) (k j : nat) (v : float32) : P7_HMM :=
  set_t h (wr2 (hmm_t h) k j v).
Definition set_mat_at (h : P7_HMM) (k j : nat) (v : float32) : P7_HMM :=
  set_mat h (wr2 (hmm_mat h) k j v).
Definition set_ins_at (h : P7_HMM) (k j : nat) (v : float32) : P7_HMM :=
  set_ins h (wr2 (hmm_ins h) k j v).

(** [for (k = lo; k <= hi; k++) body] over a state. *)
Definition for_k {S : Type} (lo hi : nat) (body : nat -> S -> S) (s : S) : S :=
  fold_left (fun s k => body k s) (seq lo (Datatypes.S hi - lo)) s.

(** ** Library routines of HMMER and Easel

    The routines that decide a statement below are written out; the
    others are fields of [Library] further down.  Allocation is taken to
    succeed. *)

(** Modelled from the spec: [p7_hmm_Create] and [p7_hmm_Zero] are not in
    the sources.  The model is "allocated zero-initialized by the
    Converter", with rows [0..M]; a fresh model carries no sequence count
    and no maximum length yet (the library writes [-1]) and no flag. *)
Definition p7_hmm_Create (M : Z) (K : nat) : P7_HMM :=
  let rows := S (Z.to_nat M) in
  mkHMM M K (replicate rows (replicate p7H_NTRANSITIONS f0))
        (replicate rows (replicate K f0)) (replicate rows (replicate K f0))
        (-1) (f_of_Z (-1)) (-1) 0 0 None None None None None (replicate 6 f0).

(** Modelled from the spec: [esl_vec_FScale(vec, n, scale)] is not in the
    sources; it is [vec[x] *= scale] on floats. *)
Definition esl_vec_FScale (vec : list float32) (scale : float32) : list float32 :=
  map (fun x => fmul x scale) vec.

(** Modelled from the spec: [p7_hmm_Scale(hmm, scale)] is not in the
    sources.  It "multiplies every per-position distribution" by the
    factor: every transition and emission row [0..M]; the [double]
    argument becomes a [float] at the call of [esl_vec_FScale]. *)
Definition p7_hmm_Scale (h : P7_HMM) (scale : float64) : P7_HMM :=
  let sc := f_of_d scale in
  let h := set_t h (map (fun r => esl_vec_FScale r sc) (hmm_t h)) in
  let h := set_mat h (map (fun r => esl_vec_FScale r sc) (hmm_mat h)) in
  set_ins h (map (fun r => esl_vec_FScale r sc) (hmm_ins h)).

(** ** The maximum-length estimator: [profillic_p7_Builder_MaxLength] *)

(** The buffers [I], [M], [D]: rows [0..model_len] of two doubles each. *)
Record dp : Type := mkDP {
  dpI : list (list float64);
  dpM : list (list float64);
  dpD : list (list float64)
}.

Definition getI (s : dp) (k c : nat) : float64 := rd2 d0 (dpI s) k c.
Definition getM (s : dp) (k c : nat) : float64 := rd2 d0 (dpM s) k c.
Definition getD (s : dp) (k c : nat) : float64 := rd2 d0 (dpD s) k c.
Definition setI (s : dp) (k c : nat) (v : float64) : dp :=
  mkDP (wr2 (dpI s) k c v) (dpM s) (dpD s).
Definition setM (s : dp) (k c : nat) (v : float64) : dp :=
  mkDP (dpI s) (wr2 (dpM s) k c v) (dpD s).
Definition setD (s : dp) (k c : nat) (v : float64) : dp :=
  mkDP (dpI s) (dpM s) (wr2 (dpD s) k c v).

(** [ESL_ALLOC_CPP] of the three buffers (allocation is taken to succeed). *)
Definition dp_alloc (model_len : nat) : dp :=
  let a := replicate (S model_len) [d0; d0] in mkDP a a a.

(** [hmm->t[k][j] * x]: the float is promoted, the product is a double. *)
Definition tmul (h : P7_HMM) (k j : nat) (x : float64) : float64 :=
  dmul (d_of_f (tr h k j)) x.

(** [x * (1 - hmm->t[k][j])]: the difference is a float, promoted for
    the product. *)
Definition mul_1m (h : P7_HMM) (x : float64) (k j : nat) : float64 :=
  dmul x (d_of_f (fsub f1 (tr h k j))).

(** The first column of the table, [col = 1]: the body of its loop over
    [k = 3 .. model_len], then the column. *)
Definition first_column_row (h : P7_HMM) (k : nat) (s : dp) : dp :=
  let s := setI s k 0 d0 in
  let s := setM s k 0 d0 in
  setD s k 0 (tmul h (k - 1) p7H_DD (getD s (k - 1) 0)).

Definition first_column (h : P7_HMM) (model_len : nat) (s : dp) : dp :=
  let s := setM s 1 0 d1 in
  let s := setI s 2 0 d0 in
  let s := setM s 2 0 d0 in
  let s := setD s 1 0 d0 in
  let s := setI s 1 0 d0 in
  let s := setD s 2 0 (d_of_f (tr h 1 p7H_MD)) in
  for_k 3 model_len (first_column_row h) s.

(** The second column. *)
Definition second_column_row (h : P7_HMM) (k : nat) (s : dp) : dp :=
  let s := setM s k 1 (tmul h (k - 1) p7H_DM (getD s (k - 1) 0)) in
  let s := setI s k 1 d0 in
  setD s k 1 (dadd (tmul h (k - 1) p7H_MD (getM s (k - 1) 1))
                   (tmul h (k - 1) p7H_DD (getD s (k - 1) 1))).

Definition second_column (h : P7_HMM) (model_len : nat) (s : dp) : dp :=
  let s := setI s 2 1 d0 in
  let s := setD s 2 1 d0 in
  let s := setD s 1 1 d0 in
  let s := setM s 1 1 d0 in
  let s := setI s 1 1 (tmul h 1 p7H_MI (getM s 1 0)) in
  let s := setM s 2 1 (tmul h 1 p7H_MM (getM s 1 0)) in
  for_k 3 model_len (second_column_row h) s.

(** The body of [for (k=2; k<=model_len; k++)] in a general column; the
    state is the buffers and [surv]. *)
Definition column_row (h : P7_HMM) (model_len cp prev : nat) (k : nat)
    (st : dp * float64) : dp * float64 :=
  let '(s, surv) := st in
  let s := setM s k cp
    (dadd (dadd (tmul h (k - 1) p7H_MM (getM s (k - 1) prev))
                (tmul h (k - 1) p7H_DM (getD s (k - 1) prev)))
          (tmul h (k - 1) p7H_IM (getI s (k - 1) prev))) in
  let s := setI s k cp
    (dadd (tmul h k p7H_MI (getM s k prev))
          (tmul h k p7H_II (getI s k prev))) in
  let s := setD s k cp
    (dadd (tmul h (k - 1) p7H_MD (getM s (k - 1) cp))
          (tmul h (k - 1) p7H_DD (getD s (k - 1) cp))) in
  let surv :=
    if (k <=? model_len)%nat then
      dadd surv
        (dadd (dadd (getI s k cp) (mul_1m h (getM s k cp) k p7H_MD))
              (mul_1m h (getD s k cp) k p7H_DD))
    else surv in
  (s, surv).

(** One pass of [for (col=3; ...)] up to the test [surv < emit_thresh]:
    the new buffers, the new [p_sum] and the normalised [surv]. *)
Definition column (h : P7_HMM) (model_len cp : nat) (s : dp) (p_sum : float64)
    : dp * float64 * float64 :=
  let prev := (1 - cp)%nat in
  let surv := d0 in
  let s := setD s 1 cp d0 in
  let s := setM s 1 cp d0 in
  let s := setI s 1 cp (tmul h 1 p7H_II (getI s 1 prev)) in
  let surv := dadd surv (getI s 1 cp) in
  let '(s, surv) := for_k 2 model_len (column_row h model_len cp prev) (s, surv) in
  let surv :=
    dadd surv
      (dsub (dadd (dmul (getM s model_len cp) (d_of_f (tr h model_len p7H_MD)))
                  (dmul (getD s model_len cp) (d_of_f (tr h model_len p7H_DD))))
            (getI s model_len cp)) in
  let p_sum := dadd p_sum (dadd (getM s model_len cp) (getD s model_len cp)) in
  let surv := ddiv surv (dadd surv p_sum) in
  (s, p_sum, surv).

(** [for (col = 3; col <= length_bound; col++)] with its [break]: [Some col]
    is the column at which [surv < emit_thresh] held, [None] says that the
    loop ran to its bound.  [n] counts the columns left. *)
Fixpoint columns (h : P7_HMM) (model_len : nat) (emit_thresh : float64)
    (n : nat) (col : Z) (cp : nat) (s : dp) (p_sum : float64) : option Z :=
  match n with
  | O => None
  | S n' =>
      let '(s', p_sum', surv) := column h model_len cp s p_sum in
      if dltb surv emit_thresh then Some col
      else columns h model_len emit_thresh n' (col + 1) (1 - cp)%nat s' p_sum'
  end.

Definition length_bound : Z := 200000.

(** The table after the two special columns, and [p_sum] there. *)
Definition two_columns (h : P7_HMM) (model_len : nat) : dp :=
  second_column h model_len (first_column h model_len (dp_alloc model_len)).

Definition p_sum_init (model_len : nat) (s : dp) : float64 :=
  dadd (dadd (dadd (getM s model_len 0) (getM s model_len 1))
             (getD s model_len 0))
       (getD s model_len 1).

(** The column at which the search stops, if it does. *)
Definition stopping_column (h : P7_HMM) (emit_thresh : float64) : option Z :=
  let model_len := Z.to_nat (hmm_M h) in
  let s := two_columns h model_len in
  columns h model_len emit_thresh (Z.to_nat (length_bound - 2)) 3 0%nat s
          (p_sum_init model_len s).

(** The function: the status and the model it leaves. *)
Definition profillic_p7_Builder_MaxLength (h : P7_HMM) (emit_thresh : float64)
    : status * P7_HMM :=
  if hmm_M h =? 1 then (eslOK, set_max_length h 1)
  else
    let h' := match stopping_column h emit_thresh with
              | Some col => set_max_length h col
              | None => h
              end in
    if hmm_max_length h' >=? length_bound then (eslERANGE, h') else (eslOK, h').

(** *** Concrete models used below *)

Definition dbl (num den : Z) : float64 := ddiv (d_of_Z num) (d_of_Z den).
Definition flt (num den : Z) : float32 := f_of_d (dbl num den).

(** [p7_DEFAULT_WINDOW_BETA] *)
Definition window_beta : float64 := dbl 1 10000000.

Definition zero_row : list float32 := replicate 7 f0.

(** A two-state model whose first match state always enters its insert
    state, which always loops: [M->I = 1] and [I->I = 1] at node 1. *)
Definition stuck_hmm : P7_HMM :=
  mkHMM 2 4
    [ zero_row; [f0; f1; f0; f0; f1; f1; f0]; [f1; f0; f0; f1; f0; f1; f0] ]
    [] [] 1 f1 (-1) 0 0 None None None None None [].

(** A three-state model with dyadic probabilities. *)
Definition half : float32 := flt 1 2.

Definition dyadic_hmm : P7_HMM :=
  mkHMM 3 4
    [ zero_row;
      [half; f0; half; f1; f0; f1; f0];
      [f0; half; half; half; half; half; half];
      [f1; f0; f0; f1; f0; f1; f0] ]
    [] [] 1 f1 (-1) 0 0 None None None None None [].

(** ** Alignments, profiles and the build configuration *)

Inductive alphabet_type : Type := eslRNA | eslDNA | eslAMINO | eslUNKNOWN.

#[global] Instance alphabet_type_eq_dec : EqDecision alphabet_type.
Proof. solve_decision. Defined.

(** Indices of the cutoffs in an alignment and in a model. *)
Definition eslMSA_TC1 : nat := 0.
Definition eslMSA_TC2 : nat := 1.
Definition eslMSA_GA1 : nat := 2.
Definition eslMSA_GA2 : nat := 3.
Definition eslMSA_NC1 : nat := 4.
Definition eslMSA_NC2 : nat := 5.
Definition p7_GA1 : nat := 0.
Definition p7_GA2 : nat := 1.
Definition p7_TC1 : nat := 2.
Definition p7_TC2 : nat := 3.
Definition p7_NC1 : nat := 4.
Definition p7_NC2 : nat := 5.

Record ESL_MSA : Type := mkMSA {
  msa_nseq : Z;
  msa_alen : Z;
  msa_abc_K : nat;
  msa_name : option string;
  msa_rf : option string;
  msa_ss_cons : option string;
  msa_sa_cons : option string;
  msa_cutset : list bool;
  msa_cutoff : list float32
}.

Definition set_msa_rf (m : ESL_MSA) (v : option string) : ESL_MSA :=
  mkMSA (msa_nseq m) (msa_alen m) (msa_abc_K m) (msa_name m) v
        (msa_ss_cons m) (msa_sa_cons m) (msa_cutset m) (msa_cutoff m).

(** One position of an alignment profile: the values [toDouble] returns
    for its emission and transition distributions. *)
Record ProfilePosition : Type := mkPos {
  Match_emission : list float64;
  Insertion_emission : list float64;
  Match_toMatch : float64;
  Match_toInsertion : float64;
  Match_toDeletion : float64;
  Insertion_toMatch : float64;
  Insertion_toInsertion : float64;
  Deletion_toMatch : float64;
  Deletion_toDeletion : float64;
  PreAlign_toPreAlign : float64;
  PreAlign_toBegin : float64;
  PostAlign_toPostAlign : float64;
  PostAlign_toTerminal : float64
}.

Definition Profile := list ProfilePosition.

Definition no_position : ProfilePosition :=
  mkPos [] [] d0 d0 d0 d0 d0 d0 d0 d0 d0 d0 d0.

(** [profile[pos_i]] and [distribution[res_i]]. *)
Definition position (profile : Profile) (pos_i : nat) : ProfilePosition :=
  default no_position (profile !! pos_i).
Definition emission (e : list float64) (res_i : nat) : float64 :=
  default d0 (e !! res_i).

Inductive arch_strategy : Type := p7_ARCH_FAST | p7_ARCH_HAND.
Inductive effn_strategy : Type :=
  p7_EFFN_NONE | p7_EFFN_SET | p7_EFFN_CLUST | p7_EFFN_ENTROPY.

Record P7_BUILDER : Type := mkBuilder {
  bld_arch_strategy : arch_strategy;
  bld_effn_strategy : effn_strategy;
  bld_abc_type : alphabet_type;
  bld_prior : option nat;           (* which prior, if any *)
  bld_eset : float64;
  bld_eid : float64;
  bld_esigma : float64;
  bld_re_target : float64;
  bld_max_insert_len : Z;
  bld_w_len : Z;
  bld_w_beta : float64
}.

Record P7_BG : Type := mkBG { bg_f : list float32 }.

(** What the builder calls outside the sources: the routines of HMMER and
    Easel whose results it only passes on, the alphabet's digitisation of
    the profile's residues, the C library's [log] and the constant
    [eslCONST_LOG2R]. *)
Record Library : Type := mkLibrary {
  ValueSize : nat;
  esl_abc_DigitizeSymbol : nat -> nat;
  p7_Fastmodelmaker : ESL_MSA -> P7_BUILDER -> status * option P7_HMM;
  p7_Handmodelmaker : ESL_MSA -> P7_BUILDER -> status * option P7_HMM;
  esl_msacluster_SingleLinkage : ESL_MSA -> float64 -> status * Z;
  p7_EntropyWeight : P7_HMM -> P7_BG -> option nat -> float64 -> status * float64;
  c_log : float64 -> float64;
  eslCONST_LOG2R : float64;
  esl_vec_FNorm : list float32 -> list float32;
  p7_ParameterEstimation : P7_HMM -> option nat -> status * P7_HMM;
  p7_hmm_SetName : P7_HMM -> ESL_MSA -> P7_HMM;
  p7_hmm_SetAccession : P7_HMM -> ESL_MSA -> status * P7_HMM;
  p7_hmm_SetDescription : P7_HMM -> ESL_MSA -> status * P7_HMM;
  p7_hmm_SetCtime : P7_HMM -> status * P7_HMM;
  p7_hmm_SetComposition : P7_HMM -> status * P7_HMM;
  p7_hmm_SetConsensus : P7_HMM -> status * P7_HMM;
  p7_Calibrate : P7_HMM -> P7_BUILDER -> P7_BG -> status * P7_HMM;
  p7_tracealign_MSA : ESL_MSA -> Z -> status
}.

(** [for (i = lo; i < hi; i++) body] over a state. *)
Definition for_lt {S : Type} (lo hi : nat) (body : nat -> S -> S) (s : S) : S :=
  fold_left (fun s i => body i s) (seq lo (hi - lo)) s.

(** ** The converter: [profillic_p7_Profillicmodelmaker] *)

Definition INT_MAX : Z := 2147483647.

(** [static_cast<int>] of an unsigned length. *)
Definition static_cast_int (n : Z) : Z := (n + 2 ^ 31) mod 2 ^ 32 - 2 ^ 31.

(** The alignment's annotation copied onto the model. *)
Definition annotation_line (m : ESL_MSA) (line : string) : string :=
  String " "%char (substring 0 (Z.to_nat (msa_alen m)) line).

(** An annotation line of the alignment has one character per column. *)
Definition line_fits (m : ESL_MSA) (line : option string) : Prop :=
  match line with
  | Some s => String.length s = Z.to_nat (msa_alen m)
  | None => True
  end.

(** The alignment's annotation fits the buffers of the model: the lines
    are allocated with [M + 2] characters and the map with [M + 1]
    integers, and the loops write [alen + 2] and [alen + 1] cells, reading
    [alen] characters of each line. *)
Definition annotation_fits (h : P7_HMM) (m : ESL_MSA) : Prop :=
  0 <= msa_alen m <= hmm_M h /\
  line_fits m (msa_rf m) /\ line_fits m (msa_ss_cons m) /\ line_fits m (msa_sa_cons m).

(** [profillic_annotate_model]: the lines and the map as the loops write
    them.  The result is the function's when the annotation fits
    ([annotation_fits]); beyond that the C code writes past the buffers it
    has allocated, which the lists here do not show.  The converter calls
    it with the profile's own alignment, of [alen = M] columns. *)
Definition profillic_annotate_model (h : P7_HMM) (m : ESL_MSA) : status * P7_HMM :=
  let h := match msa_rf m with
           | Some rf => set_flags (set_rf h (Some (annotation_line m rf)))
                                  (Z.lor (hmm_flags h) p7H_RF)
           | None => h
           end in
  let h := match msa_ss_cons m with
           | Some ss => set_flags (set_cs h (Some (annotation_line m ss)))
                                  (Z.lor (hmm_flags h) p7H_CS)
           | None => h
           end in
  let h := match msa_sa_cons m with
           | Some sa => set_flags (set_ca h (Some (annotation_line m sa)))
                                  (Z.lor (hmm_flags h) p7H_CA)
           | None => h
           end in
  let h := set_map h (Some (0 :: seqZ 1 (msa_alen m))) in
  (eslOK, set_flags h (Z.lor (hmm_flags h) p7H_MAP)).

(** Position 0 of the profile, the pre-align state. *)
Definition fill_position_0 (lib : Library) (profile : Profile) (h : P7_HMM) : P7_HMM :=
  let p0 := position profile 0 in
  let h := set_tr h 0 p7H_MI (f_of_d (Insertion_toInsertion p0)) in
  let h := set_tr h 0 p7H_II (tr h 0 p7H_MI) in
  let h := set_tr h 0 p7H_IM (fsub f1 (tr h 0 p7H_MI)) in
  let h := for_lt 0 (ValueSize lib) (fun res_i h =>
             set_ins_at h 0 (esl_abc_DigitizeSymbol lib res_i)
                        (f_of_d (emission (Insertion_emission p0) res_i))) h in
  let h := set_mat_at h 0 0 (f_of_d d1) in
  for_lt 1 (hmm_K h) (fun res_i h =>
    let h := set_mat_at h 0 res_i (f_of_d d0) in
    let h := set_tr h 0 p7H_II (f_of_d (PreAlign_toPreAlign p0)) in
    let h := set_tr h 0 p7H_IM (f_of_d (PreAlign_toBegin p0)) in
    let h := set_tr h 0 p7H_MI (f_of_d (Match_toInsertion p0)) in
    let h := set_tr h 0 p7H_MM (f_of_d (Match_toMatch p0)) in
    set_tr h 0 p7H_MD (f_of_d (Match_toDeletion p0))) h.

(** Position [pos_i >= 1]; the last one takes its transitions from the
    post-align distribution. *)
Definition fill_position (lib : Library) (profile : Profile) (pos_i : nat) (h : P7_HMM)
    : P7_HMM :=
  let p := position profile pos_i in
  let h := for_lt 0 (ValueSize lib) (fun res_i h =>
             let r := esl_abc_DigitizeSymbol lib res_i in
             let h := set_mat_at h pos_i r (f_of_d (emission (Match_emission p) res_i)) in
             set_ins_at h pos_i r (f_of_d (emission (Insertion_emission p) res_i))) h in
  if (pos_i =? length profile - 1)%nat then
    let h := set_tr h pos_i p7H_IM (f_of_d (PostAlign_toTerminal p)) in
    let h := set_tr h pos_i p7H_II (f_of_d (PostAlign_toPostAlign p)) in
    let h := set_tr h pos_i p7H_MM (f_of_d (PostAlign_toTerminal p)) in
    set_tr h pos_i p7H_MI (f_of_d (PostAlign_toPostAlign p))
  else
    let h := set_tr h pos_i p7H_MM (f_of_d (Match_toMatch p)) in
    let h := set_tr h pos_i p7H_MI (f_of_d (Match_toInsertion p)) in
    let h := set_tr h pos_i p7H_MD (f_of_d (Match_toDeletion p)) in
    let h := set_tr h pos_i p7H_IM (f_of_d (Insertion_toMatch p)) in
    let h := set_tr h pos_i p7H_II (f_of_d (Insertion_toInsertion p)) in
    let h := set_tr h pos_i p7H_DM (f_of_d (Deletion_toMatch p)) in
    set_tr h pos_i p7H_DD (f_of_d (Deletion_toDeletion p)).

(** The model with the profile's distributions, before it is scaled. *)
Definition fill_counts (lib : Library) (profile : Profile) (h : P7_HMM) : P7_HMM :=
  let h := fill_position_0 lib profile h in
  for_lt 1 (length profile) (fill_position lib profile) h.

(** The [#=RF] line of the alignment, reset to all match columns. *)
Fixpoint all_x (n : nat) : string :=
  match n with O => EmptyString | S n => String "x"%char (all_x n) end.

(** The function: its status, [*ret_hmm] and the alignment it leaves. *)
Definition profillic_p7_Profillicmodelmaker (lib : Library) (bld : P7_BUILDER)
    (msa : ESL_MSA) (profile : Profile) : status * option P7_HMM * ESL_MSA :=
  let M := static_cast_int (Z.of_nat (length profile)) in
  if M =? 0 then (eslENORESULT, None, msa)
  else
    let h := p7_hmm_Create M (msa_abc_K msa) in
    let h := fill_counts lib profile h in
    let h := set_nseq h (msa_nseq msa) in
    let h := set_eff_nseq h (f_of_Z (msa_nseq msa)) in
    match profillic_annotate_model h msa with
    | (eslOK, h) =>
        let msa := set_msa_rf msa (Some (all_x (Z.to_nat (msa_alen msa)))) in
        let h := p7_hmm_Scale h (d_of_Z (hmm_nseq h)) in
        (eslOK, Some h, msa)
    | (st, _) => (st, None, msa)
    end.

(** ** The pipeline steps *)

(** A step that may fail: the model on [eslOK], the status otherwise (the
    [goto ERROR] paths). *)
Definition step_result : Type := status + P7_HMM.

Definition check (r : status * P7_HMM) : step_result :=
  match r with
  | (eslOK, h) => inr h
  | (st, _) => inl st
  end.

Definition and_then (r : step_result) (f : P7_HMM -> step_result) : step_result :=
  match r with
  | inr h => f h
  | inl st => inl st
  end.

Notation "r >>= f" := (and_then r f) (at level 50, left associativity).

(** [ESL_MAX] and [ESL_MIN] are the macros [a > b ? a : b] and
    [a < b ? a : b]. *)
Definition ESL_MAX (a b : float64) : float64 := if dltb b a then a else b.
Definition ESL_MIN (a b : float32) : float32 := if SFltb a b then a else b.

(** [effective_seqnumber] *)
Definition effective_seqnumber (lib : Library) (bld : P7_BUILDER) (msa : ESL_MSA)
    (h : P7_HMM) (bg : P7_BG) : step_result :=
  let r :=
    match bld_effn_strategy bld with
    | p7_EFFN_NONE => inr (set_eff_nseq h (f_of_Z (msa_nseq msa)))
    | p7_EFFN_SET => inr (set_eff_nseq h (f_of_d (bld_eset bld)))
    | p7_EFFN_CLUST =>
        match esl_msacluster_SingleLinkage lib msa (bld_eid bld) with
        | (eslOK, nclust) => inr (set_eff_nseq h (f_of_d (d_of_Z nclust)))
        | (st, _) => inl st
        end
    | p7_EFFN_ENTROPY =>
        let M := d_of_Z (hmm_M h) in
        let etarget :=
          ddiv (dsub (bld_esigma bld)
                     (dmul (eslCONST_LOG2R lib)
                           (c_log lib (ddiv (d_of_Z 2) (dmul M (d_of_Z (hmm_M h + 1)))))))
               M in
        let etarget := ESL_MAX (bld_re_target bld) etarget in
        match p7_EntropyWeight lib h bg (bld_prior bld) etarget with
        | (eslOK, eff_nseq) => inr (set_eff_nseq h (f_of_d eff_nseq))
        | (st, _) => inl st
        end
    end in
  r >>= fun h =>
  inr (p7_hmm_Scale h (ddiv (d_of_f (hmm_eff_nseq h)) (d_of_Z (hmm_nseq h)))).

(** A row of an array rewritten in place. *)
Definition upd_row (a : list (list float32)) (k : nat)
    (f : list float32 -> list float32) : list (list float32) :=
  match a !! k with
  | Some r => <[k := f r]> a
  | None => a
  end.

(** [esl_vec_FSet(row, n, 0.)] *)
Definition FSet_0 (n : nat) (row : list float32) : list float32 :=
  replicate (n `min` length row) f0 ++ drop n row.

(** [esl_vec_FNorm(row + off, n)]: the entries [off .. off+n-1] of a row
    normalised by the library. *)
Definition FNorm_at (lib : Library) (off n : nat) (row : list float32) : list float32 :=
  take off row ++ esl_vec_FNorm lib (take n (drop off row)) ++ drop (off + n) row.

(** [profillic_parameterize], the branch without priors. *)
Definition normalize_counts (lib : Library) (h : P7_HMM) : P7_HMM :=
  let M := Z.to_nat (hmm_M h) in
  let K := hmm_K h in
  let t := hmm_t h in
  let t := for_lt 0 M (fun k t => upd_row t k (FNorm_at lib 0 3)) t in
  let t := wr2 t M p7H_MD (f_of_d d0) in
  let t := upd_row t M (FNorm_at lib 0 3) in
  let t := for_k 0 M (fun k t => upd_row t k (FNorm_at lib 3 2)) t in
  let t := for_lt 1 M (fun k t => upd_row t k (FNorm_at lib 5 2)) t in
  let t := wr2 t M p7H_DM (f_of_d d1) in
  let t := wr2 t 0 p7H_DM (rd2 f0 t M p7H_DM) in
  let t := wr2 t M p7H_DD (f_of_d d0) in
  let t := wr2 t 0 p7H_DD (rd2 f0 t M p7H_DD) in
  let mat := hmm_mat h in
  let mat := for_k 1 M (fun k a => upd_row a k (FNorm_at lib 0 K)) mat in
  let mat := upd_row mat 0 (FSet_0 K) in
  let mat := wr2 mat 0 0 (f_of_d d1) in
  let ins := hmm_ins h in
  let ins := for_k 0 M (fun k a => upd_row a k (FNorm_at lib 0 K)) ins in
  set_ins (set_mat (set_t h t) mat) ins.

Definition profillic_parameterize (lib : Library) (bld : P7_BUILDER) (h : P7_HMM)
    (use_priors : bool) : step_result :=
  if use_priors then check (p7_ParameterEstimation lib h (bld_prior bld))
  else inr (normalize_counts lib h).

(** A cutoff pair copied from the alignment when both are set. *)
Definition copy_cutoffs (msa : ESL_MSA) (m1 m2 p1 p2 : nat) (flag : Z) (h : P7_HMM)
    : P7_HMM :=
  if default false (msa_cutset msa !! m1) && default false (msa_cutset msa !! m2) then
    let c := hmm_cutoff h in
    let c := <[p1 := default f0 (msa_cutoff msa !! m1)]> c in
    let c := <[p2 := default f0 (msa_cutoff msa !! m2)]> c in
    set_flags (set_cutoff h c) (Z.lor (hmm_flags h) flag)
  else h.

(** [annotate] *)
Definition annotate (lib : Library) (bld : P7_BUILDER) (msa : ESL_MSA) (h : P7_HMM)
    : step_result :=
  match msa_name msa with
  | None => inl eslEINVAL
  | Some _ =>
      let h := p7_hmm_SetName lib h msa in
      check (p7_hmm_SetAccession lib h msa) >>= fun h =>
      check (p7_hmm_SetDescription lib h msa) >>= fun h =>
      check (p7_hmm_SetCtime lib h) >>= fun h =>
      check (p7_hmm_SetComposition lib h) >>= fun h =>
      check (p7_hmm_SetConsensus lib h) >>= fun h =>
      let h := copy_cutoffs msa eslMSA_GA1 eslMSA_GA2 p7_GA1 p7_GA2 p7H_GA h in
      let h := copy_cutoffs msa eslMSA_TC1 eslMSA_TC2 p7_TC1 p7_TC2 p7H_TC h in
      let h := copy_cutoffs msa eslMSA_NC1 eslMSA_NC2 p7_NC1 p7_NC2 p7H_NC h in
      inr h
  end.

(** [calibrate] *)
Definition calibrate (lib : Library) (bld : P7_BUILDER) (h : P7_HMM) (bg : P7_BG)
    : step_result :=
  check (p7_Calibrate lib h bld bg).

(** [make_post_msa]; [want] says that the caller asked for the alignment. *)
Definition make_post_msa (lib : Library) (premsa : ESL_MSA) (h : P7_HMM) (want : bool)
    : step_result :=
  if want then check (p7_tracealign_MSA lib premsa (hmm_M h), h) else inr h.

(** [profillic_build_model]: the status it returns, [*ret_hmm] and the
    alignment.  With a profile the converter's status is overwritten by
    the final [return eslOK]. *)
Definition profillic_build_model (lib : Library) (bld : P7_BUILDER) (msa : ESL_MSA)
    (profile_ptr : option Profile) : status * option P7_HMM * ESL_MSA :=
  match profile_ptr with
  | Some profile =>
      let '(_, ret_hmm, msa) := profillic_p7_Profillicmodelmaker lib bld msa profile in
      (eslOK, ret_hmm, msa)
  | None =>
      let '(st, ret_hmm) :=
        match bld_arch_strategy bld with
        | p7_ARCH_FAST => p7_Fastmodelmaker lib msa bld
        | p7_ARCH_HAND => p7_Handmodelmaker lib msa bld
        end in
      (st, ret_hmm, msa)
  end.

(** The insert self-loop capped by [max_insert_len]. *)
Definition cap_inserts (bld : P7_BUILDER) (h : P7_HMM) : P7_HMM :=
  if bld_max_insert_len bld >? 0 then
    for_lt 1 (Z.to_nat (hmm_M h)) (fun i h =>
      set_tr h i p7H_II
        (ESL_MIN (tr h i p7H_II)
                 (fmul (f_of_Z (bld_max_insert_len bld)) (tr h i p7H_MI)))) h
  else h.

(** Masked positions forced to the background. *)
Definition mask_to_background (bg : P7_BG) (h : P7_HMM) : P7_HMM :=
  match hmm_mm h with
  | Some mm =>
      for_lt 1 (Z.to_nat (hmm_M h)) (fun i h =>
        if default false (mm !! i) then
          for_lt 0 (hmm_K h) (fun j h =>
            set_mat_at h i j (default f0 (bg_f bg !! j))) h
        else h) h
  | None => h
  end.

(** The window length, set for DNA and RNA only. *)
Definition set_window (bld : P7_BUILDER) (h : P7_HMM) : step_result :=
  match bld_abc_type bld with
  | eslDNA | eslRNA =>
      if bld_w_len bld >? 0 then inr (set_max_length h (bld_w_len bld))
      else if deqb (bld_w_beta bld) d0 then inr (set_max_length h (hmm_M h * 4))
      else check (profillic_p7_Builder_MaxLength h (bld_w_beta bld))
  | _ => inr h
  end.

(** What a call of the builder does: it returns [eslOK] with the model,
    it returns an error status, or it dereferences the [NULL] model that
    [profillic_build_model] reported as a success. *)
Inductive build_outcome : Type :=
| Built (h : P7_HMM) (msa : ESL_MSA)
| Failed (st : status)
| NullModel.

(** The steps between the construction of the count model and the
    window length. *)
Definition build_steps (lib : Library) (bld : P7_BUILDER) (msa : ESL_MSA)
    (bg : P7_BG) (want_postmsa use_priors : bool) (h : P7_HMM) : step_result :=
  effective_seqnumber lib bld msa (cap_inserts bld h) bg >>= fun h =>
  profillic_parameterize lib bld h use_priors >>= fun h =>
  annotate lib bld msa h >>= fun h =>
  calibrate lib bld h bg >>= fun h =>
  make_post_msa lib msa h want_postmsa >>= fun h =>
  inr (mask_to_background bg h).

(** [profillic_p7_Builder] *)
Definition profillic_p7_Builder (lib : Library) (bld : P7_BUILDER) (msa : ESL_MSA)
    (profile_ptr : option Profile) (bg : P7_BG) (want_postmsa use_priors : bool)
    : build_outcome :=
  match profillic_build_model lib bld msa profile_ptr with
  | (eslOK, Some h, msa) =>
      match build_steps lib bld msa bg want_postmsa use_priors h >>= set_window bld with
      | inr h =>
          let checksum := 0 in
          let h := set_checksum h checksum in
          Built (set_flags h (Z.lor (hmm_flags h) p7H_CHKSUM)) msa
      | inl st => Failed st
      end
  | (eslOK, None, _) => NullModel
  | (st, _, _) => Failed st
  end.

(** ** The reader of the thread pool: [thread_loop]

    The reader numbers the alignments it reads [1, 2, ...], hands each to
    the work queue and takes back whatever item the queue returns: a free
    slot, or an item a worker has finished.  Finished items are written in
    the order of their numbers; those that come back early wait in the
    list [top], kept sorted. *)

Record WORK_ITEM : Type := mkItem {
  item_nali : Z;
  item_processed : bool
}.

Record reader : Type := mkReader {
  rd_nali : Z;             (* cfg->nali: alignments read so far *)
  rd_processed : Z;        (* finished items taken back *)
  rd_next : Z;             (* number of the next result to write *)
  rd_top : list Z;         (* the pending list, by [nali] *)
  rd_out : list Z          (* calls of [output_result], oldest first *)
}.

Definition reader_init : reader := mkReader 0 0 1 [] [].

(** The walk [while (ptr->next != NULL && tmp->nali > ptr->next->nali)]
    and the insertion after [ptr]. *)
Fixpoint insert_after (n : Z) (l : list Z) : list Z :=
  match l with
  | [] => [n]
  | x :: l' => if n >? x then x :: insert_after n l' else n :: l
  end.

(** "add the msa to the pending list" *)
Definition pending_insert (n : Z) (top : list Z) : list Z :=
  match top with
  | [] => [n]
  | t :: rest => if n <? t then n :: top else t :: insert_after n rest
  end.

(** [while (top != NULL && top->nali == next)]: write and unlink. *)
Fixpoint drain (top : list Z) (next : Z) (out : list Z) : list Z * Z * list Z :=
  match top with
  | [] => ([], next, out)
  | t :: rest =>
      if t =? next then drain rest (next + 1) (out ++ [t]) else (top, next, out)
  end.

(** "process any results": the item the queue returned. *)
Definition receive (item : WORK_ITEM) (r : reader) : reader :=
  if item_processed item then
    let processed := rd_processed r + 1 in
    if item_nali item =? rd_next r then
      let '(top, next, out) :=
        drain (rd_top r) (rd_next r + 1) (rd_out r ++ [item_nali item]) in
      mkReader (rd_nali r) processed next top out
    else
      mkReader (rd_nali r) processed (rd_next r)
               (pending_insert (item_nali item) (rd_top r)) (rd_out r)
  else r.

Inductive loop_end : Type :=
| Finished (out : list Z)     (* the loop ended and [top] was empty *)
| Fatal                       (* [esl_fatal("Top is not empty")] *)
| Waiting.                    (* blocked in [esl_workqueue_ReaderUpdate] *)

(** After the loop. *)
Definition shutdown (r : reader) : loop_end :=
  match rd_top r with
  | [] => Finished (rd_out r)
  | _ :: _ => Fatal
  end.

(** The main loop over a file of [N] alignments; [returned] lists the
    items the queue hands back, one per call of
    [esl_workqueue_ReaderUpdate]. *)
Fixpoint thread_loop (N : Z) (returned : list WORK_ITEM) (r : reader) : loop_end :=
  if rd_nali r <? N then
    let r := mkReader (rd_nali r + 1) (rd_processed r) (rd_next r) (rd_top r) (rd_out r) in
    match returned with
    | [] => Waiting
    | item :: rest => thread_loop N rest (receive item r)
    end
  else if rd_processed r <? rd_nali r then
    match returned with
    | [] => Waiting
    | item :: rest => thread_loop N rest (receive item r)
    end
  else shutdown r.

(** The numbers of the finished items among those returned. *)
Definition finished (returned : list WORK_ITEM) : list Z :=
  map item_nali (filter (fun it => item_processed it = true) returned).

(** ** Concrete inputs *)

(** A normalisation for the concrete library: divide by the float sum,
    taken left to right, or set every entry to [1/n] when the sum is zero. *)
Definition plain_FNorm (vec : list float32) : list float32 :=
  let sum := fold_left fadd vec f0 in
  if negb (deqb (d_of_f sum) d0)
  then map (fun x => fdiv x sum) vec
  else map (fun _ => f_of_d (ddiv d1 (d_of_f (f_of_Z (Z.of_nat (length vec)))))) vec.

(** A library whose routines all succeed and leave the model as it is;
    residues are digitised in their own order. *)
Definition quiet_library (nres : nat) : Library :=
  mkLibrary nres (fun i => i)
    (fun _ _ => (eslENORESULT, None)) (fun _ _ => (eslENORESULT, None))
    (fun _ _ => (eslOK, 1)) (fun _ _ _ _ => (eslOK, d1))
    (fun x => x) (dbl 14426950408889634 10000000000000000)
    plain_FNorm
    (fun h _ => (eslOK, h)) (fun h _ => h)
    (fun h _ => (eslOK, h)) (fun h _ => (eslOK, h))
    (fun h => (eslOK, h)) (fun h => (eslOK, h)) (fun h => (eslOK, h))
    (fun h _ _ => (eslOK, h)) (fun _ _ => eslOK).

Definition builder_with (effn : effn_strategy) (abc : alphabet_type) : P7_BUILDER :=
  mkBuilder p7_ARCH_FAST effn abc None (d_of_Z (-1)) (dbl 62 100) (d_of_Z 45)
            (d_of_Z (-1)) 0 (-1) window_beta.

Definition msa_of (nseq alen : Z) (K : nat) : ESL_MSA :=
  mkMSA nseq alen K (Some "profile"%string) None None None
        (replicate 6 false) (replicate 6 f0).

Definition quarter : float64 := dbl 1 4.

(** A profile position over four residues with dyadic distributions. *)
Definition dna_position : ProfilePosition :=
  mkPos [quarter; quarter; quarter; quarter] [quarter; quarter; quarter; quarter]
        (dbl 1 2) quarter quarter (dbl 1 2) (dbl 1 2) (dbl 1 2) (dbl 1 2)
        (dbl 1 2) (dbl 1 2) (dbl 1 2) (dbl 1 2).

Definition dna_profile : Profile := [dna_position; dna_position; dna_position].

Definition no_bg : P7_BG := mkBG [flt 1 4; flt 1 4; flt 1 4; flt 1 4].

(** A count model of ten sequences, and the same counts under a number of
    sequences that is not a float. *)
Definition count_hmm (nseq : Z) : P7_HMM :=
  mkHMM 1 4
    [ [f1; f0; f0; f1; f0; f1; f0]; [f1; f0; f0; f1; f0; f1; f0] ]
    [ [f1; f0; f0; f0]; [half; half; f0; f0] ]
    [ [half; half; f0; f0]; [half; half; f0; f0] ]
    nseq (f_of_Z nseq) (-1) 0 0 None None None None None (replicate 6 f0).

(** ** Predicates of the statements *)

(** Shape of a buffer: [n] rows of [w] entries. *)
Definition shape {A : Type} (n w : nat) (a : list (list A)) : Prop :=
  length a = n /\ Forall (fun r => length r = w) a.

(** The three buffers of the estimator have rows [0..ml], two entries each. *)
Definition dp_wf (ml : nat) (s : dp) : Prop :=
  shape (S ml) 2 (dpI s) /\ shape (S ml) 2 (dpM s) /\ shape (S ml) 2 (dpD s).

(** The three buffers agree at [(k, c)]. *)
Definition same_at (s s' : dp) (k c : nat) : Prop :=
  getI s k c = getI s' k c /\ getM s k c = getM s' k c /\ getD s k c = getD s' k c.

(** The entries of row [k] in the second column, as the loop writes them. *)
Definition col2_eqns (h : P7_HMM) (s : dp) (k : nat) : Prop :=
  getM s k 1 = tmul h (k - 1) p7H_DM (getD s (k - 1) 0) /\
  getI s k 1 = d0 /\
  getD s k 1 = dadd (tmul h (k - 1) p7H_MD (getM s (k - 1) 1))
                    (tmul h (k - 1) p7H_DD (getD s (k - 1) 1)).

(** The search converged: the model has one state, or the loop met its
    stopping test at some column up to [length_bound]. *)
Definition converges (h : P7_HMM) (emit_thresh : float64) : Prop :=
  hmm_M h = 1 \/ is_Some (stopping_column h emit_thresh).

(** The table of [stuck_hmm] after its third column. *)
Definition stuck_table : dp :=
  Eval vm_compute in
    fst (fst (column stuck_hmm 2 0 (two_columns stuck_hmm 2)
                     (p_sum_init 2 (two_columns stuck_hmm 2)))).

(** What filling and annotating a model leave alone. *)
Definition same_frame (h h' : P7_HMM) : Prop :=
  hmm_M h' = hmm_M h /\ hmm_K h' = hmm_K h /\ hmm_nseq h' = hmm_nseq h /\
  hmm_max_length h' = hmm_max_length h /\
  length (hmm_t h') = length (hmm_t h) /\
  length (hmm_mat h') = length (hmm_mat h) /\
  length (hmm_ins h') = length (hmm_ins h).

(** Every count of the model is a binary32 value. *)
Definition counts_valid (h : P7_HMM) : Prop :=
  Forall (Forall (fun x => valid32 x = true)) (hmm_t h) /\
  Forall (Forall (fun x => valid32 x = true)) (hmm_mat h) /\
  Forall (Forall (fun x => valid32 x = true)) (hmm_ins h).

(** The mantissa [p] shifted left by [k] bits. *)
Definition shl (p : positive) (k : Z) : positive :=
  match k with Zpos k => Pos.iter xO p k | _ => p end.

(** The scale factor [eff_nseq / (double) nseq], as [p7_hmm_Scale] hands
    it to [esl_vec_FScale], when [eff_nseq] is [(float) nseq]. *)
Definition none_scale (n : Z) : float32 :=
  f_of_d (ddiv (d_of_f (f_of_Z n)) (d_of_Z n)).

(** The library routines that receive the model leave [max_length] alone. *)
Record library_keeps_window (lib : Library) : Prop := mkKeeps {
  keeps_ParameterEstimation :
    forall h p, hmm_max_length (snd (p7_ParameterEstimation lib h p)) = hmm_max_length h;
  keeps_SetName :
    forall h m, hmm_max_length (p7_hmm_SetName lib h m) = hmm_max_length h;
  keeps_SetAccession :
    forall h m, hmm_max_length (snd (p7_hmm_SetAccession lib h m)) = hmm_max_length h;
  keeps_SetDescription :
    forall h m, hmm_max_length (snd (p7_hmm_SetDescription lib h m)) = hmm_max_length h;
  keeps_SetCtime :
    forall h, hmm_max_length (snd (p7_hmm_SetCtime lib h)) = hmm_max_length h;
  keeps_SetComposition :
    forall h, hmm_max_length (snd (p7_hmm_SetComposition lib h)) = hmm_max_length h;
  keeps_SetConsensus :
    forall h, hmm_max_length (snd (p7_hmm_SetConsensus lib h)) = hmm_max_length h;
  keeps_Calibrate :
    forall h b g, hmm_max_length (snd (p7_Calibrate lib h b g)) = hmm_max_length h
}.

(** The reader's invariant: the results written so far are [1 .. next-1];
    what waits in [top] is sorted and lies beyond [next]; every finished
    item taken back was written or waits. *)
Record reader_inv (r : reader) : Prop := mkInv {
  inv_next : 1 <= rd_next r;
  inv_out : rd_out r = seqZ 1 (rd_next r - 1);
  inv_sorted : StronglySorted Z.lt (rd_top r);
  inv_beyond : Forall (fun x => rd_next r < x) (rd_top r);
  inv_processed : rd_processed r = Z.of_nat (length (rd_out r ++ rd_top r))
}.

(** Concrete schedules and models of the examples. *)
Definition out_of_order : list WORK_ITEM :=
  [ mkItem 0 false; mkItem 0 false; mkItem 2 true; mkItem 4 true;
    mkItem 3 true; mkItem 1 true ].

Definition one_state_hmm : P7_HMM :=
  mkHMM 1 4 [ zero_row; [f1; f0; f0; f1; f0; f1; f0] ] [] [] 1 f1 (-1) 0 0
        None None None None None [].

Definition large_nseq : Z := 16777217.

(** * The rest of the builder and the serial driver

    Predicates on the nodes of a model, [validate_msa] of the builder, and
    [set_msa_name] and [profillic_serial_loop] of the driver. *)

(** Node [k] of a model: its transition row and its two emission rows. *)
Definition node (h : P7_HMM) (k : nat)
    : option (list float32) * option (list float32) * option (list float32) :=
  (hmm_t h !! k, hmm_mat h !! k, hmm_ins h !! k).

(** A value [toDouble] returned, stored in a [float] count and scaled by
    the number of sequences. *)
Definition count_of (msa : ESL_MSA) (x : float64) : float32 :=
  fmul (f_of_d x) (f_of_d (d_of_Z (msa_nseq msa))).

(** The residues are digitised to distinct symbols of the alphabet. *)
Definition digitises (lib : Library) (K : nat) : Prop :=
  (forall r, (r < ValueSize lib)%nat -> (esl_abc_DigitizeSymbol lib r < K)%nat) /\
  (forall r r', (r < ValueSize lib)%nat -> (r' < ValueSize lib)%nat ->
     esl_abc_DigitizeSymbol lib r = esl_abc_DigitizeSymbol lib r' -> r = r').

(** A flag bit is set in [flags]. *)
Definition has_flag (flags bit : Z) : bool := negb (Z.land flags bit =? 0).

(** The background frequencies as an emission row. *)
Definition background_row (bg : P7_BG) (K : nat) : list float32 :=
  map (fun j => default f0 (bg_f bg !! j)) (seq 0 K).

(** ** [validate_msa]

    A digital sequence [ax[idx]] holds the residues of one row at the
    indices [1 .. alen], between two sentinel bytes at [0] and [alen+1].
    [missing] is [esl_abc_XIsMissing] of the alignment's alphabet. *)

Definition eslDSQ_SENTINEL : Z := 255.

(** [ax[idx][apos]]; the loops below read the indices [1 .. alen+1] only. *)
Definition dsq_at (dsq : list Z) (apos : Z) : Z :=
  default eslDSQ_SENTINEL (dsq !! Z.to_nat apos).

(** [while (missing(dsq[apos]) == want && apos <= alen) apos++;] with
    [n] bounding the iterations that are left: the loop leaves at
    [apos = alen + 1] at the latest. *)
Fixpoint scan (missing : Z -> bool) (want : bool) (dsq : list Z) (alen : Z)
    (n : nat) (apos : Z) : Z :=
  match n with
  | O => apos
  | S n' =>
      if Bool.eqb (missing (dsq_at dsq apos)) want && (apos <=? alen)
      then scan missing want dsq alen n' (apos + 1)
      else apos
  end.

(** One row: the three loops and the test [apos != msa->alen+1]. *)
Definition validate_row (missing : Z -> bool) (dsq : list Z) (alen : Z) : bool :=
  let n := Z.to_nat alen in
  let apos := 1 in
  let apos := scan missing true dsq alen n apos in
  let apos := scan missing false dsq alen n apos in
  let apos := scan missing true dsq alen n apos in
  apos =? alen + 1.

(** [for (idx = 0; idx < msa->nseq; idx++)], leaving at the first row that
    fails. *)
Fixpoint validate_rows (missing : Z -> bool) (ax : list (list Z)) (alen : Z)
    (rows : list nat) : status :=
  match rows with
  | [] => eslOK
  | idx :: rest =>
      if validate_row missing (default [] (ax !! idx)) alen
      then validate_rows missing ax alen rest
      else eslEINVAL
  end.

Definition validate_msa (missing : Z -> bool) (ax : list (list Z)) (nseq alen : Z)
    : status :=
  validate_rows missing ax alen (seq 0 (Z.to_nat nseq)).

(** Missing-data symbols at the two edges of the row only. *)
Definition edges_only (missing : Z -> bool) (dsq : list Z) (alen : Z) : Prop :=
  exists i j, 1 <= i <= j /\ j <= alen + 1 /\
    forall p, 1 <= p <= alen -> missing (dsq_at dsq p) = (p <? i) || (j <=? p).

(** ** The master's configuration: [struct cfg_s]

    The fields [set_msa_name] and the serial loop read or write. *)

Record cfg_s : Type := mkCfg {
  cfg_nali : Z;                      (* which alignment this is in the file *)
  cfg_nnamed : Z;                    (* alignments that had their own names *)
  cfg_do_mpi : bool;
  cfg_hmmName : option string;       (* the name given with -n *)
  cfg_filename : option string;      (* cfg->afp->bf->filename *)
  cfg_profillic : bool;              (* cfg->afp->format == eslMSAFILE_PROFILLIC *)
  cfg_abc_type : option alphabet_type;
  cfg_postmsafile : bool             (* cfg->postmsafile != NULL *)
}.

Definition set_cfg_nali (c : cfg_s) (v : Z) : cfg_s :=
  mkCfg v (cfg_nnamed c) (cfg_do_mpi c) (cfg_hmmName c) (cfg_filename c)
        (cfg_profillic c) (cfg_abc_type c) (cfg_postmsafile c).
Definition set_cfg_nnamed (c : cfg_s) (v : Z) : cfg_s :=
  mkCfg (cfg_nali c) v (cfg_do_mpi c) (cfg_hmmName c) (cfg_filename c)
        (cfg_profillic c) (cfg_abc_type c) (cfg_postmsafile c).

(** What the driver calls outside the sources: Easel's [esl_msa_SetName]
    and [esl_FileTail] (with [nosuffix]), the single-sequence path
    ([esl_sq_FetchFromMSA] and the single-sequence builder) and the writer
    of the model file. *)
Record Driver : Type := mkDriver {
  esl_msa_SetName : ESL_MSA -> string -> status * ESL_MSA;
  esl_FileTail : string -> status * string;
  single_build : ESL_MSA -> status * P7_HMM;
  p7_hmmfile_WriteASCII : P7_HMM -> status
}.

(** [set_msa_name]: the status, the configuration (its count of named
    alignments) and the alignment it leaves. *)
Definition set_msa_name (drv : Driver) (cfg : cfg_s) (msa : ESL_MSA)
    : status * cfg_s * ESL_MSA :=
  if negb (cfg_do_mpi cfg) && (cfg_nali cfg =? 1) then
    match cfg_hmmName cfg with
    | Some hmmName =>
        let '(st, msa') := esl_msa_SetName drv msa hmmName in (st, cfg, msa')
    | None =>
        match msa_name msa with
        | Some _ => (eslOK, set_cfg_nnamed cfg (cfg_nnamed cfg + 1), msa)
        | None =>
            match cfg_filename cfg with
            | Some filename =>
                match esl_FileTail drv filename with
                | (eslOK, name) =>
                    let '(st, msa') := esl_msa_SetName drv msa name in (st, cfg, msa')
                | (st, _) => (st, cfg, msa)
                end
            | None => (eslEINVAL, cfg, msa)
            end
        end
    end
  else
    match cfg_hmmName cfg with
    | Some _ => (eslEINVAL, cfg, msa)
    | None =>
        match msa_name msa with
        | Some _ =>
            let cfg := set_cfg_nnamed cfg (cfg_nnamed cfg + 1) in
            if negb (cfg_nnamed cfg =? cfg_nali cfg) then (eslEINVAL, cfg, msa)
            else (eslOK, cfg, msa)
        | None => (eslEINVAL, cfg, msa)
        end
    end.

(** ** The serial loop: [profillic_serial_loop]

    The file is the list of what successive calls of
    [profillic_eslx_msafile_Read] return before [eslEOF]: a status, the
    alignment and the profile read with it.  [written] lists the calls of
    [output_result] that saved a model, by alignment number; the writes of
    the summary table are taken to succeed. *)

Inductive stop_reason : Type :=
| ReadFailure (st : status)      (* eslx_msafile_ReadFailure *)
| NameFailure (st : status)      (* p7_Fail with the message of set_msa_name *)
| BuildFailure                   (* p7_Fail("build failed: %s", bld->errbuf), the local bld being NULL *)
| NullModelUse                   (* the builder went on with a NULL model *)
| WriteFailure (st : status).    (* p7_Fail with the message of output_result *)

Inductive serial_outcome : Type :=
| Completed (written : list (Z * P7_HMM))
| Stopped (why : stop_reason) (written : list (Z * P7_HMM)).

Record WORKER_INFO : Type := mkInfo {
  info_bld : P7_BUILDER;
  info_bg : P7_BG;
  info_use_priors : bool
}.

(** The model of one alignment: the builder, or the single-sequence path
    for one amino sequence under [--single]. *)
Definition build_one (lib : Library) (drv : Driver) (info : WORKER_INFO) (cfg : cfg_s)
    (single : bool) (msa : ESL_MSA) (profile_ptr : option Profile)
    : stop_reason + P7_HMM :=
  if (msa_nseq msa >? 1)
     || match cfg_abc_type cfg with
        | Some eslAMINO => false
        | Some _ => true
        | None => false
        end
     || negb single
  then
    match profillic_p7_Builder lib (info_bld info) msa profile_ptr (info_bg info)
            (cfg_postmsafile cfg) (info_use_priors info) with
    | Built h _ => inr h
    | Failed _ => inl BuildFailure
    | NullModel => inl NullModelUse
    end
  else
    match single_build drv msa with
    | (eslOK, h) => inr (set_eff_nseq h (f_of_Z 1))
    | (_, _) => inl BuildFailure
    end.

Fixpoint serial_iter (lib : Library) (drv : Driver) (info : WORKER_INFO)
    (single with_profile : bool) (file : list (status * ESL_MSA * Profile))
    (cfg : cfg_s) (written : list (Z * P7_HMM)) : serial_outcome :=
  if cfg_profillic cfg && negb (cfg_nali cfg =? 0) then Completed written
  else
    match file with
    | [] => Completed written
    | (eslOK, msa, profile) :: rest =>
        let cfg := set_cfg_nali cfg (cfg_nali cfg + 1) in
        match set_msa_name drv cfg msa with
        | (eslOK, cfg, msa) =>
            match build_one lib drv info cfg single msa
                    (if with_profile then Some profile else None) with
            | inr h =>
                match p7_hmmfile_WriteASCII drv h with
                | eslOK =>
                    serial_iter lib drv info single with_profile rest cfg
                                (written ++ [(cfg_nali cfg, h)])
                | st => Stopped (WriteFailure st) written
                end
            | inl why => Stopped why written
            end
        | (st, _, _) => Stopped (NameFailure st) written
        end
    | (st, _, _) :: _ => Stopped (ReadFailure st) written
    end.

Definition profillic_serial_loop (lib : Library) (drv : Driver) (info : WORKER_INFO)
    (cfg : cfg_s) (single with_profile : bool) (file : list (status * ESL_MSA * Profile))
    : serial_outcome :=
  serial_iter lib drv info single with_profile file (set_cfg_nali cfg 0) [].

(** [esl_msa_SetName] names the alignment it returns. *)
Definition names_alignment (drv : Driver) : Prop :=
  forall m s m', esl_msa_SetName drv m s = (eslOK, m') -> msa_name m' = Some s.

(** The alignment of an entry of the file carries a name. *)
Definition alignment_named (x : status * ESL_MSA * Profile) : Prop :=
  is_Some (msa_name (snd (fst x))).

(** A nucleic builder with a fixed window length. *)
Definition window_builder (w_len : Z) : P7_BUILDER :=
  mkBuilder p7_ARCH_FAST p7_EFFN_NONE eslDNA None (d_of_Z (-1)) (dbl 62 100) (d_of_Z 45)
            (d_of_Z (-1)) 0 w_len window_beta.

(** A builder that caps the insert loops. *)
Definition capping_builder (max_insert_len : Z) : P7_BUILDER :=
  mkBuilder p7_ARCH_FAST p7_EFFN_NONE eslDNA None (d_of_Z (-1)) (dbl 62 100) (d_of_Z 45)
            (d_of_Z (-1)) max_insert_len (-1) window_beta.

(** A three-node model whose nodes 1 and 3 are masked. *)
Definition masked_hmm : P7_HMM :=
  mkHMM 3 4
    [ zero_row; [half; f0; half; f1; f0; f1; f0];
      [f0; half; half; half; half; half; half]; [f1; f0; f0; f1; f0; f1; f0] ]
    [ [f1; f0; f0; f0]; [f1; f0; f0; f0]; [f0; f1; f0; f0]; [f0; f0; f1; f0] ]
    [ [half; half; f0; f0]; [half; half; f0; f0]; [half; half; f0; f0]; [half; half; f0; f0] ]
    1 f1 (-1) 0 0 (Some [false; true; false; true]) None None None None (replicate 6 f0).

(** An alignment under a given name, and without one. *)
Definition with_name (m : ESL_MSA) (name : string) : ESL_MSA :=
  mkMSA (msa_nseq m) (msa_alen m) (msa_abc_K m) (Some name) (msa_rf m)
        (msa_ss_cons m) (msa_sa_cons m) (msa_cutset m) (msa_cutoff m).

Definition without_name (m : ESL_MSA) : ESL_MSA :=
  mkMSA (msa_nseq m) (msa_alen m) (msa_abc_K m) None (msa_rf m)
        (msa_ss_cons m) (msa_sa_cons m) (msa_cutset m) (msa_cutoff m).

(** A driver whose routines all succeed; the tail of a file name is taken
    to be the name itself. *)
Definition quiet_driver : Driver :=
  mkDriver (fun m s => (eslOK, with_name m s)) (fun f => (eslOK, f))
           (fun _ => (eslOK, count_hmm 1)) (fun _ => eslOK).

(** The worker and the configuration of the examples. *)
Definition quiet_info : WORKER_INFO :=
  mkInfo (builder_with p7_EFFN_NONE eslAMINO) no_bg false.

Definition serial_cfg (profillic : bool) : cfg_s :=
  mkCfg 0 0 false None (Some "profile.txt"%string) profillic (Some eslAMINO) false.

(** An alignment of one column with a reference line. *)
Definition annotated_msa : ESL_MSA :=
  mkMSA 10 1 4 (Some "profile"%string) (Some "x"%string) None None
        (replicate 6 false) (replicate 6 f0).

(** ** Sums of rows

    The claim about the rows of a parameterised model is about sums of
    binary32 numbers.  A finite float stands for the rational
    [m * 2^e]; sums of rows are taken in the rationals. *)

(** The rational a float stands for; 0 for what is not a number. *)
Definition F2Q (x : spec_float) : Q :=
  match x with
  | S754_finite s m e => (inject_Z (cond_Zopp s (Z.pos m)) * 2 ^ e)%Q
  | _ => 0%Q
  end.

(** Zero or a positive finite number. *)
Definition nonneg (x : spec_float) : bool :=
  match x with
  | S754_zero _ => true
  | S754_finite false _ _ => true
  | _ => false
  end.

Definition p2 (e : Z) : Q := (2 ^ e)%Q.





(** The unit roundoff of a format. *)
Definition uro (prec : Z) : Q := p2 (- prec).


(** binary32: the unit roundoff [2^-24] and half the least subnormal. *)
Definition u32 : Q := uro prec32.


(** The exact sum of a row. *)
Definition row_sum (v : list float32) : Q := foldr Qplus 0%Q (map F2Q v).

Fixpoint pw (q : Q) (n : nat) : Q :=
  match n with
  | O => 1%Q
  | S n => (q * pw q n)%Q
  end.

(** A count the claim is about: a binary32 number that is zero or
    positive, finite, and at most [2^100]. *)
Definition count_ok (x : float32) : bool :=
  valid32 x && nonneg x && Qle_bool (F2Q x) (p2 100).

(** Every count of the model is one. *)
Definition counts_finite (h : P7_HMM) : bool :=
  forallb (forallb count_ok) (hmm_t h) &&
  forallb (forallb count_ok) (hmm_mat h) &&
  forallb (forallb count_ok) (hmm_ins h).

(** The tolerance of the claim, and the one a row of [n] entries meets. *)
Definition claimed_tol : Q := 1 # 1000000.

(** The entries of the row are numbers, zero or positive, and their sum
    is 1 within [tol]. *)
Definition sums_to_one (tol : Q) (v : list float32) : Prop :=
  Forall (fun x => nonneg x = true) v /\ (Qabs (row_sum v - 1) <= tol)%Q.



(** A profile over twenty residues whose match emissions are the
    distribution [(1 - 19 * 2^-24, 2^-24, ..., 2^-24)], for an alignment
    of 1025 sequences and for one of none. *)
Definition skewed_emission : list float64 :=
  dbl (16777216 - 19) 16777216 :: replicate 19 (dbl 1 16777216).

Definition amino_position : ProfilePosition :=
  mkPos skewed_emission (replicate 20 (dbl 1 20))
        (dbl 1 2) (dbl 1 4) (dbl 1 4) (dbl 1 2) (dbl 1 2) (dbl 1 2) (dbl 1 2)
        (dbl 1 2) (dbl 1 2) (dbl 1 2) (dbl 1 2).

Definition amino_profile : Profile := [amino_position; amino_position].

Definition amino_bg : P7_BG := mkBG (replicate 20 (flt 1 20)).

Definition amino_builder : P7_BUILDER := builder_with p7_EFFN_NONE eslAMINO.

(** The count model of [amino_profile] that reaches the parameterisation:
    converted, its inserts capped, reweighted with the strategy None. *)
Definition counts_of (nseq : Z) : step_result :=
  match profillic_p7_Profillicmodelmaker (quiet_library 20) amino_builder
          (msa_of nseq 2 20) amino_profile with
  | (eslOK, Some h, msa) =>
      effective_seqnumber (quiet_library 20) amino_builder msa
        (cap_inserts amino_builder h) amino_bg
  | (st, _, _) => inl st
  end.

Definition amino_counts : P7_HMM :=
  Eval vm_compute in
    match counts_of 1025 with
    | inr h => h
    | inl _ => p7_hmm_Create 0 20
    end.

(** * Proofs *)

(** ** IEEE facts *)

(** [x < a] and [a <= b] give [x < b], for all floats (a comparison with a
    NaN is false). *)
Lemma SFltb_leb_trans (x a b : spec_float) :
  SFltb x a = true -> SFleb a b = true -> SFltb x b = true.
Proof.
  unfold SFltb, SFleb, SFcompare.
  destruct x as [sx|sx| |sx mx ex], a as [sa|sa| |sa ma ea], b as [sb|sb| |sb mb eb];
    try discriminate; try reflexivity;
    repeat match goal with s : bool |- _ => destruct s end;
    try discriminate; try reflexivity.
  all: fold (Pos.compare mx ma); fold (Pos.compare ma mb); fold (Pos.compare mx mb).
  all: destruct (Z.compare_spec ex ea), (Z.compare_spec ea eb), (Z.compare_spec ex eb);
    try discriminate; try reflexivity; try lia.
  all: destruct (Pos.compare_spec mx ma), (Pos.compare_spec ma mb), (Pos.compare_spec mx mb);
    simpl; try discriminate; try reflexivity; try lia.
Qed.

Lemma dltb_dleb_trans (x a b : float64) :
  dltb x a = true -> dleb a b = true -> dltb x b = true.
Proof. apply SFltb_leb_trans. Qed.

Lemma digits2_pos_log2 p : Zpos (digits2_pos p) = Z.log2 (Zpos p) + 1.
Proof.
  assert (H : forall q, Zpos (digits2_pos q) = Zpos (Pos.size q)).
  { induction q; simpl; rewrite ?Pos2Z.inj_succ; congruence. }
  destruct p; simpl; rewrite ?Pos2Z.inj_succ, ?H; lia.
Qed.

Lemma digits2_pos_bound p k : 0 <= k -> Zpos p < 2 ^ k -> Zpos (digits2_pos p) <= k.
Proof.
  intros Hk H. rewrite digits2_pos_log2.
  apply Z.log2_lt_pow2 in H; lia.
Qed.

Lemma digits2_pos_shift p k :
  Zpos (digits2_pos (Pos.iter xO p k)) = Zpos (digits2_pos p) + Zpos k.
Proof.
  induction k as [|k IH] using Pos.peano_ind.
  - simpl. lia.
  - rewrite Pos.iter_succ. simpl. rewrite Pos2Z.inj_succ, IH. lia.
Qed.

Lemma digits2_pos_shl p k : 0 <= k ->
  Zpos (digits2_pos (shl p k)) = Zpos (digits2_pos p) + k.
Proof.
  destruct k; simpl; intros; [lia|apply digits2_pos_shift|lia].
Qed.

Lemma shl_shl p a b : 0 <= a -> 0 <= b -> shl (shl p a) b = shl p (a + b).
Proof.
  destruct a as [|a|a], b as [|b|b]; simpl; intros; try lia; try reflexivity.
  rewrite Pos.add_comm. symmetry. apply Pos.iter_add.
Qed.

(** A number that fits the format is only normalised by [binary_round]. *)
Lemma binary_round_fits prec emax s p e :
  let d := Zpos (digits2_pos p) in
  0 < prec -> d <= prec ->
  3 - emax - prec <= d + e - prec <= emax - prec ->
  binary_round prec emax s p e = S754_finite s (shl p (prec - d)) (d + e - prec).
Proof.
  intros d Hprec Hd [Hlo Hhi]. unfold binary_round.
  assert (Hf : fexp prec emax (d + e) = d + e - prec).
  { unfold fexp, emin. lia. }
  fold d. rewrite Hf.
  assert (Hal : shl_align p e (d + e - prec) = (shl p (prec - d), d + e - prec)).
  { unfold shl_align, shl. replace (d + e - prec - e) with (d - prec) by lia.
    destruct (d - prec) as [|q|q] eqn:E; try lia.
    - replace (prec - d) with 0 by lia. f_equal. lia.
    - replace (prec - d) with (Zpos q) by lia. reflexivity. }
  rewrite Hal. unfold binary_round_aux.
  assert (Hdig : Zdigits2 (Zpos (shl p (prec - d))) = prec).
  { simpl. rewrite digits2_pos_shl by lia. fold d. lia. }
  assert (Hsh : forall l, shr_fexp prec emax (Zpos (shl p (prec - d))) (d + e - prec) l =
                          (shr_record_of_loc (Zpos (shl p (prec - d))) l, d + e - prec)).
  { intros l. unfold shr_fexp. rewrite Hdig.
    replace (fexp prec emax (prec + (d + e - prec)) - (d + e - prec)) with 0
      by (unfold fexp, emin; lia).
    reflexivity. }
  rewrite Hsh. simpl. rewrite Hsh. simpl.
  destruct (d + e - prec <=? emax - prec) eqn:E; [reflexivity|].
  apply Z.leb_gt in E. lia.
Qed.

Lemma iter_shr_1_zeros k : forall p,
  SpecFloat.iter_pos shr_1 k (Build_shr_record (Zpos (Pos.iter xO p k)) false false) =
  Build_shr_record (Zpos p) false false.
Proof.
  induction k as [k IH|k IH|]; intros p; simpl.
  - rewrite IH, IH. reflexivity.
  - rewrite IH, IH. reflexivity.
  - reflexivity.
Qed.

(** Multiplying a float by [1.0f] returns the float. *)
Lemma fmul_one (x : float32) : valid32 x = true -> fmul x f1 = x.
Proof.
  replace f1 with (S754_finite false 8388608 (-23)) by (vm_compute; reflexivity).
  destruct x as [s|s| |s m e]; intros Hv;
    try (destruct s; reflexivity); try reflexivity.
  unfold fmul. cbn [SFmul].
  unfold valid32, valid_binary, bounded, canonical_mantissa in Hv.
  apply andb_prop in Hv as [Hc Hb]. apply Z.eqb_eq in Hc. apply Z.leb_le in Hb.
  replace (Pos.mul m 8388608) with (Pos.iter xO m 23)
    by (rewrite Pos.mul_comm; reflexivity).
  unfold binary_round_aux.
  assert (Hsh : shr_fexp prec32 emax32 (Zpos (Pos.iter xO m 23)) (e + -23) loc_Exact =
                (Build_shr_record (Zpos m) false false, e)).
  { unfold shr_fexp. cbn [Zdigits2]. rewrite digits2_pos_shift.
    replace (Zpos (digits2_pos m) + 23 + (e + -23)) with (Zpos (digits2_pos m) + e) by lia.
    rewrite Hc. replace (e - (e + -23)) with 23 by lia.
    unfold shr. cbn [shr_record_of_loc]. rewrite iter_shr_1_zeros. f_equal. lia. }
  rewrite Hsh. cbn [shr_m loc_of_shr_record round_nearest_even].
  unfold shr_fexp. cbn [Zdigits2]. rewrite Hc, Z.sub_diag. cbn [shr shr_record_of_loc shr_m].
  rewrite xorb_false_r.
  destruct (e <=? emax32 - prec32) eqn:E; [reflexivity|]. apply Z.leb_gt in E. lia.
Qed.

(** A finite double divided by itself is [1.0]. *)
Lemma ddiv_self s m e : ddiv (S754_finite s m e) (S754_finite s m e) = d1.
Proof.
  unfold ddiv. cbn [SFdiv]. unfold SFdiv_core_binary.
  rewrite !Z.sub_diag.
  change (Z.min (fexp prec64 emax64 0) 0) with (-53).
  change (0 - -53) with 53.
  rewrite Z.shiftl_mul_pow2 by lia.
  assert (Hq : Z.div_eucl (Zpos m * 2 ^ 53) (Zpos m) = (2 ^ 53, 0)).
  { transitivity ((Zpos m * 2 ^ 53) / Zpos m, (Zpos m * 2 ^ 53) mod Zpos m).
    - unfold Z.div, Z.modulo. destruct (Z.div_eucl (Zpos m * 2 ^ 53) (Zpos m)); reflexivity.
    - rewrite (Z.mul_comm (Zpos m)), Z.div_mul, Z.mod_mul by lia. reflexivity. }
  rewrite Hq. rewrite xorb_nilpotent.
  assert (Hl : new_location (Zpos m) 0 = loc_Exact).
  { unfold new_location, new_location_even, new_location_odd.
    destruct (Z.even (Zpos m)); reflexivity. }
  rewrite Hl. vm_compute. reflexivity.
Qed.

(** An [int] below [2^24] is a float, and its promotion is the double of
    the same [int]. *)
Lemma f_of_Z_small p : Zpos p < 2 ^ 24 ->
  f_of_Z (Zpos p) =
    S754_finite false (shl p (24 - Zpos (digits2_pos p))) (Zpos (digits2_pos p) - 24).
Proof.
  intros H. pose proof (digits2_pos_bound p 24 ltac:(lia) H) as Hd.
  unfold f_of_Z, binary_normalize.
  rewrite binary_round_fits; unfold prec32, emax32; try lia.
  all: f_equal; lia.
Qed.

Lemma d_of_Z_small p : Zpos p < 2 ^ 53 ->
  d_of_Z (Zpos p) =
    S754_finite false (shl p (53 - Zpos (digits2_pos p))) (Zpos (digits2_pos p) - 53).
Proof.
  intros H. pose proof (digits2_pos_bound p 53 ltac:(lia) H) as Hd.
  unfold d_of_Z, binary_normalize.
  rewrite binary_round_fits; unfold prec64, emax64; try lia.
  all: f_equal; lia.
Qed.

Lemma d_of_f_of_Z_small p : Zpos p < 2 ^ 24 -> d_of_f (f_of_Z (Zpos p)) = d_of_Z (Zpos p).
Proof.
  intros H. pose proof (digits2_pos_bound p 24 ltac:(lia) H) as Hd.
  rewrite f_of_Z_small by exact H. rewrite d_of_Z_small by lia.
  unfold d_of_f.
  rewrite binary_round_fits; unfold prec64, emax64;
    rewrite ?digits2_pos_shl by lia; try lia.
  all: rewrite ?shl_shl by lia; f_equal; try f_equal; lia.
Qed.

Lemma none_scale_one n : 1 <= n <= 2 ^ 24 -> none_scale n = f1.
Proof.
  intros Hn. unfold none_scale.
  destruct (decide (n = 2 ^ 24)) as [->|Hne]; [vm_compute; reflexivity|].
  destruct n as [|p|p]; try lia.
  rewrite d_of_f_of_Z_small by lia. rewrite d_of_Z_small by lia.
  rewrite ddiv_self. vm_compute. reflexivity.
Qed.

(** ** Arrays and loops *)

Lemma shape_replicate {A} n w (x : A) : shape n w (replicate n (replicate w x)).
Proof.
  split; [apply length_replicate|].
  apply Forall_replicate, length_replicate.
Qed.

Lemma shape_wr2 {A} n w (a : list (list A)) k j v : shape n w a -> shape n w (wr2 a k j v).
Proof.
  intros [Hl Hr]. unfold wr2. destruct (a !! k) as [r|] eqn:E; [|split; assumption].
  split; [rewrite length_insert; assumption|].
  apply Forall_insert; [assumption|]. rewrite length_insert.
  eapply Forall_lookup_1 in Hr; eauto.
Qed.

Lemma rd2_wr2_eq {A} (d : A) n w a k j v :
  shape n w a -> (k < n)%nat -> (j < w)%nat -> rd2 d (wr2 a k j v) k j = v.
Proof.
  intros [Hl Hr] Hk Hj. unfold rd2, wr2.
  destruct (a !! k) as [r|] eqn:E.
  - rewrite list_lookup_insert_eq by lia. simpl.
    rewrite list_lookup_insert_eq; [done|].
    eapply Forall_lookup_1 in Hr; eauto. simpl in Hr. lia.
  - apply lookup_ge_None in E. lia.
Qed.

Lemma rd2_wr2_ne {A} (d : A) a k j v k' j' :
  k <> k' \/ j <> j' -> rd2 d (wr2 a k j v) k' j' = rd2 d a k' j'.
Proof.
  intros H. unfold rd2, wr2. destruct (a !! k) as [r|] eqn:E; [|done].
  destruct (decide (k = k')) as [->|Hne].
  - rewrite list_lookup_insert_eq by (eapply lookup_lt_Some; eauto).
    rewrite E. simpl. rewrite list_lookup_insert_ne; [done|]. intros ->. tauto.
  - by rewrite list_lookup_insert_ne.
Qed.

Lemma dp_wf_alloc ml : dp_wf ml (dp_alloc ml).
Proof. split; [|split]; apply (shape_replicate (Datatypes.S ml) 2 d0). Qed.

Lemma dp_wf_setI ml s k c v : dp_wf ml s -> dp_wf ml (setI s k c v).
Proof. intros (HI & HM & HD). split; [|split]; simpl; try apply shape_wr2; assumption. Qed.
Lemma dp_wf_setM ml s k c v : dp_wf ml s -> dp_wf ml (setM s k c v).
Proof. intros (HI & HM & HD). split; [|split]; simpl; try apply shape_wr2; assumption. Qed.
Lemma dp_wf_setD ml s k c v : dp_wf ml s -> dp_wf ml (setD s k c v).
Proof. intros (HI & HM & HD). split; [|split]; simpl; try apply shape_wr2; assumption. Qed.

Lemma getI_setI_eq ml s k c v :
  dp_wf ml s -> (k <= ml)%nat -> (c < 2)%nat -> getI (setI s k c v) k c = v.
Proof. intros (HI & _) ? ?. eapply rd2_wr2_eq; eauto; lia. Qed.
Lemma getM_setM_eq ml s k c v :
  dp_wf ml s -> (k <= ml)%nat -> (c < 2)%nat -> getM (setM s k c v) k c = v.
Proof. intros (_ & HM & _) ? ?. eapply rd2_wr2_eq; eauto; lia. Qed.
Lemma getD_setD_eq ml s k c v :
  dp_wf ml s -> (k <= ml)%nat -> (c < 2)%nat -> getD (setD s k c v) k c = v.
Proof. intros (_ & _ & HD) ? ?. eapply rd2_wr2_eq; eauto; lia. Qed.

Lemma getI_setI_ne s k c v k' c' :
  k <> k' \/ c <> c' -> getI (setI s k c v) k' c' = getI s k' c'.
Proof. apply rd2_wr2_ne. Qed.
Lemma getM_setM_ne s k c v k' c' :
  k <> k' \/ c <> c' -> getM (setM s k c v) k' c' = getM s k' c'.
Proof. apply rd2_wr2_ne. Qed.
Lemma getD_setD_ne s k c v k' c' :
  k <> k' \/ c <> c' -> getD (setD s k c v) k' c' = getD s k' c'.
Proof. apply rd2_wr2_ne. Qed.

Lemma getI_setM s k c v k' c' : getI (setM s k c v) k' c' = getI s k' c'.
Proof. reflexivity. Qed.
Lemma getI_setD s k c v k' c' : getI (setD s k c v) k' c' = getI s k' c'.
Proof. reflexivity. Qed.
Lemma getM_setI s k c v k' c' : getM (setI s k c v) k' c' = getM s k' c'.
Proof. reflexivity. Qed.
Lemma getM_setD s k c v k' c' : getM (setD s k c v) k' c' = getM s k' c'.
Proof. reflexivity. Qed.
Lemma getD_setI s k c v k' c' : getD (setI s k c v) k' c' = getD s k' c'.
Proof. reflexivity. Qed.
Lemma getD_setM s k c v k' c' : getD (setM s k c v) k' c' = getD s k' c'.
Proof. reflexivity. Qed.

Create HintDb dp_wf_db.
#[local] Hint Resolve dp_wf_alloc dp_wf_setI dp_wf_setM dp_wf_setD : dp_wf_db.

Ltac dp_side := first [ lia | solve [eauto 12 with dp_wf_db] ].

Ltac dp_step :=
  first
    [ rewrite getI_setM | rewrite getI_setD | rewrite getM_setI
    | rewrite getM_setD | rewrite getD_setI | rewrite getD_setM
    | rewrite getI_setI_ne by dp_side
    | rewrite getM_setM_ne by dp_side
    | rewrite getD_setD_ne by dp_side
    | erewrite getI_setI_eq by dp_side
    | erewrite getM_setM_eq by dp_side
    | erewrite getD_setD_eq by dp_side ].

Ltac dp_simpl := repeat dp_step.

Lemma for_k_nil {S : Type} lo hi (body : nat -> S -> S) s :
  (hi < lo)%nat -> for_k lo hi body s = s.
Proof. intros H. unfold for_k. replace (Datatypes.S hi - lo)%nat with 0%nat by lia. reflexivity. Qed.

Lemma for_k_last {S : Type} lo hi (body : nat -> S -> S) s :
  (lo <= Datatypes.S hi)%nat ->
  for_k lo (Datatypes.S hi) body s = body (Datatypes.S hi) (for_k lo hi body s).
Proof.
  intros H. unfold for_k.
  replace (Datatypes.S (Datatypes.S hi) - lo)%nat with (Datatypes.S (Datatypes.S hi - lo)) by lia.
  rewrite seq_S, fold_left_app. simpl. f_equal. lia.
Qed.

(** An invariant [P k s], "before iteration [k]", carried through a loop. *)
Lemma for_k_inv {S : Type} (P : nat -> S -> Prop) lo hi (body : nat -> S -> S) s :
  (lo <= Datatypes.S hi)%nat ->
  P lo s ->
  (forall k s, (lo <= k <= hi)%nat -> P k s -> P (Datatypes.S k) (body k s)) ->
  P (Datatypes.S hi) (for_k lo hi body s).
Proof.
  intros Hle H0 Hstep. induction hi as [|hi IH].
  - destruct lo as [|[|lo]]; [|rewrite for_k_nil by lia; exact H0|lia].
    unfold for_k. simpl. apply Hstep; [lia|exact H0].
  - destruct (decide (lo = Datatypes.S (Datatypes.S hi))) as [->|Hne].
    + rewrite for_k_nil by lia. exact H0.
    + rewrite for_k_last by lia. apply Hstep; [lia|].
      apply IH; [lia|]. intros k s' Hk. apply Hstep. lia.
Qed.

Lemma for_lt_pres {S : Type} (P : S -> Prop) lo hi (body : nat -> S -> S) s :
  P s -> (forall i s, P s -> P (body i s)) -> P (for_lt lo hi body s).
Proof.
  intros H0 Hstep. unfold for_lt. generalize (seq lo (hi - lo)). intros l.
  revert s H0. induction l as [|i l IH]; intros s H0; simpl; [exact H0|].
  apply IH, Hstep, H0.
Qed.

Lemma for_k_pres {S : Type} (P : S -> Prop) lo hi (body : nat -> S -> S) s :
  P s -> (forall i s, P s -> P (body i s)) -> P (for_k lo hi body s).
Proof. apply (for_lt_pres P lo (Datatypes.S hi)). Qed.


(** ** The maximum-length estimator *)

Lemma first_loop h ml s0 :
  dp_wf ml s0 -> (2 <= ml)%nat ->
  let s := for_k 3 ml (first_column_row h) s0 in
  dp_wf ml s /\ forall k c, (c <> 0 \/ k < 3)%nat -> same_at s s0 k c.
Proof.
  intros Hwf Hml.
  apply (for_k_inv (fun (k : nat) s =>
    dp_wf ml s /\ forall k' c, (c <> 0 \/ k' < 3)%nat -> same_at s s0 k' c)); [lia| |].
  - split; [assumption|]. intros; repeat split.
  - intros k s Hk [Hs Hfr]. split; [unfold first_column_row; eauto with dp_wf_db|].
    intros k' c Hc. destruct (Hfr k' c Hc) as (E1 & E2 & E3).
    unfold first_column_row, same_at. dp_simpl. auto.
Qed.

Lemma second_loop h ml s0 :
  dp_wf ml s0 -> (2 <= ml)%nat ->
  let s := for_k 3 ml (second_column_row h) s0 in
  dp_wf ml s /\
  (forall k c, (c <> 1 \/ k < 3)%nat -> same_at s s0 k c) /\
  (forall k, (3 <= k <= ml)%nat -> col2_eqns h s k).
Proof.
  intros Hwf Hml.
  enough (dp_wf ml (for_k 3 ml (second_column_row h) s0) /\
          (forall k c, (c <> 1 \/ k < 3)%nat -> same_at (for_k 3 ml (second_column_row h) s0) s0 k c) /\
          (forall k, (3 <= k < Datatypes.S ml)%nat -> col2_eqns h (for_k 3 ml (second_column_row h) s0) k)) as (A & B & C).
  { split; [exact A|]. split; [exact B|]. intros k Hk. apply C. lia. }
  apply (for_k_inv (fun (k : nat) s =>
    dp_wf ml s /\
    (forall k' c, (c <> 1 \/ k' < 3)%nat -> same_at s s0 k' c) /\
    (forall k', (3 <= k' < k)%nat -> col2_eqns h s k'))); [lia| |].
  - split; [assumption|]. split; [intros; repeat split|]. intros; lia.
  - intros k s Hk (Hs & Hfr & Heq). split; [unfold second_column_row; eauto with dp_wf_db|]. split.
    + intros k' c Hc. destruct (Hfr k' c Hc) as (E1 & E2 & E3).
      unfold second_column_row, same_at. dp_simpl. auto.
    + intros k' Hk'. destruct (decide (k' = k)) as [->|Hne].
      * unfold second_column_row, col2_eqns. dp_simpl. auto.
      * destruct (Heq k' ltac:(lia)) as (E1 & E2 & E3).
        unfold second_column_row, col2_eqns. dp_simpl. auto.
Qed.

(** The loop stops, if at all, at one of the columns it visits. *)
Lemma columns_range h ml thr n col cp s p c :
  columns h ml thr n col cp s p = Some c -> col <= c < col + Z.of_nat n.
Proof.
  revert col cp s p. induction n as [|n IH]; intros col cp s p; simpl; [discriminate|].
  destruct (column h ml cp s p) as [[s' p'] surv].
  destruct (dltb surv thr).
  - intros [= <-]. lia.
  - intros H. apply IH in H. lia.
Qed.

(** A larger threshold stops the loop no later. *)
Lemma columns_mono h ml e1 e2 n col cp s p c1 :
  dleb e1 e2 = true ->
  columns h ml e1 n col cp s p = Some c1 ->
  exists c2, columns h ml e2 n col cp s p = Some c2 /\ c2 <= c1.
Proof.
  intros Hle. revert col cp s p. induction n as [|n IH]; intros col cp s p; simpl; [discriminate|].
  destruct (column h ml cp s p) as [[s' p'] surv].
  destruct (dltb surv e1) eqn:E1.
  - intros [= <-]. rewrite (dltb_dleb_trans _ _ _ E1 Hle). exists col. split; [reflexivity|lia].
  - intros H. destruct (dltb surv e2).
    + exists col. split; [reflexivity|]. apply columns_range in H. lia.
    + apply IH. exact H.
Qed.

Lemma stopping_column_range h thr c :
  stopping_column h thr = Some c -> 3 <= c <= length_bound.
Proof.
  unfold stopping_column. intros H. apply columns_range in H.
  rewrite Z2Nat.id in H by (unfold length_bound; lia). unfold length_bound in *. lia.
Qed.

Lemma MaxLength_not_converged h thr :
  hmm_M h <> 1 -> stopping_column h thr = None ->
  profillic_p7_Builder_MaxLength h thr =
    (if hmm_max_length h >=? length_bound then eslERANGE else eslOK, h).
Proof.
  intros HM Hn. unfold profillic_p7_Builder_MaxLength.
  apply Z.eqb_neq in HM. rewrite HM, Hn. destruct (hmm_max_length h >=? length_bound); reflexivity.
Qed.

Lemma MaxLength_converged h thr c :
  hmm_M h <> 1 -> stopping_column h thr = Some c ->
  profillic_p7_Builder_MaxLength h thr =
    (if c >=? length_bound then eslERANGE else eslOK, set_max_length h c).
Proof.
  intros HM Hn. unfold profillic_p7_Builder_MaxLength.
  apply Z.eqb_neq in HM. rewrite HM, Hn. simpl. destruct (c >=? length_bound); reflexivity.
Qed.

(** The stuck model: after column 3 the table no longer changes. *)
Lemma stuck_column cp :
  (cp < 2)%nat -> column stuck_hmm 2 cp stuck_table d0 = (stuck_table, d0, d1).
Proof. intros H. destruct cp as [|[|cp]]; [vm_compute; reflexivity..|lia]. Qed.

Lemma stuck_columns thr n col cp :
  (cp < 2)%nat -> dltb d1 thr = false ->
  columns stuck_hmm 2 thr n col cp stuck_table d0 = None.
Proof.
  intros Hcp Hthr. revert col cp Hcp. induction n as [|n IH]; intros col cp Hcp; cbn [columns]; [reflexivity|].
  rewrite stuck_column by exact Hcp. rewrite Hthr. apply IH. lia.
Qed.

Lemma stuck_never_stops : stopping_column stuck_hmm window_beta = None.
Proof.
  unfold stopping_column.
  replace (Z.to_nat (length_bound - 2)) with (S (Z.to_nat (length_bound - 3)))
    by (unfold length_bound; lia).
  change (Z.to_nat (hmm_M stuck_hmm)) with 2%nat.
  cbn [columns].
  replace (column stuck_hmm 2 0 (two_columns stuck_hmm 2) (p_sum_init 2 (two_columns stuck_hmm 2)))
    with (stuck_table, d0, d1) by (vm_compute; reflexivity).
  replace (dltb d1 window_beta) with false by (vm_compute; reflexivity).
  apply stuck_columns; [simpl; lia|vm_compute; reflexivity].
Qed.


(** ** The converter *)

Lemma same_frame_refl h : same_frame h h.
Proof. repeat split. Qed.

Lemma same_frame_trans h1 h2 h3 : same_frame h1 h2 -> same_frame h2 h3 -> same_frame h1 h3.
Proof. unfold same_frame. intros. intuition congruence. Qed.

Lemma length_wr2 {A} (a : list (list A)) k j v : length (wr2 a k j v) = length a.
Proof. unfold wr2. destruct (a !! k); [apply length_insert|reflexivity]. Qed.

Lemma same_frame_set_tr h k j v : same_frame h (set_tr h k j v).
Proof. repeat split; simpl. apply length_wr2. Qed.
Lemma same_frame_set_mat_at h k j v : same_frame h (set_mat_at h k j v).
Proof. repeat split; simpl. apply length_wr2. Qed.
Lemma same_frame_set_ins_at h k j v : same_frame h (set_ins_at h k j v).
Proof. repeat split; simpl. apply length_wr2. Qed.

Ltac frame_step :=
  first [ apply same_frame_refl
        | eapply same_frame_trans; [|apply same_frame_set_tr]
        | eapply same_frame_trans; [|apply same_frame_set_mat_at]
        | eapply same_frame_trans; [|apply same_frame_set_ins_at] ].

Lemma same_frame_fill_position_0 lib profile h :
  same_frame h (fill_position_0 lib profile h).
Proof.
  unfold fill_position_0. cbv zeta.
  apply for_lt_pres; [|intros i s Hs; repeat frame_step; exact Hs].
  frame_step.
  apply for_lt_pres; [|intros i s Hs; repeat frame_step; exact Hs].
  repeat frame_step.
Qed.

Lemma same_frame_fill_position lib profile pos_i h :
  same_frame h (fill_position lib profile pos_i h).
Proof.
  unfold fill_position. cbv zeta.
  destruct (pos_i =? length profile - 1)%nat; repeat frame_step;
    (apply for_lt_pres; [|intros i s Hs; repeat frame_step; exact Hs]); frame_step.
Qed.

Lemma same_frame_fill_counts lib profile h : same_frame h (fill_counts lib profile h).
Proof.
  unfold fill_counts. cbv zeta.
  apply for_lt_pres; [apply same_frame_fill_position_0|].
  intros i s Hs. eapply same_frame_trans; [exact Hs|apply same_frame_fill_position].
Qed.

(** The annotation succeeds and keeps the counts. *)
Lemma profillic_annotate_model_ok h m :
  exists h', profillic_annotate_model h m = (eslOK, h') /\
    hmm_M h' = hmm_M h /\ hmm_nseq h' = hmm_nseq h /\
    hmm_t h' = hmm_t h /\ hmm_mat h' = hmm_mat h /\ hmm_ins h' = hmm_ins h.
Proof.
  unfold profillic_annotate_model. eexists. split; [reflexivity|].
  destruct (msa_rf m), (msa_ss_cons m), (msa_sa_cons m); repeat split.
Qed.

Lemma static_cast_int_id n : 0 <= n <= INT_MAX -> static_cast_int n = n.
Proof.
  unfold static_cast_int, INT_MAX. intros H.
  rewrite Z.mod_small; lia.
Qed.

(** What the converter returns on a profile of representable length. *)
Lemma converter_result lib bld msa profile :
  let L := Z.of_nat (length profile) in
  1 <= L <= INT_MAX ->
  exists h msa',
    profillic_p7_Profillicmodelmaker lib bld msa profile = (eslOK, Some h, msa') /\
    let filled := fill_counts lib profile (p7_hmm_Create L (msa_abc_K msa)) in
    let nseq := f_of_d (d_of_Z (msa_nseq msa)) in
    hmm_M h = L /\ hmm_nseq h = msa_nseq msa /\
    hmm_t h = map (map (fun x => fmul x nseq)) (hmm_t filled) /\
    hmm_mat h = map (map (fun x => fmul x nseq)) (hmm_mat filled) /\
    hmm_ins h = map (map (fun x => fmul x nseq)) (hmm_ins filled).
Proof.
  intros L HL. unfold profillic_p7_Profillicmodelmaker.
  fold L. rewrite static_cast_int_id by lia.
  destruct (L =? 0) eqn:E; [apply Z.eqb_eq in E; lia|]. cbv zeta.
  set (filled := fill_counts lib profile (p7_hmm_Create L (msa_abc_K msa))).
  set (h1 := set_eff_nseq _ _).
  destruct (profillic_annotate_model_ok h1 msa) as (h2 & -> & HM & Hn & Ht & Hm & Hi).
  eexists. eexists. split; [reflexivity|].
  destruct (same_frame_fill_counts lib profile (p7_hmm_Create L (msa_abc_K msa)))
    as (FM & _).
  simpl. rewrite HM, Hn, Ht, Hm, Hi. subst h1. simpl. fold filled.
  repeat split. exact FM.
Qed.


(** ** The effective sequence number *)

Lemma esl_vec_FScale_one row :
  Forall (fun x => valid32 x = true) row -> esl_vec_FScale row f1 = row.
Proof.
  unfold esl_vec_FScale. induction 1 as [|x row Hx _ IH]; simpl; [reflexivity|].
  rewrite fmul_one, IH by exact Hx. reflexivity.
Qed.

Lemma scale_rows_one (a : list (list float32)) :
  Forall (Forall (fun x => valid32 x = true)) a ->
  map (fun r => esl_vec_FScale r f1) a = a.
Proof.
  induction 1 as [|r a Hr _ IH]; simpl; [reflexivity|].
  rewrite esl_vec_FScale_one, IH by exact Hr. reflexivity.
Qed.

Lemma p7_hmm_Scale_one h scale :
  f_of_d scale = f1 -> counts_valid h -> p7_hmm_Scale h scale = h.
Proof.
  intros Hs (Ht & Hm & Hi). unfold p7_hmm_Scale. rewrite Hs. cbv zeta.
  destruct h; simpl in *. unfold set_ins, set_mat, set_t; simpl.
  rewrite !scale_rows_one by assumption. reflexivity.
Qed.


(** ** The reader of the thread pool *)

Lemma insert_after_perm n l : insert_after n l ≡ₚ n :: l.
Proof.
  induction l as [|x l IH]; simpl; [reflexivity|].
  destruct (n >? x); [|reflexivity]. rewrite IH. apply Permutation_swap.
Qed.

Lemma pending_insert_perm n top : pending_insert n top ≡ₚ n :: top.
Proof.
  destruct top as [|t rest]; simpl; [reflexivity|].
  destruct (n <? t); [reflexivity|]. rewrite insert_after_perm. apply Permutation_swap.
Qed.

Lemma insert_after_sorted n l :
  StronglySorted Z.lt l -> n ∉ l -> StronglySorted Z.lt (insert_after n l).
Proof.
  induction l as [|x l IH]; intros Hs Hn; simpl.
  - repeat constructor.
  - apply StronglySorted_inv in Hs as [Hs Hx].
    apply not_elem_of_cons in Hn as [Hne Hn].
    destruct (n >? x) eqn:E.
    + constructor; [auto|]. rewrite insert_after_perm. constructor; [lia|exact Hx].
    + constructor; [constructor; assumption|].
      constructor; [lia|]. eapply Forall_impl; [exact Hx|]. intros y Hy. simpl in Hy. lia.
Qed.

Lemma pending_insert_sorted n top :
  StronglySorted Z.lt top -> n ∉ top -> StronglySorted Z.lt (pending_insert n top).
Proof.
  destruct top as [|t rest]; intros Hs Hn; simpl; [repeat constructor|].
  pose proof Hs as Hs'. apply StronglySorted_inv in Hs as [Hs Ht].
  apply not_elem_of_cons in Hn as [Hne Hn].
  destruct (n <? t) eqn:E.
  - constructor; [exact Hs'|]. constructor; [lia|].
    eapply Forall_impl; [exact Ht|]. intros y Hy. simpl in Hy. lia.
  - constructor; [apply insert_after_sorted; assumption|].
    rewrite insert_after_perm. constructor; [lia|exact Ht].
Qed.

Lemma seqZ_snoc_next next : 1 <= next -> seqZ 1 (next - 1) ++ [next] = seqZ 1 next.
Proof.
  intros H. replace next with (Z.of_nat (S (Z.to_nat (next - 1)))) at 3 by lia.
  rewrite seqZ_S. rewrite Z2Nat.id by lia. f_equal. f_equal. lia.
Qed.

Lemma drain_spec top : forall next out,
  1 <= next -> out = seqZ 1 (next - 1) ->
  StronglySorted Z.lt top -> Forall (fun x => next <= x) top ->
  match drain top next out with
  | (top', next', out') =>
      1 <= next' /\ out' = seqZ 1 (next' - 1) /\ StronglySorted Z.lt top' /\
      Forall (fun x => next' < x) top' /\ out' ++ top' = out ++ top
  end.
Proof.
  induction top as [|t rest IH]; intros next out Hn Ho Hs Hb; simpl.
  - rewrite app_nil_r. auto.
  - apply StronglySorted_inv in Hs as [Hs Ht]. apply Forall_cons in Hb as [Hb1 Hb].
    destruct (t =? next) eqn:E.
    + apply Z.eqb_eq in E. subst t.
      specialize (IH (next + 1) (out ++ [next])).
      destruct (drain rest (next + 1) (out ++ [next])) as [[top' next'] out'].
      destruct IH as (A & B & C & D & F).
      * lia.
      * subst out. replace (next + 1 - 1) with next by lia. apply seqZ_snoc_next. lia.
      * exact Hs.
      * eapply Forall_impl; [exact Ht|]. intros y Hy. simpl in Hy. lia.
      * repeat split; auto. rewrite F, <- app_assoc. reflexivity.
    + apply Z.eqb_neq in E. repeat split; auto.
      * constructor; assumption.
      * constructor; [lia|]. eapply Forall_impl; [exact Ht|]. intros y Hy. simpl in Hy. lia.
Qed.

Lemma receive_unfinished n r : receive (mkItem n false) r = r.
Proof. reflexivity. Qed.

Lemma receive_finished n r :
  reader_inv r -> 1 <= n -> n ∉ rd_out r ++ rd_top r ->
  let r' := receive (mkItem n true) r in
  reader_inv r' /\ rd_nali r' = rd_nali r /\
  rd_out r' ++ rd_top r' ≡ₚ n :: rd_out r ++ rd_top r.
Proof.
  intros [Hn Ho Hs Hb Hp] H1 Hnot. unfold receive. simpl.
  apply not_elem_of_app in Hnot as [Hno Hnt].
  destruct (n =? rd_next r) eqn:E.
  - apply Z.eqb_eq in E. subst n.
    pose proof (drain_spec (rd_top r) (rd_next r + 1) (rd_out r ++ [rd_next r])) as D.
    destruct (drain (rd_top r) (rd_next r + 1) (rd_out r ++ [rd_next r])) as [[top' next'] out'].
    destruct D as (A & B & C & D & F).
    + lia.
    + rewrite Ho. replace (rd_next r + 1 - 1) with (rd_next r) by lia. apply seqZ_snoc_next. lia.
    + exact Hs.
    + eapply Forall_impl; [exact Hb|]. intros y Hy. simpl in Hy. lia.
    + simpl. split; [|split; [reflexivity|]].
      * constructor; simpl; auto.
        rewrite F, Hp. rewrite !length_app. simpl. lia.
      * rewrite F, <- app_assoc. simpl. symmetry. apply Permutation_middle.
  - apply Z.eqb_neq in E. simpl.
    assert (Hgt : rd_next r < n).
    { destruct (decide (n < rd_next r)) as [Hlt|]; [|lia].
      exfalso. apply Hno. rewrite Ho. apply elem_of_seqZ. lia. }
    split; [|split; [reflexivity|]].
    + constructor; simpl; auto.
      * apply pending_insert_sorted; assumption.
      * rewrite pending_insert_perm. constructor; assumption.
      * rewrite Hp, !length_app. rewrite (Permutation_length (pending_insert_perm n (rd_top r))).
        simpl. lia.
    + rewrite pending_insert_perm. symmetry. apply Permutation_middle.
Qed.

(** When every result has come back, nothing waits in [top]. *)
Lemma reader_inv_complete N r :
  reader_inv r -> rd_out r ++ rd_top r ≡ₚ seqZ 1 N ->
  rd_top r = [] /\ rd_out r = seqZ 1 N.
Proof.
  intros [Hn Ho Hs Hb Hp] Hperm.
  assert (Htop : rd_top r = []).
  { destruct (rd_top r) as [|t rest] eqn:Et; [reflexivity|exfalso].
    apply Forall_cons in Hb as [Hlt _].
    assert (Ht : t ∈ seqZ 1 N).
    { rewrite <- Hperm. apply elem_of_app. right. left. }
    apply elem_of_seqZ in Ht.
    assert (Hin : rd_next r ∈ rd_out r ++ t :: rest).
    { rewrite Hperm. apply elem_of_seqZ. lia. }
    apply elem_of_app in Hin as [Hin|Hin].
    - rewrite Ho in Hin. apply elem_of_seqZ in Hin. lia.
    - rewrite <- Et in Hin.
      assert (Hall : Forall (fun x => rd_next r < x) (rd_top r)).
      { rewrite Et. constructor; [lia|].
        apply StronglySorted_inv in Hs as [_ Hs]. eapply Forall_impl; [exact Hs|].
        intros y Hy. simpl in Hy. lia. }
      rewrite Forall_forall in Hall. specialize (Hall _ Hin). lia. }
  split; [exact Htop|]. rewrite Htop, app_nil_r in Hperm.
  apply Permutation_length in Hperm. rewrite Ho in Hperm |- *.
  rewrite !length_seqZ in Hperm.
  destruct (decide (N <= 0)) as [HN|HN].
  - rewrite (seqZ_nil 1 N) by lia. apply seqZ_nil. lia.
  - f_equal. lia.
Qed.

Lemma finished_cons item rest :
  finished (item :: rest) =
    if item_processed item then item_nali item :: finished rest else finished rest.
Proof.
  unfold finished. rewrite filter_cons.
  destruct (item_processed item) eqn:E; case_decide; try congruence; reflexivity.
Qed.

Lemma thread_loop_complete N returned : forall r,
  reader_inv r ->
  rd_nali r <= N -> rd_processed r <= rd_nali r ->
  rd_out r ++ rd_top r ++ finished returned ≡ₚ seqZ 1 N ->
  thread_loop N returned r = Finished (seqZ 1 N).
Proof.
  induction returned as [|item rest IH]; intros r Hinv HnN Hpn Hperm.
  - (* nothing more comes back: everything has *)
    change (finished []) with (@nil Z) in Hperm. rewrite app_nil_r in Hperm.
    pose proof (Permutation_length Hperm) as Hlen. rewrite length_seqZ in Hlen.
    pose proof (inv_processed r Hinv) as Hp.
    assert (rd_nali r = N /\ rd_processed r = N) as [E1 E2] by lia.
    destruct (reader_inv_complete N r Hinv Hperm) as [Ht Ho].
    simpl. rewrite E1, E2, Z.ltb_irrefl. unfold shutdown. rewrite Ht, Ho. reflexivity.
  - assert (Hstep : forall r0,
              reader_inv r0 -> rd_nali r0 <= N -> rd_processed r0 + 1 <= rd_nali r0 \/
                (item_processed item = false /\ rd_processed r0 <= rd_nali r0) ->
              rd_out r0 ++ rd_top r0 ++ finished (item :: rest) ≡ₚ seqZ 1 N ->
              thread_loop N rest (receive item r0) = Finished (seqZ 1 N)).
    { intros r0 Hinv0 HnN0 Hpn0 Hperm0. rewrite finished_cons in Hperm0.
      destruct item as [n [|]]; simpl in Hperm0.
      - assert (Hnd : NoDup (rd_out r0 ++ rd_top r0 ++ n :: finished rest)).
        { rewrite Hperm0. apply NoDup_seqZ. }
        assert (Hn1 : 1 <= n).
        { assert (n ∈ seqZ 1 N) as Hin; [|apply elem_of_seqZ in Hin; lia].
          rewrite <- Hperm0. rewrite !elem_of_app. right. right. left. }
        assert (Hnot : n ∉ rd_out r0 ++ rd_top r0).
        { rewrite app_assoc in Hnd. apply NoDup_app in Hnd as (_ & Hd & _).
          intros Hin. apply (Hd n Hin). left. }
        destruct (receive_finished n r0 Hinv0 Hn1 Hnot) as (Hinv' & Hnali & Hp').
        apply IH.
        + exact Hinv'.
        + rewrite Hnali. exact HnN0.
        + rewrite Hnali. pose proof (inv_processed _ Hinv') as P1.
          pose proof (inv_processed _ Hinv0) as P0.
          apply Permutation_length in Hp'. simpl in Hp'. destruct Hpn0 as [?|[? _]]; [lia|discriminate].
        + rewrite app_assoc, Hp'. rewrite <- Hperm0. rewrite app_assoc.
          simpl. apply Permutation_middle.
      - rewrite receive_unfinished. apply IH; auto.
        destruct Hpn0 as [?|[_ ?]]; lia. }
    cbn [thread_loop].
    destruct (rd_nali r <? N) eqn:E1.
    + apply Z.ltb_lt in E1. apply Hstep; simpl.
      * destruct Hinv. constructor; auto.
      * lia.
      * left. lia.
      * exact Hperm.
    + apply Z.ltb_ge in E1. destruct (rd_processed r <? rd_nali r) eqn:E2.
      * apply Z.ltb_lt in E2. apply Hstep; auto. left. lia.
      * apply Z.ltb_ge in E2.
        pose proof (Permutation_length Hperm) as Hlen.
        rewrite !length_app, length_seqZ in Hlen.
        pose proof (inv_processed r Hinv) as Hp. rewrite length_app in Hp.
        assert (Hfin : finished (item :: rest) = []).
        { apply length_zero_iff_nil. lia. }
        rewrite Hfin, app_nil_r in Hperm.
        destruct (reader_inv_complete N r Hinv Hperm) as [Ht Ho].
        unfold shutdown. rewrite Ht, Ho. reflexivity.
Qed.

Lemma reader_init_inv : reader_inv reader_init.
Proof. constructor; simpl; try reflexivity; try lia; constructor. Qed.


(** ** The window length in the pipeline *)

Lemma check_inr r h : check r = inr h -> r = (eslOK, h).
Proof. destruct r as [[] h0]; simpl; intros [= ->]; reflexivity. Qed.

Lemma check_keeps r h0 h :
  hmm_max_length (snd r) = hmm_max_length h0 -> check r = inr h ->
  hmm_max_length h = hmm_max_length h0.
Proof. intros H E. apply check_inr in E. subst r. exact H. Qed.

Lemma and_then_inr r f h :
  r >>= f = inr h -> exists h1, r = inr h1 /\ f h1 = inr h.
Proof. destruct r as [st|h1]; simpl; [discriminate|]. eauto. Qed.

Ltac split_steps E :=
  repeat (apply and_then_inr in E as (? & ? & E); cbv beta in E).

Lemma cap_inserts_keeps bld h : hmm_max_length (cap_inserts bld h) = hmm_max_length h.
Proof.
  unfold cap_inserts. destruct (bld_max_insert_len bld >? 0); [|reflexivity].
  apply (for_lt_pres (fun s => hmm_max_length s = hmm_max_length h)); [reflexivity|].
  intros i s Hs. exact Hs.
Qed.

Lemma mask_to_background_keeps bg h :
  hmm_max_length (mask_to_background bg h) = hmm_max_length h.
Proof.
  unfold mask_to_background. destruct (hmm_mm h) as [mm|]; [|reflexivity].
  apply (for_lt_pres (fun s => hmm_max_length s = hmm_max_length h)); [reflexivity|].
  intros i s Hs. destruct (default false (mm !! i)); [|exact Hs].
  apply (for_lt_pres (fun s => hmm_max_length s = hmm_max_length h)); [exact Hs|].
  intros j s' Hs'. exact Hs'.
Qed.

Lemma copy_cutoffs_keeps msa m1 m2 p1 p2 flag h :
  hmm_max_length (copy_cutoffs msa m1 m2 p1 p2 flag h) = hmm_max_length h.
Proof. unfold copy_cutoffs. destruct (_ && _); reflexivity. Qed.

Lemma effective_seqnumber_keeps lib bld msa h bg h' :
  effective_seqnumber lib bld msa h bg = inr h' ->
  hmm_max_length h' = hmm_max_length h.
Proof.
  unfold effective_seqnumber. intros E. apply and_then_inr in E as (h1 & E1 & E2).
  injection E2 as <-. simpl.
  destruct (bld_effn_strategy bld).
  - injection E1 as <-. reflexivity.
  - injection E1 as <-. reflexivity.
  - destruct (esl_msacluster_SingleLinkage lib msa (bld_eid bld)) as [[] n];
      try discriminate. injection E1 as <-. reflexivity.
  - match type of E1 with context [p7_EntropyWeight ?a ?b ?c ?d ?e] =>
      destruct (p7_EntropyWeight a b c d e) as [[] x] end;
      try discriminate. injection E1 as <-. reflexivity.
Qed.

Section WindowFrame.

Variable lib : Library.
Hypothesis Hl : library_keeps_window lib.

Lemma profillic_parameterize_keeps bld h use_priors h' :
  profillic_parameterize lib bld h use_priors = inr h' ->
  hmm_max_length h' = hmm_max_length h.
Proof.
  unfold profillic_parameterize. destruct use_priors.
  - apply check_keeps, Hl.
  - intros [= <-]. reflexivity.
Qed.

Lemma annotate_keeps bld msa h h' :
  annotate lib bld msa h = inr h' -> hmm_max_length h' = hmm_max_length h.
Proof.
  unfold annotate. destruct (msa_name msa); [|discriminate]. intros E.
  cbv zeta in E. split_steps E. injection E as <-.
  repeat match goal with
         | H : check _ = inr _ |- _ => eapply check_keeps in H; [|apply Hl]
         end.
  rewrite !copy_cutoffs_keeps.
  repeat match goal with H : hmm_max_length _ = _ |- _ => rewrite H; clear H end.
  apply Hl.
Qed.

Lemma build_steps_keeps bld msa bg want use_priors h h' :
  build_steps lib bld msa bg want use_priors h = inr h' ->
  hmm_max_length h' = hmm_max_length h.
Proof.
  unfold build_steps. intros E. split_steps E. injection E as <-.
  rewrite mask_to_background_keeps.
  match goal with H : make_post_msa _ _ _ _ = inr _ |- _ =>
    unfold make_post_msa in H; destruct want;
      [apply check_inr in H; injection H as _ <-|injection H as <-] end.
  all: match goal with H : calibrate _ _ _ _ = inr _ |- _ =>
         eapply check_keeps in H; [rewrite H|apply Hl] end.
  all: match goal with H : annotate _ _ _ _ = inr _ |- _ =>
         apply annotate_keeps in H; rewrite H end.
  all: match goal with H : profillic_parameterize _ _ _ _ = inr _ |- _ =>
         apply profillic_parameterize_keeps in H; rewrite H end.
  all: match goal with H : effective_seqnumber _ _ _ _ _ = inr _ |- _ =>
         apply effective_seqnumber_keeps in H; rewrite H end.
  all: apply cap_inserts_keeps.
Qed.

End WindowFrame.

Lemma quiet_library_keeps_window nres : library_keeps_window (quiet_library nres).
Proof. constructor; reflexivity. Qed.

(** * The claims *)

(** C1: the converter succeeds on every profile of length [L >= 1] (as long
    as [L] is an [int]) and returns a model with [M = L]; on a profile of
    length 0 it fails with [eslENORESULT] and returns no model. *)
Theorem converter_model_length lib bld msa profile :
  let L := Z.of_nat (length profile) in
  (L = 0 ->
   profillic_p7_Profillicmodelmaker lib bld msa profile = (eslENORESULT, None, msa)) /\
  (1 <= L <= INT_MAX ->
   exists h msa',
     profillic_p7_Profillicmodelmaker lib bld msa profile = (eslOK, Some h, msa') /\
     hmm_M h = L).
Proof.
  intros L. split.
  - intros HL. unfold profillic_p7_Profillicmodelmaker. fold L. rewrite HL. reflexivity.
  - intros HL. destruct (converter_result lib bld msa profile HL) as (h & msa' & E & HM & _).
    exists h, msa'. split; assumption.
Qed.

Lemma converter_model_length_witness :
  profillic_p7_Profillicmodelmaker (quiet_library 4) (builder_with p7_EFFN_NONE eslDNA)
    (msa_of 10 0 4) [] = (eslENORESULT, None, msa_of 10 0 4) /\
  1 <= Z.of_nat (length dna_profile) <= INT_MAX /\
  exists h msa',
    profillic_p7_Profillicmodelmaker (quiet_library 4) (builder_with p7_EFFN_NONE eslDNA)
      (msa_of 10 3 4) dna_profile = (eslOK, Some h, msa') /\
    hmm_M h = 3.
Proof.
  split; [|split].
  - apply (converter_model_length (quiet_library 4) (builder_with p7_EFFN_NONE eslDNA)
             (msa_of 10 0 4) []). reflexivity.
  - simpl. unfold INT_MAX. lia.
  - apply (converter_model_length (quiet_library 4) (builder_with p7_EFFN_NONE eslDNA)
             (msa_of 10 3 4) dna_profile). simpl. unfold INT_MAX. lia.
Defined.

(** C2: whatever the order in which the workers finish, as long as each of
    the [N] alignments comes back finished once, the reader writes the
    results [1 .. N] in increasing order and ends with an empty pending
    list; a pending list that is not empty at the end is fatal. *)
Theorem thread_loop_in_order (N : Z) (returned : list WORK_ITEM) :
  0 <= N ->
  finished returned ≡ₚ seqZ 1 N ->
  thread_loop N returned reader_init = Finished (seqZ 1 N) /\
  forall r, rd_top r <> [] -> shutdown r = Fatal.
Proof.
  intros HN Hperm. split.
  - apply thread_loop_complete; simpl; try lia; [apply reader_init_inv|exact Hperm].
  - intros r Hr. unfold shutdown. destruct (rd_top r); [contradiction|reflexivity].
Qed.

Lemma thread_loop_in_order_witness :
  0 <= 4 /\ finished out_of_order ≡ₚ seqZ 1 4 /\
  thread_loop 4 out_of_order reader_init = Finished [1; 2; 3; 4].
Proof.
  assert (Hp : finished out_of_order ≡ₚ seqZ 1 4).
  { apply (bool_decide_unpack _). vm_compute. exact I. }
  split; [lia|]. split; [exact Hp|].
  apply (thread_loop_in_order 4 out_of_order); [lia|exact Hp].
Defined.

(** C3: on a two-state model whose insert state never exits, the search
    runs through all its columns without meeting the stopping test, and
    the function returns [eslOK] with [max_length] untouched: the final
    test reads the stale [max_length], not the column reached. *)
Theorem MaxLength_stuck_reports_success :
  profillic_p7_Builder_MaxLength stuck_hmm window_beta = (eslOK, stuck_hmm).
Proof.
  rewrite MaxLength_not_converged; [reflexivity|discriminate|apply stuck_never_stops].
Qed.

(** C4, as stated, fails at row 3 of a three-state model: the code's
    [Delete(3)] in the second column is [0.25], the stated formula, with
    [Match(3)] for [Match(2)], gives [0.125]. *)
Lemma second_column_delete_as_stated_fails :
  let s := two_columns dyadic_hmm 3 in
  getD s 3 1 = dbl 1 4 /\
  dadd (tmul dyadic_hmm 2 p7H_MD (getM s 3 1))
       (tmul dyadic_hmm 2 p7H_DD (getD s 2 1)) = dbl 1 8 /\
  getD s 3 1 <>
    dadd (tmul dyadic_hmm 2 p7H_MD (getM s 3 1))
         (tmul dyadic_hmm 2 p7H_DD (getD s 2 1)).
Proof. vm_compute. repeat split; discriminate. Qed.

(** C4, amended: in the second column [Insert(1) = t[1][MI] * Match(1)] and
    [Match(2) = t[1][MM] * Match(1)], with [Match(1) = 1] of the first
    column, and for every [k >= 3]
    [Match(k) = t[k-1][DM] * Delete(k-1)] of the first column,
    [Insert(k) = 0] and
    [Delete(k) = t[k-1][MD] * Match(k-1) + t[k-1][DD] * Delete(k-1)], both
    of the second column. *)
Theorem second_column_init h ml (Hml : (2 <= ml)%nat) :
  let s := two_columns h ml in
  getM s 1 0 = d1 /\
  getI s 1 1 = tmul h 1 p7H_MI (getM s 1 0) /\
  getM s 2 1 = tmul h 1 p7H_MM (getM s 1 0) /\
  forall k, (3 <= k <= ml)%nat ->
    getM s k 1 = tmul h (k - 1) p7H_DM (getD s (k - 1) 0) /\
    getI s k 1 = d0 /\
    getD s k 1 = dadd (tmul h (k - 1) p7H_MD (getM s (k - 1) 1))
                      (tmul h (k - 1) p7H_DD (getD s (k - 1) 1)).
Proof.
  unfold two_columns, second_column, first_column.
  cbv zeta.
  set (a0 := setD _ 2 0 _).
  assert (Ha0 : dp_wf ml a0) by (subst a0; eauto 12 with dp_wf_db).
  destruct (first_loop h ml a0 Ha0 Hml) as (Hs1 & Hf1).
  set (s1 := for_k 3 ml (first_column_row h) a0) in *.
  assert (HM1 : getM s1 1 0 = d1).
  { destruct (Hf1 1%nat 0%nat ltac:(lia)) as (_ & E & _). rewrite E. subst a0. dp_simpl. reflexivity. }
  set (b0 := setM _ 2 1 _).
  assert (Hb0 : dp_wf ml b0) by (subst b0; eauto 12 with dp_wf_db).
  destruct (second_loop h ml b0 Hb0 Hml) as (Hs2 & Hf2 & He2).
  set (s2 := for_k 3 ml (second_column_row h) b0) in *.
  assert (HM : getM s2 1 0 = d1).
  { destruct (Hf2 1%nat 0%nat ltac:(lia)) as (_ & E & _). rewrite E. subst b0. dp_simpl. exact HM1. }
  split; [exact HM|]. split; [|split].
  - destruct (Hf2 1%nat 1%nat ltac:(lia)) as (E & _ & _). rewrite E, HM. subst b0. dp_simpl.
    rewrite HM1. reflexivity.
  - destruct (Hf2 2%nat 1%nat ltac:(lia)) as (_ & E & _). rewrite E, HM. subst b0. dp_simpl.
    rewrite HM1. reflexivity.
  - exact He2.
Qed.

Lemma second_column_init_witness :
  (2 <= 3)%nat /\
  getD (two_columns dyadic_hmm 3) 3 1 =
    dadd (tmul dyadic_hmm 2 p7H_MD (getM (two_columns dyadic_hmm 3) 2 1))
         (tmul dyadic_hmm 2 p7H_DD (getD (two_columns dyadic_hmm 3) 2 1)).
Proof.
  split; [lia|].
  apply (second_column_init dyadic_hmm 3 ltac:(lia)). lia.
Defined.

(** C6: on a model with [M = 1] the function sets [max_length = 1] and
    returns [eslOK], whatever the threshold. *)
Theorem MaxLength_single_state h thr :
  hmm_M h = 1 ->
  profillic_p7_Builder_MaxLength h thr = (eslOK, set_max_length h 1).
Proof. intros H. unfold profillic_p7_Builder_MaxLength. rewrite H. reflexivity. Qed.

Lemma MaxLength_single_state_witness :
  hmm_M one_state_hmm = 1 /\
  profillic_p7_Builder_MaxLength one_state_hmm window_beta =
    (eslOK, set_max_length one_state_hmm 1).
Proof.
  split; [reflexivity|].
  apply (MaxLength_single_state one_state_hmm window_beta). reflexivity.
Defined.

(** C7: for one model and two thresholds [e1 <= e2] at which the search
    converges, the [max_length] found with [e1] is at least the one found
    with [e2]. *)
Theorem MaxLength_monotone h e1 e2 :
  dleb e1 e2 = true ->
  converges h e1 -> converges h e2 ->
  hmm_max_length (snd (profillic_p7_Builder_MaxLength h e2))
  <= hmm_max_length (snd (profillic_p7_Builder_MaxLength h e1)).
Proof.
  intros Hle H1 H2. unfold profillic_p7_Builder_MaxLength.
  destruct (hmm_M h =? 1) eqn:EM; [simpl; lia|].
  apply Z.eqb_neq in EM.
  destruct H1 as [?|[c1 H1]]; [contradiction|].
  destruct (columns_mono _ _ _ _ _ _ _ _ _ _ Hle H1) as (c2 & H2' & Hc).
  fold (stopping_column h e2) in H2'. rewrite H1, H2'.
  repeat match goal with |- context [if ?b then _ else _] => destruct b end; simpl; exact Hc.
Qed.

Lemma MaxLength_monotone_witness :
  dleb window_beta (dbl 1 1000) = true /\
  converges dyadic_hmm window_beta /\ converges dyadic_hmm (dbl 1 1000) /\
  hmm_max_length (snd (profillic_p7_Builder_MaxLength dyadic_hmm (dbl 1 1000)))
  <= hmm_max_length (snd (profillic_p7_Builder_MaxLength dyadic_hmm window_beta)).
Proof.
  assert (H1 : converges dyadic_hmm window_beta).
  { right. exists 26. vm_compute. reflexivity. }
  assert (H2 : converges dyadic_hmm (dbl 1 1000)).
  { right. exists 12. vm_compute. reflexivity. }
  assert (Hle : dleb window_beta (dbl 1 1000) = true) by (vm_compute; reflexivity).
  split; [exact Hle|]. split; [exact H1|]. split; [exact H2|].
  apply (MaxLength_monotone dyadic_hmm window_beta (dbl 1 1000) Hle H1 H2).
Defined.

(** C8: the model the converter returns is the model filled from the
    profile with every entry of every transition and emission row
    [0 .. M] multiplied by [nseq], the number of sequences of the
    alignment (as a float). *)
Theorem converter_scales_by_nseq lib bld msa profile :
  let L := Z.of_nat (length profile) in
  1 <= L <= INT_MAX ->
  exists h msa',
    profillic_p7_Profillicmodelmaker lib bld msa profile = (eslOK, Some h, msa') /\
    let filled := fill_counts lib profile (p7_hmm_Create L (msa_abc_K msa)) in
    let nseq := f_of_d (d_of_Z (msa_nseq msa)) in
    hmm_nseq h = msa_nseq msa /\
    hmm_t h = map (map (fun x => fmul x nseq)) (hmm_t filled) /\
    hmm_mat h = map (map (fun x => fmul x nseq)) (hmm_mat filled) /\
    hmm_ins h = map (map (fun x => fmul x nseq)) (hmm_ins filled) /\
    length (hmm_t h) = S (length profile) /\
    length (hmm_mat h) = S (length profile) /\
    length (hmm_ins h) = S (length profile).
Proof.
  intros L HL.
  destruct (converter_result lib bld msa profile HL) as (h & msa' & E & HM & Hn & Ht & Hm & Hi).
  exists h, msa'. split; [exact E|]. cbv zeta.
  destruct (same_frame_fill_counts lib profile (p7_hmm_Create L (msa_abc_K msa)))
    as (_ & _ & _ & _ & Lt & Lm & Li).
  split; [exact Hn|]. split; [exact Ht|]. split; [exact Hm|]. split; [exact Hi|].
  rewrite Ht, Hm, Hi, !length_map. fold L. rewrite Lt, Lm, Li. simpl.
  rewrite !length_replicate.
  subst L. rewrite Nat2Z.id. auto.
Qed.

Lemma converter_scales_by_nseq_witness :
  1 <= Z.of_nat (length dna_profile) <= INT_MAX /\
  exists h msa',
    profillic_p7_Profillicmodelmaker (quiet_library 4) (builder_with p7_EFFN_NONE eslDNA)
      (msa_of 10 3 4) dna_profile = (eslOK, Some h, msa') /\
    hmm_nseq h = 10 /\
    hmm_t h = map (map (fun x => fmul x (f_of_Z 10)))
                  (hmm_t (fill_counts (quiet_library 4) dna_profile (p7_hmm_Create 3 4))).
Proof.
  assert (HL : 1 <= Z.of_nat (length dna_profile) <= INT_MAX)
    by (simpl; unfold INT_MAX; lia).
  split; [exact HL|].
  destruct (converter_scales_by_nseq (quiet_library 4) (builder_with p7_EFFN_NONE eslDNA)
              (msa_of 10 3 4) dna_profile HL) as (h & msa' & E & Hn & Ht & _).
  exists h, msa'. split; [exact E|]. split; [exact Hn|exact Ht].
Defined.

(** C9, as stated, fails for a number of sequences that is not a float:
    with [nseq = 16777217] the strategy "None" sets [eff_nseq] to
    [16777216], and a count of [1] becomes [1 - 2^-24]. *)
Lemma effn_none_large_nseq_rescales :
  match effective_seqnumber (quiet_library 4) (builder_with p7_EFFN_NONE eslDNA)
          (msa_of large_nseq 1 4) (count_hmm large_nseq) no_bg with
  | inr h' =>
      hmm_eff_nseq h' = f_of_Z 16777216 /\
      tr (count_hmm large_nseq) 1 p7H_MM = f1 /\
      tr h' 1 p7H_MM = fsub f1 (flt 1 16777216) /\
      tr h' 1 p7H_MM <> tr (count_hmm large_nseq) 1 p7H_MM
  | inl _ => False
  end.
Proof. vm_compute. repeat split; discriminate. Qed.

(** C9, amended: with the strategy "None", on a count model of [nseq]
    sequences, [1 <= nseq <= 2^24], [eff_nseq] is set to [nseq] and the
    rescaling by [eff_nseq / nseq = 1] leaves every transition and emission
    count as it was. *)
Theorem effn_none_keeps_counts lib bld msa h bg :
  bld_effn_strategy bld = p7_EFFN_NONE ->
  hmm_nseq h = msa_nseq msa ->
  1 <= msa_nseq msa <= 2 ^ 24 ->
  counts_valid h ->
  effective_seqnumber lib bld msa h bg = inr (set_eff_nseq h (f_of_Z (msa_nseq msa))).
Proof.
  intros Hs Hn Hr Hv. unfold effective_seqnumber. rewrite Hs. cbn [and_then].
  f_equal. apply p7_hmm_Scale_one.
  - simpl. rewrite Hn. apply (none_scale_one _ Hr).
  - exact Hv.
Qed.

Lemma effn_none_keeps_counts_witness :
  bld_effn_strategy (builder_with p7_EFFN_NONE eslDNA) = p7_EFFN_NONE /\
  hmm_nseq (count_hmm 10) = msa_nseq (msa_of 10 1 4) /\
  1 <= msa_nseq (msa_of 10 1 4) <= 2 ^ 24 /\
  counts_valid (count_hmm 10) /\
  effective_seqnumber (quiet_library 4) (builder_with p7_EFFN_NONE eslDNA)
    (msa_of 10 1 4) (count_hmm 10) no_bg = inr (set_eff_nseq (count_hmm 10) (f_of_Z 10)).
Proof.
  assert (Hv : counts_valid (count_hmm 10)).
  { repeat split; repeat constructor; vm_compute; reflexivity. }
  assert (Hr : 1 <= msa_nseq (msa_of 10 1 4) <= 2 ^ 24) by (simpl; lia).
  split; [reflexivity|]. split; [reflexivity|]. split; [exact Hr|]. split; [exact Hv|].
  apply (effn_none_keeps_counts (quiet_library 4) (builder_with p7_EFFN_NONE eslDNA)
           (msa_of 10 1 4) (count_hmm 10) no_bg eq_refl eq_refl Hr Hv).
Defined.

(** C10: when the alphabet is amino, the window step of the pipeline does
    nothing, and a model the builder returns has the [max_length] that the
    freshly built count model carried (the library routines the pipeline
    calls in between leaving that field alone). *)
Theorem amino_window_untouched lib bld msa profile_ptr bg want use_priors :
  library_keeps_window lib ->
  bld_abc_type bld = eslAMINO ->
  (forall h, set_window bld h = inr h) /\
  (forall h0 msa0 h msa',
     profillic_build_model lib bld msa profile_ptr = (eslOK, Some h0, msa0) ->
     profillic_p7_Builder lib bld msa profile_ptr bg want use_priors = Built h msa' ->
     hmm_max_length h = hmm_max_length h0).
Proof.
  intros Hl Habc.
  assert (Hw : forall h, set_window bld h = inr h).
  { intros h. unfold set_window. rewrite Habc. reflexivity. }
  split; [exact Hw|].
  intros h0 msa0 h msa' Hb. unfold profillic_p7_Builder. rewrite Hb.
  destruct (build_steps lib bld msa0 bg want use_priors h0) as [st|h1] eqn:E;
    [discriminate|].
  cbn [and_then]. rewrite Hw. intros [= <- <-]. simpl.
  eapply build_steps_keeps; eauto.
Qed.

Lemma amino_window_untouched_witness :
  library_keeps_window (quiet_library 4) /\
  bld_abc_type (builder_with p7_EFFN_NONE eslAMINO) = eslAMINO /\
  match profillic_build_model (quiet_library 4) (builder_with p7_EFFN_NONE eslAMINO)
          (msa_of 10 3 4) (Some dna_profile),
        profillic_p7_Builder (quiet_library 4) (builder_with p7_EFFN_NONE eslAMINO)
          (msa_of 10 3 4) (Some dna_profile) no_bg false false with
  | (eslOK, Some h0, _), Built h _ => hmm_max_length h = hmm_max_length h0
  | _, _ => False
  end.
Proof.
  split; [apply quiet_library_keeps_window|]. split; [reflexivity|].
  pose proof (proj2 (amino_window_untouched (quiet_library 4)
                       (builder_with p7_EFFN_NONE eslAMINO) (msa_of 10 3 4)
                       (Some dna_profile) no_bg false false
                       (quiet_library_keeps_window 4) eq_refl)) as H.
  destruct (profillic_build_model _ _ _ _) as [[[] [h0|]] msa0] eqn:E1;
    try (vm_compute in E1; discriminate).
  destruct (profillic_p7_Builder _ _ _ _ _ _ _) as [h msa'| |] eqn:E2;
    try (vm_compute in E2; discriminate).
  apply (H h0 msa0 h msa' eq_refl eq_refl).
Defined.

(** * Further properties *)

(** When the search meets its stopping test, it does so at a column
    between 3 and the cap of 200000; [max_length] is that column and the
    status is [eslERANGE] exactly at the cap. *)
Theorem MaxLength_within_cap h thr c :
  hmm_M h <> 1 -> stopping_column h thr = Some c ->
  3 <= c <= length_bound /\
  profillic_p7_Builder_MaxLength h thr =
    (if c =? length_bound then eslERANGE else eslOK, set_max_length h c).
Proof.
  intros HM Hc. pose proof (stopping_column_range h thr c Hc) as Hr.
  split; [exact Hr|]. rewrite (MaxLength_converged h thr c HM Hc).
  destruct (c >=? length_bound) eqn:E1, (c =? length_bound) eqn:E2; try reflexivity; lia.
Qed.

Lemma MaxLength_within_cap_witness :
  hmm_M dyadic_hmm <> 1 /\ stopping_column dyadic_hmm window_beta = Some 26 /\
  profillic_p7_Builder_MaxLength dyadic_hmm window_beta =
    (eslOK, set_max_length dyadic_hmm 26).
Proof.
  assert (HM : hmm_M dyadic_hmm <> 1) by discriminate.
  assert (Hc : stopping_column dyadic_hmm window_beta = Some 26)
    by (vm_compute; reflexivity).
  split; [exact HM|]. split; [exact Hc|].
  apply (MaxLength_within_cap dyadic_hmm window_beta 26 HM Hc).
Defined.

(** With a profile, [profillic_build_model] returns [eslOK] whatever the
    converter returned; on an empty profile the model it hands back is
    [NULL], and [profillic_p7_Builder] goes on to dereference it. *)
Theorem builder_empty_profile lib bld msa bg want use_priors :
  (forall profile, fst (fst (profillic_build_model lib bld msa (Some profile))) = eslOK) /\
  profillic_build_model lib bld msa (Some []) = (eslOK, None, msa) /\
  profillic_p7_Builder lib bld msa (Some []) bg want use_priors = NullModel.
Proof.
  split; [|split].
  - intros profile. unfold profillic_build_model.
    destruct (profillic_p7_Profillicmodelmaker lib bld msa profile) as [[st r] m]. reflexivity.
  - reflexivity.
  - reflexivity.
Qed.

(** * Further properties *)

(** ** Loops over a range *)

Lemma for_lt_split {S : Type} lo mid hi (body : nat -> S -> S) s :
  (lo <= mid <= hi)%nat ->
  for_lt lo hi body s = for_lt mid hi body (for_lt lo mid body s).
Proof.
  intros H. unfold for_lt.
  replace (hi - lo)%nat with ((mid - lo) + (hi - mid))%nat by lia.
  rewrite seq_app, fold_left_app. do 3 f_equal. lia.
Qed.

Lemma for_lt_one {S : Type} i (body : nat -> S -> S) s :
  for_lt i (Datatypes.S i) body s = body i s.
Proof. unfold for_lt. replace (Datatypes.S i - i)%nat with 1%nat by lia. reflexivity. Qed.

Lemma for_lt_range {S : Type} (P : S -> Prop) lo hi (body : nat -> S -> S) s :
  P s -> (forall i s, (lo <= i < hi)%nat -> P s -> P (body i s)) ->
  P (for_lt lo hi body s).
Proof.
  intros H0 Hstep. unfold for_lt.
  assert (Hin : Forall (fun i => (lo <= i < hi)%nat) (seq lo (hi - lo))).
  { apply Forall_forall. intros i Hi. apply elem_of_seq in Hi. lia. }
  revert s H0. induction Hin as [|i l Hi _ IH]; intros s H0; simpl; [exact H0|].
  apply IH, Hstep; assumption.
Qed.

Lemma for_lt_inv {S : Type} (P : nat -> S -> Prop) lo hi (body : nat -> S -> S) s :
  (lo <= hi)%nat -> P lo s ->
  (forall i s, (lo <= i < hi)%nat -> P i s -> P (Datatypes.S i) (body i s)) ->
  P hi (for_lt lo hi body s).
Proof.
  intros Hle H0 Hstep. destruct hi as [|hi].
  - assert (lo = 0)%nat as -> by lia. exact H0.
  - change (for_lt lo (Datatypes.S hi) body s) with (for_k lo hi body s).
    apply for_k_inv; [lia|exact H0|]. intros k s' Hk. apply Hstep. lia.
Qed.

(** ** The maximum-length estimator *)

Lemma first_rows h ml s0 :
  dp_wf ml s0 -> (2 <= ml)%nat ->
  let s := for_k 3 ml (first_column_row h) s0 in
  forall k, (3 <= k <= ml)%nat ->
    getM s k 0 = d0 /\ getI s k 0 = d0 /\
    getD s k 0 = tmul h (k - 1) p7H_DD (getD s (k - 1) 0).
Proof.
  intros Hwf Hml.
  enough (dp_wf ml (for_k 3 ml (first_column_row h) s0) /\
          (forall k, (3 <= k < Datatypes.S ml)%nat ->
             getM (for_k 3 ml (first_column_row h) s0) k 0 = d0 /\
             getI (for_k 3 ml (first_column_row h) s0) k 0 = d0 /\
             getD (for_k 3 ml (first_column_row h) s0) k 0 =
               tmul h (k - 1) p7H_DD (getD (for_k 3 ml (first_column_row h) s0) (k - 1) 0)))
    as (_ & C).
  { intros s k Hk. apply C. lia. }
  apply (for_k_inv (fun (k : nat) s =>
    dp_wf ml s /\
    (forall k', (3 <= k' < k)%nat ->
       getM s k' 0 = d0 /\ getI s k' 0 = d0 /\
       getD s k' 0 = tmul h (k' - 1) p7H_DD (getD s (k' - 1) 0)))); [lia| |].
  - split; [assumption|]. intros; lia.
  - intros k s Hk (Hs & Heq). split; [unfold first_column_row; eauto with dp_wf_db|].
    intros k' Hk'. destruct (decide (k' = k)) as [->|Hne].
    + unfold first_column_row. dp_simpl. auto.
    + destruct (Heq k' ltac:(lia)) as (E1 & E2 & E3).
      unfold first_column_row. dp_simpl. auto.
Qed.

(** The first column of the table holds [Match(1) = 1], [Insert(1) =
    Delete(1) = 0], [Match(2) = Insert(2) = 0], [Delete(2) = t[1][MD]] and,
    for every [k >= 3], [Match(k) = Insert(k) = 0] and
    [Delete(k) = t[k-1][DD] * Delete(k-1)]. *)
Theorem first_column_init h ml (Hml : (2 <= ml)%nat) :
  let s := first_column h ml (dp_alloc ml) in
  getM s 1 0 = d1 /\ getI s 1 0 = d0 /\ getD s 1 0 = d0 /\
  getM s 2 0 = d0 /\ getI s 2 0 = d0 /\ getD s 2 0 = d_of_f (tr h 1 p7H_MD) /\
  forall k, (3 <= k <= ml)%nat ->
    getM s k 0 = d0 /\ getI s k 0 = d0 /\
    getD s k 0 = tmul h (k - 1) p7H_DD (getD s (k - 1) 0).
Proof.
  unfold first_column. cbv zeta.
  set (a0 := setD _ 2 0 _).
  assert (Ha0 : dp_wf ml a0) by (subst a0; eauto 12 with dp_wf_db).
  destruct (first_loop h ml a0 Ha0 Hml) as (Hs1 & Hf1).
  pose proof (first_rows h ml a0 Ha0 Hml) as Hr. cbv zeta in Hr.
  set (s1 := for_k 3 ml (first_column_row h) a0) in *.
  destruct (Hf1 1%nat 0%nat ltac:(lia)) as (I1 & M1 & D1).
  destruct (Hf1 2%nat 0%nat ltac:(lia)) as (I2 & M2 & D2).
  rewrite I1, M1, D1, I2, M2, D2. subst a0. dp_simpl.
  do 6 (split; [reflexivity|]). exact Hr.
Qed.

Lemma first_column_init_witness :
  (2 <= 3)%nat /\
  getD (first_column dyadic_hmm 3 (dp_alloc 3)) 3 0 =
    tmul dyadic_hmm 2 p7H_DD (getD (first_column dyadic_hmm 3 (dp_alloc 3)) 2 0).
Proof.
  split; [lia|].
  apply (first_column_init dyadic_hmm 3 ltac:(lia)). lia.
Defined.

(** On a model that comes in with [max_length] below the cap, the status
    is [eslERANGE] exactly when the stopping test first holds at column
    200000: a search that never meets the test is not reported. *)
Theorem MaxLength_range_at_cap h thr :
  hmm_M h <> 1 -> hmm_max_length h < length_bound ->
  (fst (profillic_p7_Builder_MaxLength h thr) = eslERANGE <->
   stopping_column h thr = Some length_bound).
Proof.
  intros HM Hst. destruct (stopping_column h thr) as [c|] eqn:E.
  - rewrite (MaxLength_converged h thr c HM E). cbn [fst].
    pose proof (stopping_column_range h thr c E) as Hr.
    destruct (c >=? length_bound) eqn:Ec; split; intros H; try discriminate.
    + f_equal. lia.
    + reflexivity.
    + injection H as ->. lia.
  - rewrite (MaxLength_not_converged h thr HM E). cbn [fst].
    destruct (hmm_max_length h >=? length_bound) eqn:Ec; [lia|].
    split; discriminate.
Qed.

Lemma MaxLength_range_at_cap_witness :
  hmm_M stuck_hmm <> 1 /\ hmm_max_length stuck_hmm < length_bound /\
  fst (profillic_p7_Builder_MaxLength stuck_hmm window_beta) <> eslERANGE.
Proof.
  assert (HM : hmm_M stuck_hmm <> 1) by discriminate.
  assert (Hs : hmm_max_length stuck_hmm < length_bound) by (vm_compute; reflexivity).
  split; [exact HM|]. split; [exact Hs|].
  intros H. apply (MaxLength_range_at_cap stuck_hmm window_beta HM Hs) in H.
  rewrite stuck_never_stops in H. discriminate.
Defined.

Lemma two_columns_reads_t h h' ml :
  hmm_t h' = hmm_t h -> two_columns h' ml = two_columns h ml.
Proof.
  intros E. unfold two_columns, second_column, first_column,
    second_column_row, first_column_row, tmul, tr. rewrite E. reflexivity.
Qed.

Lemma column_reads_t h h' ml cp s p :
  hmm_t h' = hmm_t h -> column h' ml cp s p = column h ml cp s p.
Proof.
  intros E. unfold column, column_row, tmul, mul_1m, tr. rewrite E. reflexivity.
Qed.

Lemma columns_reads_t h h' ml thr n : forall col cp s p,
  hmm_t h' = hmm_t h ->
  columns h' ml thr n col cp s p = columns h ml thr n col cp s p.
Proof.
  induction n as [|n IH]; intros col cp s p E; simpl; [reflexivity|].
  rewrite (column_reads_t h h' ml cp s p E).
  destruct (column h ml cp s p) as [[s' p'] surv].
  destruct (dltb surv thr); [reflexivity|]. apply IH, E.
Qed.

(** The estimator reads [M], the transitions and the incoming
    [max_length] only: two models that agree on these get the same status
    and the same [max_length], whatever their emissions and annotation. *)
Theorem MaxLength_reads_transitions_only h h' thr :
  hmm_M h' = hmm_M h -> hmm_t h' = hmm_t h -> hmm_max_length h' = hmm_max_length h ->
  fst (profillic_p7_Builder_MaxLength h' thr) = fst (profillic_p7_Builder_MaxLength h thr) /\
  hmm_max_length (snd (profillic_p7_Builder_MaxLength h' thr)) =
    hmm_max_length (snd (profillic_p7_Builder_MaxLength h thr)).
Proof.
  intros EM Et El.
  assert (Es : stopping_column h' thr = stopping_column h thr).
  { unfold stopping_column. rewrite EM, (two_columns_reads_t h h' _ Et).
    apply columns_reads_t, Et. }
  unfold profillic_p7_Builder_MaxLength. rewrite EM, Es.
  destruct (hmm_M h =? 1); [split; reflexivity|].
  destruct (stopping_column h thr) as [c|]; cbn [hmm_max_length set_max_length].
  - destruct (c >=? length_bound); split; reflexivity.
  - rewrite El. destruct (hmm_max_length h >=? length_bound); split; simpl; congruence.
Qed.

Lemma MaxLength_reads_transitions_only_witness :
  hmm_M (set_mat dyadic_hmm [[f1]]) = hmm_M dyadic_hmm /\
  hmm_t (set_mat dyadic_hmm [[f1]]) = hmm_t dyadic_hmm /\
  hmm_max_length (set_mat dyadic_hmm [[f1]]) = hmm_max_length dyadic_hmm /\
  hmm_max_length (snd (profillic_p7_Builder_MaxLength (set_mat dyadic_hmm [[f1]]) window_beta)) =
  hmm_max_length (snd (profillic_p7_Builder_MaxLength dyadic_hmm window_beta)).
Proof.
  split; [reflexivity|]. split; [reflexivity|]. split; [reflexivity|].
  apply (MaxLength_reads_transitions_only dyadic_hmm (set_mat dyadic_hmm [[f1]]) window_beta
           eq_refl eq_refl eq_refl).
Defined.

(** ** The nodes of the converted model *)

Lemma lookup_wr2_ne {A} (a : list (list A)) k j v k' :
  k <> k' -> wr2 a k j v !! k' = a !! k'.
Proof.
  intros H. unfold wr2. destruct (a !! k); [|reflexivity].
  apply list_lookup_insert_ne, H.
Qed.

Lemma lookup_wr2_eq {A} (a : list (list A)) k j v r :
  a !! k = Some r -> wr2 a k j v !! k = Some (<[j := v]> r).
Proof.
  intros H. unfold wr2. rewrite H.
  apply list_lookup_insert_eq. eapply lookup_lt_Some, H.
Qed.

Lemma node_set_tr_ne h k j v k' : k <> k' -> node (set_tr h k j v) k' = node h k'.
Proof. intros H. unfold node. simpl. rewrite lookup_wr2_ne by exact H. reflexivity. Qed.
Lemma node_set_mat_at_ne h k j v k' : k <> k' -> node (set_mat_at h k j v) k' = node h k'.
Proof. intros H. unfold node. simpl. rewrite lookup_wr2_ne by exact H. reflexivity. Qed.
Lemma node_set_ins_at_ne h k j v k' : k <> k' -> node (set_ins_at h k j v) k' = node h k'.
Proof. intros H. unfold node. simpl. rewrite lookup_wr2_ne by exact H. reflexivity. Qed.

Ltac node_step H :=
  first [ rewrite node_set_tr_ne by exact H
        | rewrite node_set_mat_at_ne by exact H
        | rewrite node_set_ins_at_ne by exact H ].

(** A position of the profile writes its own node only. *)
Lemma fill_position_0_keeps lib profile h k :
  (0 <> k)%nat -> node (fill_position_0 lib profile h) k = node h k.
Proof.
  intros H. unfold fill_position_0. cbv zeta.
  apply (for_lt_pres (fun s => node s k = node h k)).
  2: { intros i s Hs. repeat node_step H. exact Hs. }
  node_step H.
  apply (for_lt_pres (fun s => node s k = node h k)).
  2: { intros i s Hs. repeat node_step H. exact Hs. }
  repeat node_step H. reflexivity.
Qed.

Lemma fill_position_keeps lib profile pos h k :
  pos <> k -> node (fill_position lib profile pos h) k = node h k.
Proof.
  intros H. unfold fill_position. cbv zeta.
  assert (E : node (for_lt 0 (ValueSize lib) (fun res_i h0 =>
                set_ins_at (set_mat_at h0 pos (esl_abc_DigitizeSymbol lib res_i)
                   (f_of_d (emission (Match_emission (position profile pos)) res_i)))
                   pos (esl_abc_DigitizeSymbol lib res_i)
                   (f_of_d (emission (Insertion_emission (position profile pos)) res_i))) h) k
              = node h k).
  { apply (for_lt_pres (fun s => node s k = node h k)); [reflexivity|].
    intros i s Hs. repeat node_step H. exact Hs. }
  destruct (pos =? length profile - 1)%nat; repeat node_step H; exact E.
Qed.

Lemma positions_keep lib profile lo hi h k :
  (k < lo \/ hi <= k)%nat ->
  node (for_lt lo hi (fill_position lib profile) h) k = node h k.
Proof.
  intros H. apply (for_lt_range (fun s => node s k = node h k)); [reflexivity|].
  intros i s Hi Hs. rewrite fill_position_keeps by lia. exact Hs.
Qed.

(** The node a position fills is the node [fill_position] makes of what
    the model held there before the loop. *)
Lemma fill_counts_node lib profile h pos :
  (1 <= pos < length profile)%nat ->
  exists h', node h' pos = node h pos /\ same_frame h h' /\
    node (fill_counts lib profile h) pos = node (fill_position lib profile pos h') pos.
Proof.
  intros Hp. unfold fill_counts. cbv zeta.
  set (h0 := fill_position_0 lib profile h).
  rewrite (for_lt_split 1 pos (length profile)) by lia.
  rewrite (for_lt_split pos (Datatypes.S pos) (length profile)) by lia.
  rewrite for_lt_one.
  set (h1 := for_lt 1 pos (fill_position lib profile) h0).
  exists h1. split; [|split].
  - subst h1. rewrite positions_keep by lia. subst h0.
    apply fill_position_0_keeps. lia.
  - subst h1. apply for_lt_pres.
    + apply same_frame_fill_position_0.
    + intros i s Hs. eapply same_frame_trans; [exact Hs|apply same_frame_fill_position].
  - apply positions_keep. lia.
Qed.

Lemma fill_counts_node_0 lib profile h :
  node (fill_counts lib profile h) 0 = node (fill_position_0 lib profile h) 0.
Proof. unfold fill_counts. cbv zeta. apply positions_keep. lia. Qed.

Lemma fill_counts_node_beyond lib profile h k :
  (1 <= length profile <= k)%nat -> node (fill_counts lib profile h) k = node h k.
Proof.
  intros H. unfold fill_counts. cbv zeta. rewrite positions_keep by lia.
  apply fill_position_0_keeps. lia.
Qed.

Lemma node_Create M K k :
  (k <= Z.to_nat M)%nat ->
  node (p7_hmm_Create M K) k =
    (Some (replicate 7 f0), Some (replicate K f0), Some (replicate K f0)).
Proof.
  intros H. unfold node, p7_hmm_Create. cbv zeta. cbn [hmm_t hmm_mat hmm_ins].
  rewrite !lookup_replicate_2 by lia. reflexivity.
Qed.

Lemma node_inv h k a b c :
  node h k = (a, b, c) -> hmm_t h !! k = a /\ hmm_mat h !! k = b /\ hmm_ins h !! k = c.
Proof. unfold node. intros [= <- <- <-]. auto. Qed.

(** A node of the converter's result, from the node of the filled model. *)
Lemma converter_node lib bld msa profile k :
  let L := Z.of_nat (length profile) in
  1 <= L <= INT_MAX ->
  exists h msa',
    profillic_p7_Profillicmodelmaker lib bld msa profile = (eslOK, Some h, msa') /\
    let filled := fill_counts lib profile (p7_hmm_Create L (msa_abc_K msa)) in
    let sc := map (fun x => fmul x (f_of_d (d_of_Z (msa_nseq msa)))) in
    hmm_M h = L /\
    node h k = (sc <$> hmm_t filled !! k, sc <$> hmm_mat filled !! k, sc <$> hmm_ins filled !! k).
Proof.
  intros L HL.
  destruct (converter_result lib bld msa profile HL) as (h & msa' & E & HM & Hn & Ht & Hm & Hi).
  exists h, msa'. split; [exact E|]. cbv zeta. split; [exact HM|].
  unfold node. rewrite Ht, Hm, Hi, !list_lookup_fmap. reflexivity.
Qed.

Lemma set_tr_row h k j v r :
  hmm_t h !! k = Some r -> hmm_t (set_tr h k j v) !! k = Some (<[j := v]> r).
Proof. intros H. simpl. apply lookup_wr2_eq, H. Qed.

Lemma tr_row h k j r : hmm_t h !! k = Some r -> tr h k j = default f0 (r !! j).
Proof. intros H. unfold tr, rd2. rewrite H. reflexivity. Qed.

(** The residue loops write emissions only. *)
Lemma emission_loop_t lo hi (body : nat -> P7_HMM -> P7_HMM) h :
  (forall i s, hmm_t (body i s) = hmm_t s /\ hmm_K (body i s) = hmm_K s) ->
  hmm_t (for_lt lo hi body h) = hmm_t h /\ hmm_K (for_lt lo hi body h) = hmm_K h.
Proof.
  intros Hb. apply (for_lt_pres (fun s => hmm_t s = hmm_t h /\ hmm_K s = hmm_K h)).
  - split; reflexivity.
  - intros i s [E1 E2]. destruct (Hb i s) as [F1 F2]. split; congruence.
Qed.

Lemma fill_position_0_t lib profile h :
  hmm_t h !! 0%nat = Some (replicate 7 f0) -> (2 <= hmm_K h)%nat ->
  let p0 := position profile 0 in
  hmm_t (fill_position_0 lib profile h) !! 0%nat =
    Some [f_of_d (Match_toMatch p0); f_of_d (Match_toInsertion p0);
          f_of_d (Match_toDeletion p0); f_of_d (PreAlign_toBegin p0);
          f_of_d (PreAlign_toPreAlign p0); f0; f0].
Proof.
  intros Ht HK p0. unfold fill_position_0. cbv zeta. fold p0.
  set (a := f_of_d (Insertion_toInsertion p0)).
  set (h1 := set_tr h 0 p7H_MI a).
  assert (E1 : hmm_t h1 !! 0%nat = Some [f0; a; f0; f0; f0; f0; f0]).
  { subst h1. rewrite (set_tr_row _ _ _ _ _ Ht). reflexivity. }
  rewrite (tr_row h1 0 p7H_MI _ E1). cbn [lookup list_lookup p7H_MI default].
  set (h2 := set_tr h1 0 p7H_II _).
  assert (E2 : hmm_t h2 !! 0%nat = Some [f0; a; f0; f0; a; f0; f0]).
  { subst h2. rewrite (set_tr_row _ _ _ _ _ E1). reflexivity. }
  rewrite (tr_row h2 0 p7H_MI _ E2).
  set (h3 := set_tr h2 0 p7H_IM _).
  assert (E3 : exists b, hmm_t h3 !! 0%nat = Some [f0; a; f0; b; a; f0; f0]).
  { eexists. subst h3. rewrite (set_tr_row _ _ _ _ _ E2). reflexivity. }
  destruct E3 as [b E3].
  set (h4 := for_lt 0 (ValueSize lib) _ h3).
  assert (E4 : hmm_t h4 = hmm_t h3 /\ hmm_K h4 = hmm_K h3).
  { subst h4. apply emission_loop_t. intros i s. split; reflexivity. }
  destruct E4 as [E4 K4].
  set (h5 := set_mat_at h4 0 0 _).
  assert (E5 : hmm_t h5 !! 0%nat = Some [f0; a; f0; b; a; f0; f0]).
  { subst h5. cbn [hmm_t set_mat_at set_mat]. rewrite E4. exact E3. }
  assert (K5 : hmm_K h5 = hmm_K h) by (subst h5; simpl; rewrite K4; reflexivity).
  rewrite K5.
  set (final := [f_of_d (Match_toMatch p0); f_of_d (Match_toInsertion p0);
          f_of_d (Match_toDeletion p0); f_of_d (PreAlign_toBegin p0);
          f_of_d (PreAlign_toPreAlign p0); f0; f0]).
  match goal with |- hmm_t (for_lt 1 _ ?body h5) !! _ = _ =>
    enough (hmm_t (for_lt 1 (hmm_K h) body h5) !! 0%nat =
            Some (if (1 <? hmm_K h)%nat then final else [f0; a; f0; b; a; f0; f0])) as E;
    [rewrite E; destruct (Nat.ltb_spec 1 (hmm_K h)); [reflexivity|lia]|];
    apply (for_lt_inv (fun i s => hmm_t s !! 0%nat =
            Some (if (1 <? i)%nat then final else [f0; a; f0; b; a; f0; f0])))
  end; [lia|exact E5|].
  intros i s Hi E.
  erewrite set_tr_row by (do 4 eapply set_tr_row; exact E).
  destruct (Nat.ltb_spec 1 (Datatypes.S i)); [|lia].
  destruct (1 <? i)%nat; reflexivity.
Qed.

Lemma fill_position_t lib profile pos h :
  hmm_t h !! pos = Some (replicate 7 f0) ->
  let p := position profile pos in
  hmm_t (fill_position lib profile pos h) !! pos =
    Some (if (pos =? length profile - 1)%nat
          then [f_of_d (PostAlign_toTerminal p); f_of_d (PostAlign_toPostAlign p); f0;
                f_of_d (PostAlign_toTerminal p); f_of_d (PostAlign_toPostAlign p); f0; f0]
          else [f_of_d (Match_toMatch p); f_of_d (Match_toInsertion p);
                f_of_d (Match_toDeletion p); f_of_d (Insertion_toMatch p);
                f_of_d (Insertion_toInsertion p); f_of_d (Deletion_toMatch p);
                f_of_d (Deletion_toDeletion p)]).
Proof.
  intros Ht p. unfold fill_position. cbv zeta. fold p.
  set (h1 := for_lt 0 (ValueSize lib) _ h).
  assert (E1 : hmm_t h1 !! pos = Some (replicate 7 f0)).
  { assert (hmm_t h1 = hmm_t h) as ->; [|exact Ht].
    subst h1. apply emission_loop_t. intros i s. split; reflexivity. }
  destruct (pos =? length profile - 1)%nat.
  - erewrite set_tr_row by (do 3 eapply set_tr_row; exact E1). reflexivity.
  - erewrite set_tr_row by (do 6 eapply set_tr_row; exact E1). reflexivity.
Qed.

(** One row under the residue loop: entry [digit r] takes the value of
    residue [r]. *)
Lemma residue_row lib K (v : nat -> float32) (row0 : list float32) n :
  digitises lib K -> length row0 = K -> (n <= ValueSize lib)%nat ->
  let row := fold_left (fun row r => <[esl_abc_DigitizeSymbol lib r := v r]> row)
                       (seq 0 n) row0 in
  length row = K /\
  forall r, (r < n)%nat -> row !! esl_abc_DigitizeSymbol lib r = Some (v r).
Proof.
  intros [Hr Hi] Hl. induction n as [|n IH]; intros Hn; cbv zeta.
  - split; [exact Hl|]. intros; lia.
  - rewrite seq_S, fold_left_app. simpl.
    destruct IH as [IL IV]; [lia|]. split; [rewrite length_insert; exact IL|].
    intros r Hlt. destruct (decide (r = n)) as [->|Hne].
    + apply list_lookup_insert_eq. rewrite IL. apply Hr. lia.
    + rewrite list_lookup_insert_ne.
      * apply IV. lia.
      * intros E. apply Hne. symmetry. apply Hi; [lia|lia|exact E].
Qed.

Lemma loop_mat_row (body : nat -> P7_HMM -> P7_HMM) (f : list float32 -> nat -> list float32) k :
  (forall i s row, hmm_mat s !! k = Some row -> hmm_mat (body i s) !! k = Some (f row i)) ->
  forall l h row, hmm_mat h !! k = Some row ->
  hmm_mat (fold_left (fun s i => body i s) l h) !! k = Some (fold_left f l row).
Proof.
  intros Hb. induction l as [|i l IH]; intros h row H; simpl; [exact H|].
  apply IH, Hb, H.
Qed.

Lemma loop_ins_row (body : nat -> P7_HMM -> P7_HMM) (f : list float32 -> nat -> list float32) k :
  (forall i s row, hmm_ins s !! k = Some row -> hmm_ins (body i s) !! k = Some (f row i)) ->
  forall l h row, hmm_ins h !! k = Some row ->
  hmm_ins (fold_left (fun s i => body i s) l h) !! k = Some (fold_left f l row).
Proof.
  intros Hb. induction l as [|i l IH]; intros h row H; simpl; [exact H|].
  apply IH, Hb, H.
Qed.

Lemma set_mat_at_row h k j v r :
  hmm_mat h !! k = Some r -> hmm_mat (set_mat_at h k j v) !! k = Some (<[j := v]> r).
Proof. intros H. simpl. apply lookup_wr2_eq, H. Qed.

Lemma set_ins_at_row h k j v r :
  hmm_ins h !! k = Some r -> hmm_ins (set_ins_at h k j v) !! k = Some (<[j := v]> r).
Proof. intros H. simpl. apply lookup_wr2_eq, H. Qed.

(** The emission rows of node [pos >= 1] after its position was filled. *)
Lemma fill_position_emissions lib profile pos h K rm ri :
  digitises lib K ->
  hmm_mat h !! pos = Some rm -> length rm = K ->
  hmm_ins h !! pos = Some ri -> length ri = K ->
  let p := position profile pos in
  exists rm' ri',
    hmm_mat (fill_position lib profile pos h) !! pos = Some rm' /\
    hmm_ins (fill_position lib profile pos h) !! pos = Some ri' /\
    forall r, (r < ValueSize lib)%nat ->
      rm' !! esl_abc_DigitizeSymbol lib r = Some (f_of_d (emission (Match_emission p) r)) /\
      ri' !! esl_abc_DigitizeSymbol lib r = Some (f_of_d (emission (Insertion_emission p) r)).
Proof.
  intros Hd Hm Lm Hi Li p. unfold fill_position. cbv zeta. fold p.
  set (h1 := for_lt 0 (ValueSize lib) _ h).
  pose proof (residue_row lib K (fun r => f_of_d (emission (Match_emission p) r)) rm
                (ValueSize lib) Hd Lm (le_n _)) as [_ Rm].
  pose proof (residue_row lib K (fun r => f_of_d (emission (Insertion_emission p) r)) ri
                (ValueSize lib) Hd Li (le_n _)) as [_ Ri].
  eexists. eexists.
  assert (Em : hmm_mat h1 !! pos = Some (fold_left (fun row r =>
             <[esl_abc_DigitizeSymbol lib r := f_of_d (emission (Match_emission p) r)]> row)
             (seq 0 (ValueSize lib)) rm)).
  { subst h1. unfold for_lt. rewrite Nat.sub_0_r.
    apply (loop_mat_row _ (fun row r =>
             <[esl_abc_DigitizeSymbol lib r := f_of_d (emission (Match_emission p) r)]> row));
      [|exact Hm].
    intros i s row H. cbn [hmm_mat set_ins_at set_ins]. apply set_mat_at_row, H. }
  assert (Ei : hmm_ins h1 !! pos = Some (fold_left (fun row r =>
             <[esl_abc_DigitizeSymbol lib r := f_of_d (emission (Insertion_emission p) r)]> row)
             (seq 0 (ValueSize lib)) ri)).
  { subst h1. unfold for_lt. rewrite Nat.sub_0_r.
    apply (loop_ins_row _ (fun row r =>
             <[esl_abc_DigitizeSymbol lib r := f_of_d (emission (Insertion_emission p) r)]> row));
      [|exact Hi].
    intros i s row H. apply set_ins_at_row. exact H. }
  split; [|split].
  - destruct (pos =? length profile - 1)%nat; exact Em.
  - destruct (pos =? length profile - 1)%nat; exact Ei.
  - intros r Hr. split; [apply Rm|apply Ri]; exact Hr.
Qed.

(** The emission rows of node 0. *)
Lemma fill_position_0_mat lib profile h :
  hmm_mat h !! 0%nat = Some (replicate (hmm_K h) f0) -> (1 <= hmm_K h)%nat ->
  hmm_mat (fill_position_0 lib profile h) !! 0%nat =
    Some (f_of_d d1 :: replicate (hmm_K h - 1) f0).
Proof.
  intros Hm HK. unfold fill_position_0. cbv zeta.
  set (h3 := set_tr (set_tr (set_tr h _ _ _) _ _ _) _ _ _).
  set (h4 := for_lt 0 (ValueSize lib) _ h3).
  assert (E4 : hmm_mat h4 = hmm_mat h /\ hmm_K h4 = hmm_K h).
  { subst h4. apply (for_lt_pres (fun s => hmm_mat s = hmm_mat h /\ hmm_K s = hmm_K h));
      [split; reflexivity|]. intros i s [E1 E2]. split; assumption. }
  destruct E4 as [E4 K4].
  set (h5 := set_mat_at h4 0 0 _).
  assert (E5 : hmm_mat h5 !! 0%nat = Some (f_of_d d1 :: replicate (hmm_K h - 1) f0)).
  { subst h5. erewrite set_mat_at_row by (rewrite E4; exact Hm).
    destruct (hmm_K h) as [|K]; [lia|]. simpl. rewrite Nat.sub_0_r. reflexivity. }
  assert (K5 : hmm_K h5 = hmm_K h) by (subst h5; simpl; exact K4).
  rewrite K5.
  apply (for_lt_range (fun s => hmm_mat s !! 0%nat = Some (f_of_d d1 :: replicate (hmm_K h - 1) f0)));
    [exact E5|].
  intros i s Hi E. cbn [hmm_mat set_tr set_t].
  erewrite set_mat_at_row by exact E.
  f_equal. destruct i as [|i]; [lia|]. simpl. f_equal.
  apply list_insert_id. apply lookup_replicate_2. lia.
Qed.

Lemma fill_position_0_ins lib profile h K ri :
  digitises lib K -> hmm_ins h !! 0%nat = Some ri -> length ri = K ->
  exists ri',
    hmm_ins (fill_position_0 lib profile h) !! 0%nat = Some ri' /\
    forall r, (r < ValueSize lib)%nat ->
      ri' !! esl_abc_DigitizeSymbol lib r =
        Some (f_of_d (emission (Insertion_emission (position profile 0)) r)).
Proof.
  intros Hd Hi Li. unfold fill_position_0. cbv zeta.
  set (p0 := position profile 0).
  set (h3 := set_tr (set_tr (set_tr h _ _ _) _ _ _) _ _ _).
  set (h4 := for_lt 0 (ValueSize lib) _ h3).
  pose proof (residue_row lib K (fun r => f_of_d (emission (Insertion_emission p0) r)) ri
                (ValueSize lib) Hd Li (le_n _)) as [_ Ri].
  assert (Ei : hmm_ins h4 !! 0%nat = Some (fold_left (fun row r =>
             <[esl_abc_DigitizeSymbol lib r := f_of_d (emission (Insertion_emission p0) r)]> row)
             (seq 0 (ValueSize lib)) ri)).
  { subst h4. unfold for_lt. rewrite Nat.sub_0_r.
    apply (loop_ins_row _ (fun row r =>
             <[esl_abc_DigitizeSymbol lib r := f_of_d (emission (Insertion_emission p0) r)]> row));
      [|exact Hi].
    intros i s row H. apply set_ins_at_row. exact H. }
  eexists. split; [|exact Ri].
  apply (for_lt_pres (fun s => hmm_ins s !! 0%nat = _)); [exact Ei|].
  intros i s E. exact E.
Qed.

(** The converter fills the nodes [0 .. L-1] from the [L] positions of the
    profile and leaves node [M = L] as [p7_hmm_Zero] made it: every
    transition and emission count of the last node is [0 * nseq]. *)
Theorem converter_last_node_empty lib bld msa profile :
  let L := Z.of_nat (length profile) in
  1 <= L <= INT_MAX ->
  exists h msa',
    profillic_p7_Profillicmodelmaker lib bld msa profile = (eslOK, Some h, msa') /\
    hmm_M h = L /\
    node h (length profile) =
      (Some (replicate 7 (count_of msa d0)),
       Some (replicate (msa_abc_K msa) (count_of msa d0)),
       Some (replicate (msa_abc_K msa) (count_of msa d0))).
Proof.
  intros L HL. subst L.
  destruct (converter_node lib bld msa profile (length profile) HL)
    as (h & msa' & E & HM & Hn).
  exists h, msa'. split; [exact E|]. split; [exact HM|]. cbv zeta in Hn.
  rewrite Hn.
  pose proof (fill_counts_node_beyond lib profile (p7_hmm_Create (Z.of_nat (length profile)) (msa_abc_K msa))
                (length profile) ltac:(lia)) as Hk.
  rewrite node_Create in Hk by (rewrite Nat2Z.id; lia).
  apply node_inv in Hk as (-> & -> & ->). simpl.
  rewrite !fmap_replicate. reflexivity.
Qed.

Lemma converter_last_node_empty_witness :
  1 <= Z.of_nat (length dna_profile) <= INT_MAX /\
  exists h msa',
    profillic_p7_Profillicmodelmaker (quiet_library 4) (builder_with p7_EFFN_NONE eslDNA)
      (msa_of 10 3 4) dna_profile = (eslOK, Some h, msa') /\
    hmm_M h = 3 /\ hmm_mat h !! 3%nat = Some (replicate 4 f0).
Proof.
  assert (HL : 1 <= Z.of_nat (length dna_profile) <= INT_MAX)
    by (simpl; unfold INT_MAX; lia).
  split; [exact HL|].
  destruct (converter_last_node_empty (quiet_library 4) (builder_with p7_EFFN_NONE eslDNA)
              (msa_of 10 3 4) dna_profile HL) as (h & msa' & E & HM & Hn).
  exists h, msa'. split; [exact E|]. split; [exact HM|].
  apply node_inv in Hn as (_ & Hm & _). exact Hm.
Defined.

(** Node 0 of the converted model, for an alphabet of at least two
    symbols: its match transitions are those out of the begin state of
    position 0, its insert transitions are the pre-align ones ([N->B] as
    [I->M], [N->N] as [I->I]), its delete transitions stay 0, and its match
    emission is [1] on the first symbol and [0] elsewhere; all of them
    scaled by [nseq].  The insertion self-transition of position 0, written
    first, is overwritten. *)
Theorem converter_begin_node lib bld msa profile :
  let L := Z.of_nat (length profile) in
  1 <= L <= INT_MAX -> (2 <= msa_abc_K msa)%nat ->
  exists h msa',
    profillic_p7_Profillicmodelmaker lib bld msa profile = (eslOK, Some h, msa') /\
    let p0 := position profile 0 in
    hmm_t h !! 0%nat =
      Some [count_of msa (Match_toMatch p0); count_of msa (Match_toInsertion p0);
            count_of msa (Match_toDeletion p0); count_of msa (PreAlign_toBegin p0);
            count_of msa (PreAlign_toPreAlign p0); count_of msa d0; count_of msa d0] /\
    hmm_mat h !! 0%nat =
      Some (count_of msa d1 :: replicate (msa_abc_K msa - 1) (count_of msa d0)).
Proof.
  intros L HL HK. subst L.
  destruct (converter_node lib bld msa profile 0 HL) as (h & msa' & E & HM & Hn).
  exists h, msa'. split; [exact E|]. cbv zeta in Hn |- *.
  apply node_inv in Hn as (Ht & Hm & _).
  set (h0 := p7_hmm_Create (Z.of_nat (length profile)) (msa_abc_K msa)) in *.
  pose proof (fill_counts_node_0 lib profile h0) as H0.
  apply node_inv in H0 as (T0 & M0 & _).
  destruct (node_inv _ _ _ _ _ (node_Create (Z.of_nat (length profile)) (msa_abc_K msa) 0 ltac:(lia))) as (C1 & C2 & _).
  fold h0 in C1, C2.
  rewrite Ht, Hm, T0, M0.
  rewrite (fill_position_0_t lib profile h0 C1 HK).
  rewrite (fill_position_0_mat lib profile h0 C2 ltac:(simpl; lia)).
  simpl. rewrite fmap_replicate. split; reflexivity.
Qed.

Lemma converter_begin_node_witness :
  1 <= Z.of_nat (length dna_profile) <= INT_MAX /\ (2 <= msa_abc_K (msa_of 10 3 4))%nat /\
  exists h msa',
    profillic_p7_Profillicmodelmaker (quiet_library 4) (builder_with p7_EFFN_NONE eslDNA)
      (msa_of 10 3 4) dna_profile = (eslOK, Some h, msa') /\
    hmm_mat h !! 0%nat = Some [f_of_Z 10; f0; f0; f0].
Proof.
  assert (HL : 1 <= Z.of_nat (length dna_profile) <= INT_MAX)
    by (simpl; unfold INT_MAX; lia).
  assert (HK : (2 <= msa_abc_K (msa_of 10 3 4))%nat) by (simpl; lia).
  split; [exact HL|]. split; [exact HK|].
  destruct (converter_begin_node (quiet_library 4) (builder_with p7_EFFN_NONE eslDNA)
              (msa_of 10 3 4) dna_profile HL HK) as (h & msa' & E & _ & Hm).
  exists h, msa'. split; [exact E|]. rewrite Hm. vm_compute. reflexivity.
Defined.

(** The transitions of node [pos], [1 <= pos < L], are those of position
    [pos] of the profile scaled by [nseq]; at the last position, [L - 1],
    the match and the insert transitions are both taken from the post-align
    distribution ([toTerminal] as [->M], [toPostAlign] as [->I]) and [M->D],
    [D->M], [D->D] stay 0. *)
Theorem converter_transitions lib bld msa profile pos :
  let L := Z.of_nat (length profile) in
  1 <= L <= INT_MAX -> (1 <= pos < length profile)%nat ->
  exists h msa',
    profillic_p7_Profillicmodelmaker lib bld msa profile = (eslOK, Some h, msa') /\
    let p := position profile pos in
    hmm_t h !! pos =
      Some (if (pos =? length profile - 1)%nat
            then [count_of msa (PostAlign_toTerminal p); count_of msa (PostAlign_toPostAlign p);
                  count_of msa d0;
                  count_of msa (PostAlign_toTerminal p); count_of msa (PostAlign_toPostAlign p);
                  count_of msa d0; count_of msa d0]
            else [count_of msa (Match_toMatch p); count_of msa (Match_toInsertion p);
                  count_of msa (Match_toDeletion p); count_of msa (Insertion_toMatch p);
                  count_of msa (Insertion_toInsertion p); count_of msa (Deletion_toMatch p);
                  count_of msa (Deletion_toDeletion p)]).
Proof.
  intros L HL Hp. subst L.
  destruct (converter_node lib bld msa profile pos HL) as (h & msa' & E & HM & Hn).
  exists h, msa'. split; [exact E|]. cbv zeta in Hn |- *.
  apply node_inv in Hn as (Ht & _ & _).
  set (h0 := p7_hmm_Create (Z.of_nat (length profile)) (msa_abc_K msa)) in *.
  destruct (fill_counts_node lib profile h0 pos Hp) as (h' & Hsame & _ & Hfill).
  apply node_inv in Hfill as (T1 & _ & _).
  subst h0. rewrite node_Create in Hsame by (rewrite Nat2Z.id; lia).
  apply node_inv in Hsame as (C1 & _ & _).
  rewrite Ht, T1, (fill_position_t lib profile pos h' C1).
  destruct (pos =? length profile - 1)%nat; reflexivity.
Qed.

Lemma converter_transitions_witness :
  1 <= Z.of_nat (length dna_profile) <= INT_MAX /\ (1 <= 2 < length dna_profile)%nat /\
  exists h msa',
    profillic_p7_Profillicmodelmaker (quiet_library 4) (builder_with p7_EFFN_NONE eslDNA)
      (msa_of 10 3 4) dna_profile = (eslOK, Some h, msa') /\
    hmm_t h !! 2%nat = Some [f_of_Z 5; f_of_Z 5; f0; f_of_Z 5; f_of_Z 5; f0; f0].
Proof.
  assert (HL : 1 <= Z.of_nat (length dna_profile) <= INT_MAX)
    by (simpl; unfold INT_MAX; lia).
  assert (Hp : (1 <= 2 < length dna_profile)%nat) by (simpl; lia).
  split; [exact HL|]. split; [exact Hp|].
  destruct (converter_transitions (quiet_library 4) (builder_with p7_EFFN_NONE eslDNA)
              (msa_of 10 3 4) dna_profile 2 HL Hp) as (h & msa' & E & Ht).
  exists h, msa'. split; [exact E|]. rewrite Ht. vm_compute. reflexivity.
Defined.

Lemma digitises_quiet : digitises (quiet_library 4) 4.
Proof. split; simpl; intros; assumption. Qed.

(** When the residues are digitised to distinct symbols of the alphabet,
    the insert emission of node [pos] at the symbol of residue [r] is the
    insertion emission of position [pos] for [r], scaled by [nseq], for
    every position of the profile; from position 1 on the match emission is
    the match emission of that position likewise. *)
Theorem converter_emissions lib bld msa profile pos r :
  let L := Z.of_nat (length profile) in
  1 <= L <= INT_MAX -> digitises lib (msa_abc_K msa) ->
  (pos < length profile)%nat -> (r < ValueSize lib)%nat ->
  exists h msa',
    profillic_p7_Profillicmodelmaker lib bld msa profile = (eslOK, Some h, msa') /\
    let p := position profile pos in
    let x := esl_abc_DigitizeSymbol lib r in
    rd2 f0 (hmm_ins h) pos x = count_of msa (emission (Insertion_emission p) r) /\
    ((1 <= pos)%nat ->
     rd2 f0 (hmm_mat h) pos x = count_of msa (emission (Match_emission p) r)).
Proof.
  intros L HL Hd Hp Hr. subst L.
  destruct (converter_node lib bld msa profile pos HL) as (h & msa' & E & HM & Hn).
  exists h, msa'. split; [exact E|]. cbv zeta in Hn |- *.
  apply node_inv in Hn as (_ & Hm & Hi).
  set (h0 := p7_hmm_Create (Z.of_nat (length profile)) (msa_abc_K msa)) in *.
  assert (HC : forall k, (k < length profile)%nat ->
            node h0 k = (Some (replicate 7 f0), Some (replicate (msa_abc_K msa) f0),
                         Some (replicate (msa_abc_K msa) f0))).
  { intros k Hk. subst h0. apply node_Create. rewrite Nat2Z.id. lia. }
  unfold rd2. rewrite Hm, Hi.
  destruct (decide (pos = 0%nat)) as [->|Hne].
  - split; [|lia].
    pose proof (fill_counts_node_0 lib profile h0) as H0.
    apply node_inv in H0 as (_ & _ & I0).
    destruct (node_inv _ _ _ _ _ (HC 0%nat Hp)) as (_ & _ & C3).
    destruct (fill_position_0_ins lib profile h0 _ _ Hd C3 (length_replicate _ _))
      as (ri' & Ei & Ri).
    rewrite I0, Ei. simpl. rewrite list_lookup_fmap, (Ri r Hr). reflexivity.
  - destruct (fill_counts_node lib profile h0 pos ltac:(lia)) as (h' & Hsame & _ & Hfill).
    apply node_inv in Hfill as (_ & M1 & I1).
    rewrite (HC pos Hp) in Hsame. apply node_inv in Hsame as (_ & C2 & C3).
    destruct (fill_position_emissions lib profile pos h' _ _ _ Hd C2 (length_replicate _ _)
                C3 (length_replicate _ _)) as (rm' & ri' & Em & Ei & R).
    destruct (R r Hr) as [Rm Ri].
    rewrite M1, I1, Em, Ei. simpl. rewrite !list_lookup_fmap, Rm, Ri. split; reflexivity.
Qed.

Lemma converter_emissions_witness :
  1 <= Z.of_nat (length dna_profile) <= INT_MAX /\
  digitises (quiet_library 4) (msa_abc_K (msa_of 10 3 4)) /\
  (1 < length dna_profile)%nat /\ (2 < ValueSize (quiet_library 4))%nat /\
  exists h msa',
    profillic_p7_Profillicmodelmaker (quiet_library 4) (builder_with p7_EFFN_NONE eslDNA)
      (msa_of 10 3 4) dna_profile = (eslOK, Some h, msa') /\
    rd2 f0 (hmm_ins h) 1 2 = count_of (msa_of 10 3 4) quarter.
Proof.
  assert (HL : 1 <= Z.of_nat (length dna_profile) <= INT_MAX)
    by (simpl; unfold INT_MAX; lia).
  assert (Hp : (1 < length dna_profile)%nat) by (simpl; lia).
  assert (Hr : (2 < ValueSize (quiet_library 4))%nat) by (simpl; lia).
  split; [exact HL|]. split; [exact digitises_quiet|]. split; [exact Hp|]. split; [exact Hr|].
  destruct (converter_emissions (quiet_library 4) (builder_with p7_EFFN_NONE eslDNA)
              (msa_of 10 3 4) dna_profile 1 2 HL digitises_quiet Hp Hr)
    as (h & msa' & E & Hi & _).
  exists h, msa'. split; [exact E|]. exact Hi.
Defined.

(** ** Annotation *)

Lemma has_flag_lor_l flags bit b : has_flag flags b = true -> has_flag (Z.lor flags bit) b = true.
Proof.
  unfold has_flag. rewrite !negb_true_iff, !Z.eqb_neq. intros H E. apply H.
  apply Z.bits_inj'. intros n Hn. apply (f_equal (fun z => Z.testbit z n)) in E.
  rewrite Z.land_spec, Z.lor_spec, Z.bits_0 in E. rewrite Z.land_spec, Z.bits_0.
  destruct (Z.testbit flags n), (Z.testbit b n), (Z.testbit bit n); simpl in *; congruence.
Qed.

Lemma has_flag_lor_r flags bit : bit <> 0 -> has_flag (Z.lor flags bit) bit = true.
Proof.
  unfold has_flag. rewrite negb_true_iff, Z.eqb_neq. intros H E. apply H.
  apply Z.bits_inj'. intros n Hn. apply (f_equal (fun z => Z.testbit z n)) in E.
  rewrite Z.land_spec, Z.lor_spec, Z.bits_0 in E. rewrite Z.bits_0.
  destruct (Z.testbit flags n), (Z.testbit bit n); simpl in *; congruence.
Qed.

Lemma substring_all s : substring 0 (String.length s) s = s.
Proof. induction s as [|c s IH]; simpl; [reflexivity|]. rewrite IH. reflexivity. Qed.

Lemma annotation_line_fits m s :
  line_fits m (Some s) -> annotation_line m s = String " "%char s.
Proof.
  unfold line_fits, annotation_line. intros <-. rewrite substring_all. reflexivity.
Qed.

(** [profillic_annotate_model] on an alignment whose annotation fits the
    model ([annotation_fits]: no more columns than the model has nodes, and
    [alen] characters in every annotation line): it succeeds; the model's
    reference line is a blank followed by the alignment's (the model's own
    line is kept when the alignment has none); its map has [alen + 1]
    entries, within the [M + 1] allocated, and is the identity,
    [map[k] = k]; the flag [p7H_MAP] is set and no flag that was set is
    cleared. *)
Theorem annotate_model_map h m :
  annotation_fits h m ->
  exists h' l,
    profillic_annotate_model h m = (eslOK, h') /\
    hmm_rf h' = match msa_rf m with
                | Some rf => Some (String " "%char rf)
                | None => hmm_rf h
                end /\
    hmm_map h' = Some l /\
    length l = S (Z.to_nat (msa_alen m)) /\
    (length l <= Z.to_nat (hmm_M h) + 1)%nat /\
    (forall k, 0 <= k <= msa_alen m -> l !! Z.to_nat k = Some k) /\
    has_flag (hmm_flags h') p7H_MAP = true /\
    (forall b, has_flag (hmm_flags h) b = true -> has_flag (hmm_flags h') b = true).
Proof.
  intros (Ha & Frf & _ & _).
  unfold profillic_annotate_model. eexists. exists (0 :: seqZ 1 (msa_alen m)).
  split; [reflexivity|]. split; [|split; [|split; [|split; [|split; [|split]]]]].
  - destruct (msa_rf m) as [rf|] eqn:E.
    + rewrite <- (annotation_line_fits m rf Frf).
      destruct (msa_ss_cons m), (msa_sa_cons m); reflexivity.
    + destruct (msa_ss_cons m), (msa_sa_cons m); reflexivity.
  - reflexivity.
  - simpl. rewrite length_seqZ. reflexivity.
  - simpl. rewrite length_seqZ. lia.
  - intros k Hk. destruct (decide (k = 0)) as [->|Hne]; [reflexivity|].
    replace (Z.to_nat k) with (S (Z.to_nat (k - 1))) by lia. simpl.
    rewrite lookup_seqZ_lt by lia. f_equal. lia.
  - cbn [hmm_flags set_flags]. apply has_flag_lor_r. discriminate.
  - intros b Hb. cbn [hmm_flags set_flags]. apply has_flag_lor_l.
    destruct (msa_rf m), (msa_ss_cons m), (msa_sa_cons m); cbn [hmm_flags set_flags set_rf set_cs set_ca set_map];
      repeat apply has_flag_lor_l; exact Hb.
Qed.

Lemma annotate_model_map_witness :
  annotation_fits (count_hmm 10) annotated_msa /\
  exists h' l,
    profillic_annotate_model (count_hmm 10) annotated_msa = (eslOK, h') /\
    hmm_rf h' = Some " x"%string /\
    hmm_map h' = Some l /\ length l = 2%nat /\ l !! 1%nat = Some 1.
Proof.
  assert (H : annotation_fits (count_hmm 10) annotated_msa).
  { split; [simpl; lia|]. split; [reflexivity|]. split; exact I. }
  split; [exact H|].
  destruct (annotate_model_map (count_hmm 10) annotated_msa H)
    as (h' & l & E & Erf & Em & El & _ & Ek & _).
  exists h', l. split; [exact E|]. split; [exact Erf|]. split; [exact Em|].
  split; [exact El|]. exact (Ek 1 ltac:(simpl; lia)).
Defined.

(** The converted model carries the reference line the alignment had on
    entry, and the flag [p7H_RF] only if there was one; the line of all
    ['x'] is written to the alignment afterwards and does not reach the
    model.  [nseq] and [eff_nseq] are the alignment's number of
    sequences. *)
Theorem converter_annotation lib bld msa profile :
  let L := Z.of_nat (length profile) in
  1 <= L <= INT_MAX ->
  exists h msa',
    profillic_p7_Profillicmodelmaker lib bld msa profile = (eslOK, Some h, msa') /\
    hmm_rf h = annotation_line msa <$> msa_rf msa /\
    has_flag (hmm_flags h) p7H_RF = bool_decide (is_Some (msa_rf msa)) /\
    msa_rf msa' = Some (all_x (Z.to_nat (msa_alen msa))) /\
    hmm_nseq h = msa_nseq msa /\
    hmm_eff_nseq h = f_of_Z (msa_nseq msa).
Proof.
  intros L HL. unfold profillic_p7_Profillicmodelmaker.
  fold L. rewrite static_cast_int_id by lia.
  destruct (L =? 0) eqn:E; [apply Z.eqb_eq in E; lia|]. cbv zeta.
  unfold profillic_annotate_model. cbv zeta.
  eexists. eexists. split; [reflexivity|].
  assert (F : (hmm_flags (fill_counts lib profile (p7_hmm_Create L (msa_abc_K msa))),
               hmm_rf (fill_counts lib profile (p7_hmm_Create L (msa_abc_K msa)))) = (0, None)).
  { apply (for_lt_pres (fun s => (hmm_flags s, hmm_rf s) = (0, None))).
    - unfold fill_position_0. cbv zeta.
      apply (for_lt_pres (fun s => (hmm_flags s, hmm_rf s) = (0, None))); [|intros i s Hs; exact Hs].
      apply (for_lt_pres (fun s => (hmm_flags s, hmm_rf s) = (0, None))); [|intros i s Hs; exact Hs].
      reflexivity.
    - intros i s Hs. unfold fill_position. cbv zeta.
      assert ((fun s => (hmm_flags s, hmm_rf s) = (0, None)) (for_lt 0 (ValueSize lib) (fun res_i h0 =>
                set_ins_at (set_mat_at h0 i (esl_abc_DigitizeSymbol lib res_i)
                   (f_of_d (emission (Match_emission (position profile i)) res_i)))
                   i (esl_abc_DigitizeSymbol lib res_i)
                   (f_of_d (emission (Insertion_emission (position profile i)) res_i))) s)) as G.
      { apply (for_lt_pres (fun s => (hmm_flags s, hmm_rf s) = (0, None))); [exact Hs|]. intros j s' Hs'. exact Hs'. }
      cbv beta in G.
      destruct (i =? length profile - 1)%nat; exact G. }
  destruct (msa_rf msa), (msa_ss_cons msa), (msa_sa_cons msa);
    cbn [hmm_rf hmm_flags hmm_nseq hmm_eff_nseq msa_rf set_msa_rf p7_hmm_Scale set_ins set_mat set_t
         set_flags set_map set_rf set_cs set_ca set_nseq set_eff_nseq fmap option_fmap option_map];
    injection F as F1 F2; rewrite ?F1, ?F2; repeat split; reflexivity.
Qed.

Lemma converter_annotation_witness :
  1 <= Z.of_nat (length dna_profile) <= INT_MAX /\
  exists h msa',
    profillic_p7_Profillicmodelmaker (quiet_library 4) (builder_with p7_EFFN_NONE eslDNA)
      (msa_of 10 3 4) dna_profile = (eslOK, Some h, msa') /\
    hmm_rf h = None /\ msa_rf msa' = Some "xxx"%string.
Proof.
  assert (HL : 1 <= Z.of_nat (length dna_profile) <= INT_MAX)
    by (simpl; unfold INT_MAX; lia).
  split; [exact HL|].
  destruct (converter_annotation (quiet_library 4) (builder_with p7_EFFN_NONE eslDNA)
              (msa_of 10 3 4) dna_profile HL) as (h & msa' & E & Hrf & _ & Hx & _).
  exists h, msa'. split; [exact E|]. split; [exact Hrf|exact Hx].
Defined.

(** ** The steps of the pipeline *)

Lemma fmul_nan x : fmul x S754_nan = S754_nan.
Proof. destruct x as [| | |s m e]; reflexivity. Qed.

(** With the strategy "None" and [nseq = 0] the scale factor is [0 / 0]:
    every transition and emission count of the model becomes NaN. *)
Theorem effn_none_zero_nseq lib bld msa h bg :
  bld_effn_strategy bld = p7_EFFN_NONE ->
  hmm_nseq h = 0 -> msa_nseq msa = 0 ->
  exists h', effective_seqnumber lib bld msa h bg = inr h' /\
    hmm_t h' = map (map (fun _ => S754_nan)) (hmm_t h) /\
    hmm_mat h' = map (map (fun _ => S754_nan)) (hmm_mat h) /\
    hmm_ins h' = map (map (fun _ => S754_nan)) (hmm_ins h).
Proof.
  intros Hs Hn Hm. unfold effective_seqnumber. rewrite Hs, Hm. cbn [and_then].
  eexists. split; [reflexivity|].
  unfold p7_hmm_Scale. cbn [hmm_eff_nseq hmm_nseq set_eff_nseq hmm_t hmm_mat hmm_ins set_t set_mat set_ins].
  rewrite Hn.
  replace (f_of_d (ddiv (d_of_f (f_of_Z 0)) (d_of_Z 0))) with S754_nan
    by (vm_compute; reflexivity).
  unfold esl_vec_FScale.
  repeat split; apply map_ext; intros r; apply map_ext; intros x; apply fmul_nan.
Qed.

Lemma effn_none_zero_nseq_witness :
  bld_effn_strategy (builder_with p7_EFFN_NONE eslDNA) = p7_EFFN_NONE /\
  hmm_nseq (count_hmm 0) = 0 /\ msa_nseq (msa_of 0 1 4) = 0 /\
  exists h', effective_seqnumber (quiet_library 4) (builder_with p7_EFFN_NONE eslDNA)
               (msa_of 0 1 4) (count_hmm 0) no_bg = inr h' /\
    tr h' 1 p7H_MM = S754_nan.
Proof.
  split; [reflexivity|]. split; [reflexivity|]. split; [reflexivity|].
  destruct (effn_none_zero_nseq (quiet_library 4) (builder_with p7_EFFN_NONE eslDNA)
              (msa_of 0 1 4) (count_hmm 0) no_bg eq_refl eq_refl eq_refl)
    as (h' & E & Ht & _).
  exists h'. split; [exact E|]. unfold tr. rewrite Ht. reflexivity.
Defined.

Lemma shape_upd_row n w (a : list (list float32)) k f :
  shape n w a -> (forall r, length r = w -> length (f r) = w) -> shape n w (upd_row a k f).
Proof.
  intros [Hl Hr] Hf. unfold upd_row. destruct (a !! k) as [r|] eqn:E; [|split; assumption].
  split; [rewrite length_insert; exact Hl|].
  apply Forall_insert; [exact Hr|]. apply Hf.
  eapply Forall_lookup_1 in Hr; eauto.
Qed.

Lemma length_FNorm_at lib off n row :
  (forall v, length (esl_vec_FNorm lib v) = length v) ->
  length (FNorm_at lib off n row) = length row.
Proof.
  intros H. unfold FNorm_at. rewrite !length_app, H, !length_take, !length_drop. lia.
Qed.

Lemma shape_row {A} n w (a : list (list A)) k :
  shape n w a -> (k < n)%nat -> exists r, a !! k = Some r /\ length r = w.
Proof.
  intros [Hl Hr] Hk. destruct (lookup_lt_is_Some_2 a k ltac:(lia)) as [r E].
  exists r. split; [exact E|]. eapply Forall_lookup_1 in Hr; eauto.
Qed.

Lemma f_of_d_one : f_of_d d1 = f1.
Proof. vm_compute. reflexivity. Qed.

Lemma plain_FNorm_length v : length (plain_FNorm v) = length v.
Proof. unfold plain_FNorm. destruct (negb _); apply length_map. Qed.

(** Without priors, whatever the normalisation of the library does to the
    rows (as long as it keeps their length), the parameterised model obeys
    the conventions of nodes 0 and [M]: [t[0][DM] = t[M][DM] = 1],
    [t[0][DD] = t[M][DD] = 0] and [mat[0] = (1, 0, ..., 0)]. *)
Theorem parameterize_conventions lib bld h :
  (forall v, length (esl_vec_FNorm lib v) = length v) ->
  (1 <= hmm_K h)%nat ->
  shape (S (Z.to_nat (hmm_M h))) 7 (hmm_t h) ->
  shape (S (Z.to_nat (hmm_M h))) (hmm_K h) (hmm_mat h) ->
  exists h', profillic_parameterize lib bld h false = inr h' /\
    let M := Z.to_nat (hmm_M h) in
    tr h' 0 p7H_DM = f1 /\ tr h' 0 p7H_DD = f0 /\
    tr h' M p7H_DM = f1 /\ tr h' M p7H_DD = f0 /\
    hmm_mat h' !! 0%nat = Some (f1 :: replicate (hmm_K h - 1) f0).
Proof.
  intros HN HK St Sm. unfold profillic_parameterize, normalize_counts. cbv zeta.
  eexists. split; [reflexivity|].
  set (M := Z.to_nat (hmm_M h)) in *.
  assert (Hup : forall off n a k, shape (S M) 7 a -> shape (S M) 7 (upd_row a k (FNorm_at lib off n))).
  { intros off n a k Ha. apply shape_upd_row; [exact Ha|].
    intros r Hr. rewrite length_FNorm_at by exact HN. exact Hr. }
  set (t1 := for_lt 0 M _ (hmm_t h)).
  assert (S1 : shape (S M) 7 t1).
  { subst t1. apply for_lt_pres; [exact St|]. intros i s Hs. apply Hup, Hs. }
  set (t2 := upd_row (wr2 t1 M p7H_MD _) M _).
  assert (S2 : shape (S M) 7 t2) by (subst t2; apply Hup, shape_wr2, S1).
  set (t3 := for_k 0 M _ t2).
  assert (S3 : shape (S M) 7 t3).
  { subst t3. apply for_k_pres; [exact S2|]. intros i s Hs. apply Hup, Hs. }
  set (t4 := for_lt 1 M _ t3).
  assert (S4 : shape (S M) 7 t4).
  { subst t4. apply for_lt_pres; [exact S3|]. intros i s Hs. apply Hup, Hs. }
  set (t5 := wr2 t4 M p7H_DM _).
  assert (S5 : shape (S M) 7 t5) by (subst t5; apply shape_wr2, S4).
  assert (R5 : rd2 f0 t5 M p7H_DM = f1).
  { subst t5. rewrite (rd2_wr2_eq f0 (S M) 7) by (try exact S4; unfold p7H_DM; lia).
    apply f_of_d_one. }
  rewrite R5.
  set (t6 := wr2 t5 0 p7H_DM f1).
  assert (S6 : shape (S M) 7 t6) by (subst t6; apply shape_wr2, S5).
  set (t7 := wr2 t6 M p7H_DD _).
  assert (S7 : shape (S M) 7 t7) by (subst t7; apply shape_wr2, S6).
  assert (R7 : rd2 f0 t7 M p7H_DD = f0).
  { subst t7. rewrite (rd2_wr2_eq f0 (S M) 7) by (try exact S6; unfold p7H_DD; lia).
    reflexivity. }
  rewrite R7.
  unfold tr. cbn [hmm_t hmm_mat set_ins set_mat set_t].
  split; [|split; [|split; [|split]]].
  - rewrite rd2_wr2_ne by (right; discriminate).
    subst t7. rewrite rd2_wr2_ne by (right; discriminate).
    subst t6. rewrite (rd2_wr2_eq f0 (S M) 7) by (try exact S5; unfold p7H_DM; lia).
    reflexivity.
  - rewrite (rd2_wr2_eq f0 (S M) 7) by (try exact S7; unfold p7H_DD; lia). reflexivity.
  - rewrite rd2_wr2_ne by (right; discriminate).
    subst t7. rewrite rd2_wr2_ne by (right; discriminate).
    subst t6. destruct (decide (M = 0%nat)) as [E0|Hne].
    + rewrite E0. rewrite (rd2_wr2_eq f0 (S M) 7) by (try exact S5; unfold p7H_DM; lia).
      reflexivity.
    + rewrite rd2_wr2_ne by (left; lia). exact R5.
  - destruct (decide (M = 0%nat)) as [E0|Hne].
    + rewrite E0. rewrite (rd2_wr2_eq f0 (S M) 7) by (try exact S7; unfold p7H_DD; lia).
      reflexivity.
    + rewrite rd2_wr2_ne by (left; lia). exact R7.
  - set (m1 := for_k 1 M _ (hmm_mat h)).
    assert (Sm1 : shape (S M) (hmm_K h) m1).
    { subst m1. apply for_k_pres; [exact Sm|]. intros i s Hs.
      apply shape_upd_row; [exact Hs|].
      intros r Hr. rewrite length_FNorm_at by exact HN. exact Hr. }
    destruct (shape_row _ _ m1 0 Sm1 ltac:(lia)) as (r & Er & Lr).
    assert (E2 : upd_row m1 0 (FSet_0 (hmm_K h)) !! 0%nat = Some (replicate (hmm_K h) f0)).
    { unfold upd_row. rewrite Er. rewrite list_lookup_insert_eq by (eapply lookup_lt_Some, Er).
      f_equal. unfold FSet_0. rewrite Lr, Nat.min_id, drop_ge by lia. apply app_nil_r. }
    rewrite (lookup_wr2_eq _ _ _ _ _ E2). rewrite f_of_d_one.
    destruct (hmm_K h) as [|K]; [lia|]. simpl. rewrite Nat.sub_0_r. reflexivity.
Qed.

Lemma parameterize_conventions_witness :
  (forall v, length (esl_vec_FNorm (quiet_library 4) v) = length v) /\
  (1 <= hmm_K (count_hmm 10))%nat /\
  exists h', profillic_parameterize (quiet_library 4) (builder_with p7_EFFN_NONE eslDNA)
               (count_hmm 10) false = inr h' /\
    tr h' 1 p7H_DM = f1 /\ hmm_mat h' !! 0%nat = Some [f1; f0; f0; f0].
Proof.
  assert (H1 : forall v, length (esl_vec_FNorm (quiet_library 4) v) = length v)
    by exact plain_FNorm_length.
  assert (H2 : (1 <= hmm_K (count_hmm 10))%nat) by (simpl; lia).
  assert (H3 : shape (S (Z.to_nat (hmm_M (count_hmm 10)))) 7 (hmm_t (count_hmm 10)))
    by (split; [reflexivity|repeat constructor]).
  assert (H4 : shape (S (Z.to_nat (hmm_M (count_hmm 10)))) (hmm_K (count_hmm 10))
                 (hmm_mat (count_hmm 10)))
    by (split; [reflexivity|repeat constructor]).
  split; [exact H1|]. split; [exact H2|].
  destruct (parameterize_conventions (quiet_library 4) (builder_with p7_EFFN_NONE eslDNA)
              (count_hmm 10) H1 H2 H3 H4) as (h' & E & _ & _ & A & _ & B).
  exists h'. split; [exact E|]. split; [exact A|exact B].
Defined.

(** A loop that overwrites the first [n] entries of a row. *)
Lemma overwrite_row {A} (v : nat -> A) (row0 : list A) n :
  (n <= length row0)%nat ->
  fold_left (fun row j => <[j := v j]> row) (seq 0 n) row0 = map v (seq 0 n) ++ drop n row0.
Proof.
  induction n as [|n IH]; intros Hn; [rewrite drop_0; reflexivity|].
  rewrite seq_S, fold_left_app, IH by lia. simpl.
  rewrite map_app. simpl.
  rewrite insert_app_r_alt by (rewrite length_map, length_seq; lia).
  rewrite length_map, length_seq, Nat.sub_diag, <- app_assoc. f_equal.
  destruct (lookup_lt_is_Some_2 row0 n ltac:(lia)) as [x Hx].
  rewrite (drop_S _ _ _ Hx). reflexivity.
Qed.

Lemma mask_row bg (h : P7_HMM) i row :
  hmm_mat h !! i = Some row -> length row = hmm_K h ->
  let h' := for_lt 0 (hmm_K h) (fun j h0 => set_mat_at h0 i j (default f0 (bg_f bg !! j))) h in
  hmm_mat h' !! i = Some (background_row bg (hmm_K h)) /\
  (forall k, k <> i -> hmm_mat h' !! k = hmm_mat h !! k) /\
  hmm_t h' = hmm_t h /\ hmm_ins h' = hmm_ins h /\ hmm_K h' = hmm_K h /\
  length (hmm_mat h') = length (hmm_mat h).
Proof.
  intros Hr Hl h'. split.
  - subst h'. unfold for_lt. rewrite Nat.sub_0_r.
    rewrite (loop_mat_row _ (fun row j => <[j := default f0 (bg_f bg !! j)]> row) i
               (fun j s r H => set_mat_at_row s i j _ r H) _ _ _ Hr).
    rewrite overwrite_row by lia. rewrite drop_ge by lia. rewrite app_nil_r. reflexivity.
  - subst h'.
    apply (for_lt_pres (fun s => (forall k, k <> i -> hmm_mat s !! k = hmm_mat h !! k) /\
             hmm_t s = hmm_t h /\ hmm_ins s = hmm_ins h /\ hmm_K s = hmm_K h /\
             length (hmm_mat s) = length (hmm_mat h))).
    + repeat split.
    + intros j s (A & B & C & D & E). repeat split; try assumption.
      * intros k Hk. cbn [hmm_mat set_mat_at set_mat].
        rewrite lookup_wr2_ne by congruence. apply A, Hk.
      * cbn [hmm_mat set_mat_at set_mat]. rewrite length_wr2. exact E.
Qed.

(** Forcing masked positions to the background rewrites the match
    emissions of the masked nodes [1 .. M-1] to the background frequencies
    and nothing else: node 0 and node [M] keep their emissions even when
    masked, and transitions and insert emissions are untouched. *)
Theorem mask_to_background_rows bg h mm :
  hmm_mm h = Some mm ->
  shape (S (Z.to_nat (hmm_M h))) (hmm_K h) (hmm_mat h) ->
  let h' := mask_to_background bg h in
  hmm_t h' = hmm_t h /\ hmm_ins h' = hmm_ins h /\
  forall i,
    hmm_mat h' !! i =
      if (1 <=? i)%nat && (i <? Z.to_nat (hmm_M h))%nat && default false (mm !! i)
      then Some (background_row bg (hmm_K h))
      else hmm_mat h !! i.
Proof.
  intros Hmm Sm h'. subst h'. unfold mask_to_background. rewrite Hmm.
  set (M := Z.to_nat (hmm_M h)) in *.
  destruct (decide (M = 0%nat)) as [E0|HM].
  { rewrite E0. unfold for_lt. cbn [seq Nat.sub fold_left]. repeat split. intros i.
    replace (i <? 0)%nat with false by (symmetry; apply Nat.ltb_ge; lia).
    rewrite andb_false_r. reflexivity. }
  set (P := fun (n : nat) (s : P7_HMM) =>
    hmm_t s = hmm_t h /\ hmm_ins s = hmm_ins h /\ hmm_K s = hmm_K h /\
    length (hmm_mat s) = length (hmm_mat h) /\
    forall i, hmm_mat s !! i =
      if (1 <=? i)%nat && (i <? n)%nat && default false (mm !! i)
      then Some (background_row bg (hmm_K h)) else hmm_mat h !! i).
  enough (P M (for_lt 1 M (fun i h0 =>
            if default false (mm !! i)
            then for_lt 0 (hmm_K h0) (fun j h1 => set_mat_at h1 i j (default f0 (bg_f bg !! j))) h0
            else h0) h)) as (A & B & _ & _ & C).
  { split; [exact A|]. split; [exact B|exact C]. }
  apply (for_lt_inv P); [lia| |].
  - repeat split. intros i.
    destruct (1 <=? i)%nat eqn:E1, (i <? 1)%nat eqn:E2; simpl; try reflexivity.
    apply Nat.leb_le in E1. apply Nat.ltb_lt in E2. lia.
  - intros n s Hn (A & B & C & D & F).
    destruct (default false (mm !! n)) eqn:En.
    + destruct (shape_row _ _ (hmm_mat h) n Sm ltac:(lia)) as (r0 & Er0 & Lr0).
      assert (Hrow : exists row, hmm_mat s !! n = Some row /\ length row = hmm_K s).
      { specialize (F n). replace (n <? n)%nat with false in F by (symmetry; apply Nat.ltb_irrefl).
        rewrite andb_false_r in F. simpl in F. exists r0. rewrite F, C. auto. }
      destruct Hrow as (row & Er & Lr).
      destruct (mask_row bg s n row Er Lr) as (G1 & G2 & G3 & G4 & G5 & G6).
      split; [congruence|]. split; [congruence|]. split; [congruence|].
      split; [congruence|]. intros i.
      destruct (decide (i = n)) as [->|Hne].
      * rewrite G1, C.
        replace (1 <=? n)%nat with true by (symmetry; apply Nat.leb_le; lia).
        replace (n <? S n)%nat with true by (symmetry; apply Nat.ltb_lt; lia).
        rewrite En. reflexivity.
      * rewrite G2 by exact Hne. rewrite F.
        replace (i <? S n)%nat with (i <? n)%nat; [reflexivity|].
        destruct (Nat.ltb_spec i n), (Nat.ltb_spec i (S n)); try reflexivity; lia.
    + split; [exact A|]. split; [exact B|]. split; [exact C|]. split; [exact D|].
      intros i. rewrite F.
      destruct (decide (i = n)) as [->|Hne].
      * rewrite En, !andb_false_r. reflexivity.
      * replace (i <? S n)%nat with (i <? n)%nat; [reflexivity|].
        destruct (Nat.ltb_spec i n), (Nat.ltb_spec i (S n)); try reflexivity; lia.
Qed.

Lemma mask_to_background_rows_witness :
  hmm_mm masked_hmm = Some [false; true; false; true] /\
  hmm_mat (mask_to_background no_bg masked_hmm) !! 1%nat = Some (background_row no_bg 4) /\
  hmm_mat (mask_to_background no_bg masked_hmm) !! 3%nat = Some [f0; f0; f1; f0].
Proof.
  assert (Hs : shape (S (Z.to_nat (hmm_M masked_hmm))) (hmm_K masked_hmm) (hmm_mat masked_hmm))
    by (split; [reflexivity|repeat constructor]).
  destruct (mask_to_background_rows no_bg masked_hmm [false; true; false; true] eq_refl Hs)
    as (_ & _ & H).
  split; [reflexivity|]. split; [exact (H 1%nat)|exact (H 3%nat)].
Defined.

(** With [max_insert_len > 0] the insert self-loop of every node
    [1 .. M-1] becomes the smaller of itself and [max_insert_len * t[i][MI]];
    no other transition changes, nodes 0 and [M] included, and no
    emission. *)
Theorem cap_inserts_rows bld h :
  shape (S (Z.to_nat (hmm_M h))) 7 (hmm_t h) ->
  let h' := cap_inserts bld h in
  hmm_mat h' = hmm_mat h /\ hmm_ins h' = hmm_ins h /\
  forall i j,
    tr h' i j =
      if (bld_max_insert_len bld >? 0) && (1 <=? i)%nat && (i <? Z.to_nat (hmm_M h))%nat
         && (j =? p7H_II)%nat
      then ESL_MIN (tr h i p7H_II)
                   (fmul (f_of_Z (bld_max_insert_len bld)) (tr h i p7H_MI))
      else tr h i j.
Proof.
  intros St h'. subst h'. unfold cap_inserts.
  destruct (bld_max_insert_len bld >? 0) eqn:Ec; [|repeat split].
  set (M := Z.to_nat (hmm_M h)) in *.
  destruct (decide (M = 0%nat)) as [E0|HM].
  { rewrite E0. unfold for_lt. cbn [seq Nat.sub fold_left]. repeat split. intros i j.
    replace (i <? 0)%nat with false by (symmetry; apply Nat.ltb_ge; lia).
    rewrite andb_false_r. reflexivity. }
  set (c := f_of_Z (bld_max_insert_len bld)).
  set (P := fun (n : nat) (s : P7_HMM) =>
    hmm_mat s = hmm_mat h /\ hmm_ins s = hmm_ins h /\ shape (S M) 7 (hmm_t s) /\
    forall i j, tr s i j =
      if true && (1 <=? i)%nat && (i <? n)%nat && (j =? p7H_II)%nat
      then ESL_MIN (tr h i p7H_II) (fmul c (tr h i p7H_MI)) else tr h i j).
  enough (P M (for_lt 1 M (fun i h0 =>
            set_tr h0 i p7H_II (ESL_MIN (tr h0 i p7H_II) (fmul c (tr h0 i p7H_MI)))) h))
    as (A & B & _ & C).
  { split; [exact A|]. split; [exact B|exact C]. }
  apply (for_lt_inv P); [lia| |].
  - repeat split; try apply St. intros i j.
    destruct (1 <=? i)%nat eqn:E1, (i <? 1)%nat eqn:E2; simpl; try reflexivity.
    apply Nat.leb_le in E1. apply Nat.ltb_lt in E2. lia.
  - intros n s Hn (A & B & Ss & F).
    split; [exact A|]. split; [exact B|]. split; [apply shape_wr2, Ss|].
    intros i j. unfold tr at 1. cbn [hmm_t set_tr set_t].
    assert (Fn : forall j', tr s n j' = tr h n j').
    { intros j'. rewrite F. replace (n <? n)%nat with false by (symmetry; apply Nat.ltb_irrefl).
      rewrite andb_false_r. reflexivity. }
    rewrite !Fn.
    destruct (decide (i = n /\ j = p7H_II)) as [[-> ->]|Hne].
    + rewrite (rd2_wr2_eq f0 (S M) 7) by (try exact Ss; unfold p7H_II; lia).
      replace (1 <=? n)%nat with true by (symmetry; apply Nat.leb_le; lia).
      replace (n <? S n)%nat with true by (symmetry; apply Nat.ltb_lt; lia).
      reflexivity.
    + rewrite rd2_wr2_ne by (destruct (decide (n = i)), (decide (p7H_II = j)); subst; tauto).
      fold (tr s i j). rewrite F.
      destruct (decide (i = n)) as [->|Hi].
      * replace (n <? n)%nat with false by (symmetry; apply Nat.ltb_irrefl).
        replace (j =? p7H_II)%nat with false
          by (symmetry; apply Nat.eqb_neq; intros ->; tauto).
        rewrite !andb_false_r. reflexivity.
      * replace (i <? S n)%nat with (i <? n)%nat; [reflexivity|].
        destruct (Nat.ltb_spec i n), (Nat.ltb_spec i (S n)); try reflexivity; lia.
Qed.

Lemma cap_inserts_rows_witness :
  shape (S (Z.to_nat (hmm_M dyadic_hmm))) 7 (hmm_t dyadic_hmm) /\
  tr (cap_inserts (capping_builder 5) dyadic_hmm) 2 p7H_II = half /\
  tr (cap_inserts (capping_builder 5) dyadic_hmm) 1 p7H_II = f0.
Proof.
  assert (Hs : shape (S (Z.to_nat (hmm_M dyadic_hmm))) 7 (hmm_t dyadic_hmm))
    by (split; [reflexivity|repeat constructor]).
  destruct (cap_inserts_rows (capping_builder 5) dyadic_hmm Hs) as (_ & _ & H).
  split; [exact Hs|]. split; [rewrite (H 2%nat p7H_II)|rewrite (H 1%nat p7H_II)];
    vm_compute; reflexivity.
Defined.

(** A model the builder returns has checksum 0 with the flag
    [p7H_CHKSUM] set (no checksum of the input is computed); for a DNA or
    RNA alphabet its [max_length] is the window length [w_len] when that is
    positive, and [4 * M] when it is not and [w_beta] is 0. *)
Theorem builder_result_window lib bld msa profile_ptr bg want use_priors h msa' :
  profillic_p7_Builder lib bld msa profile_ptr bg want use_priors = Built h msa' ->
  hmm_checksum h = 0 /\ has_flag (hmm_flags h) p7H_CHKSUM = true /\
  (bld_abc_type bld = eslDNA \/ bld_abc_type bld = eslRNA ->
     (bld_w_len bld > 0 -> hmm_max_length h = bld_w_len bld) /\
     (bld_w_len bld <= 0 -> deqb (bld_w_beta bld) d0 = true ->
        hmm_max_length h = hmm_M h * 4)).
Proof.
  unfold profillic_p7_Builder.
  destruct (profillic_build_model lib bld msa profile_ptr) as [[st [h0|]] msa0];
    destruct st; try discriminate.
  destruct (build_steps lib bld msa0 bg want use_priors h0) as [st|h1]; [discriminate|].
  cbn [and_then].
  destruct (set_window bld h1) as [st|h2] eqn:Ew; [discriminate|].
  intros [= <- <-]. cbn [hmm_checksum hmm_flags hmm_max_length hmm_M set_flags set_checksum].
  split; [reflexivity|]. split; [apply has_flag_lor_r; discriminate|].
  intros Habc. unfold set_window in Ew.
  assert (Ew' : (if bld_w_len bld >? 0 then inr (set_max_length h1 (bld_w_len bld))
                 else if deqb (bld_w_beta bld) d0 then inr (set_max_length h1 (hmm_M h1 * 4))
                 else check (profillic_p7_Builder_MaxLength h1 (bld_w_beta bld))) = inr h2).
  { destruct Habc as [Ha|Ha]; rewrite Ha in Ew; exact Ew. }
  clear Ew. split.
  - intros Hw. destruct (bld_w_len bld >? 0) eqn:E; [|lia].
    injection Ew' as <-. reflexivity.
  - intros Hw Hb. destruct (bld_w_len bld >? 0) eqn:E; [lia|].
    rewrite Hb in Ew'. injection Ew' as <-. reflexivity.
Qed.

Lemma builder_result_window_witness :
  match profillic_p7_Builder (quiet_library 4) (window_builder 50) (msa_of 10 3 4)
          (Some dna_profile) no_bg false false with
  | Built h _ => hmm_checksum h = 0 /\ hmm_max_length h = 50
  | _ => False
  end.
Proof.
  destruct (profillic_p7_Builder (quiet_library 4) (window_builder 50) (msa_of 10 3 4)
              (Some dna_profile) no_bg false false) as [h msa'| |] eqn:E;
    try (vm_compute in E; discriminate).
  destruct (builder_result_window _ _ _ _ _ _ _ _ _ E) as (A & _ & B).
  split; [exact A|]. apply B; [left; reflexivity|reflexivity].
Defined.

(** ** The reader on any schedule *)

Lemma shutdown_all_back N r :
  reader_inv r -> 0 <= N ->
  NoDup (rd_out r ++ rd_top r) ->
  Forall (fun n => 1 <= n <= N) (rd_out r ++ rd_top r) ->
  N <= rd_processed r ->
  shutdown r = Finished (seqZ 1 N).
Proof.
  intros Hinv HN Hnd Hall Hp.
  pose proof (inv_processed r Hinv) as Hlen.
  assert (Hsub : rd_out r ++ rd_top r ⊆+ seqZ 1 N).
  { apply NoDup_submseteq; [exact Hnd|]. intros x Hx.
    rewrite Forall_forall in Hall. apply elem_of_seqZ. specialize (Hall x Hx). lia. }
  assert (Hperm : rd_out r ++ rd_top r ≡ₚ seqZ 1 N).
  { apply submseteq_length_Permutation; [exact Hsub|]. rewrite length_seqZ. lia. }
  destruct (reader_inv_complete N r Hinv Hperm) as [Ht Ho].
  unfold shutdown. rewrite Ht, Ho. reflexivity.
Qed.

Lemma thread_loop_safe N returned : forall r,
  0 <= N -> reader_inv r -> rd_nali r <= N ->
  NoDup (rd_out r ++ rd_top r ++ finished returned) ->
  Forall (fun n => 1 <= n <= N) (rd_out r ++ rd_top r ++ finished returned) ->
  thread_loop N returned r = Finished (seqZ 1 N) \/ thread_loop N returned r = Waiting.
Proof.
  intros r HN. revert r.
  assert (Hend : forall r fin, reader_inv r ->
            NoDup (rd_out r ++ rd_top r ++ fin) ->
            Forall (fun n => 1 <= n <= N) (rd_out r ++ rd_top r ++ fin) ->
            N <= rd_processed r -> shutdown r = Finished (seqZ 1 N)).
  { intros r fin Hinv Hnd Hall Hp. apply shutdown_all_back; try assumption.
    - rewrite app_assoc in Hnd. apply NoDup_app in Hnd as (H & _). exact H.
    - rewrite app_assoc in Hall. apply Forall_app in Hall as (H & _). exact H. }
  induction returned as [|item rest IH]; intros r Hinv HnN Hnd Hall.
  - simpl. destruct (rd_nali r <? N) eqn:E1; [right; reflexivity|].
    destruct (rd_processed r <? rd_nali r) eqn:E2; [right; reflexivity|].
    left. apply (Hend r (finished [])); try assumption. lia.
  - assert (Hstep : forall r0, reader_inv r0 -> rd_nali r0 <= N ->
              rd_out r0 = rd_out r -> rd_top r0 = rd_top r ->
              thread_loop N rest (receive item r0) = Finished (seqZ 1 N) \/
              thread_loop N rest (receive item r0) = Waiting).
    { intros r0 Hinv0 HnN0 Eo Et. rewrite finished_cons in Hnd, Hall.
      destruct item as [n [|]]; cbn [item_processed item_nali] in Hnd, Hall.
      - assert (Hn1 : 1 <= n).
        { rewrite !Forall_app in Hall. destruct Hall as (_ & _ & Hall).
          apply Forall_cons in Hall as (Hn & _). lia. }
        assert (Hnot : n ∉ rd_out r0 ++ rd_top r0).
        { rewrite Eo, Et. rewrite app_assoc in Hnd. apply NoDup_app in Hnd as (_ & Hd & _).
          intros Hin. apply (Hd n Hin). left. }
        destruct (receive_finished n r0 Hinv0 Hn1 Hnot) as (Hinv' & Hnali & Hp').
        assert (Hperm : rd_out (receive (mkItem n true) r0) ++
                        rd_top (receive (mkItem n true) r0) ++ finished rest
                        ≡ₚ rd_out r ++ rd_top r ++ n :: finished rest).
        { rewrite app_assoc, Hp', Eo, Et. rewrite (app_assoc (rd_out r)).
          simpl. apply Permutation_middle. }
        apply IH.
        + exact Hinv'.
        + rewrite Hnali. exact HnN0.
        + rewrite Hperm. exact Hnd.
        + rewrite Hperm. exact Hall.
      - rewrite receive_unfinished. apply IH; try assumption.
        + rewrite Eo, Et. exact Hnd.
        + rewrite Eo, Et. exact Hall. }
    cbn [thread_loop].
    destruct (rd_nali r <? N) eqn:E1.
    + apply Z.ltb_lt in E1. apply Hstep; simpl; try reflexivity; [|lia].
      destruct Hinv. constructor; auto.
    + apply Z.ltb_ge in E1. destruct (rd_processed r <? rd_nali r) eqn:E2.
      * apply Hstep; auto.
      * apply Z.ltb_ge in E2. left.
        apply (Hend r (finished (item :: rest))); try assumption. lia.
Qed.

(** Whatever the queue hands back, as long as no alignment comes back
    finished twice and every finished item is one of the [N] alignments,
    the reader never ends on a non-empty pending list: it has written
    [1 .. N] in order, or it still waits for the queue. *)
Theorem thread_loop_never_fatal (N : Z) (returned : list WORK_ITEM) :
  0 <= N ->
  NoDup (finished returned) ->
  Forall (fun n => 1 <= n <= N) (finished returned) ->
  thread_loop N returned reader_init = Finished (seqZ 1 N) \/
  thread_loop N returned reader_init = Waiting.
Proof.
  intros HN Hnd Hall.
  apply thread_loop_safe; simpl; try lia; [apply reader_init_inv|exact Hnd|exact Hall].
Qed.

Lemma thread_loop_never_fatal_witness :
  0 <= 4 /\
  thread_loop 4 [mkItem 2 true; mkItem 0 false; mkItem 1 true] reader_init = Waiting.
Proof.
  split; [lia|].
  destruct (thread_loop_never_fatal 4 [mkItem 2 true; mkItem 0 false; mkItem 1 true])
    as [H|H].
  - lia.
  - apply (bool_decide_unpack _). vm_compute. exact I.
  - apply (bool_decide_unpack _). vm_compute. exact I.
  - vm_compute in H. discriminate.
  - exact H.
Defined.

(** ** Missing data *)

Lemma scan_spec missing want dsq alen n : forall apos,
  1 <= apos <= alen + 1 -> (Z.to_nat (alen + 1 - apos) <= n)%nat ->
  let q := scan missing want dsq alen n apos in
  apos <= q <= alen + 1 /\
  (forall p, apos <= p < q -> missing (dsq_at dsq p) = want) /\
  (q <= alen -> missing (dsq_at dsq q) = negb want).
Proof.
  induction n as [|n IH]; intros apos Ha Hn; cbn [scan].
  - cbv zeta. split; [lia|]. split; intros; lia.
  - destruct (Bool.eqb (missing (dsq_at dsq apos)) want) eqn:E1; cbn [andb].
    + destruct (apos <=? alen) eqn:E2.
      * apply Z.leb_le in E2. apply eqb_prop in E1.
        destruct (IH (apos + 1) ltac:(lia) ltac:(lia)) as (A & B & C).
        cbv zeta. split; [lia|]. split; [|exact C].
        intros p Hp. destruct (decide (p = apos)) as [->|Hne]; [exact E1|].
        apply B. lia.
      * apply Z.leb_gt in E2. cbv zeta. split; [lia|]. split; intros; lia.
    + cbv zeta. split; [lia|]. split; [intros; lia|].
      intros _. apply eqb_false_iff in E1.
      destruct (missing (dsq_at dsq apos)), want; simpl; congruence.
Qed.

Lemma validate_row_edges missing dsq alen :
  0 <= alen -> (validate_row missing dsq alen = true <-> edges_only missing dsq alen).
Proof.
  intros Hal. unfold validate_row. cbv zeta.
  destruct (scan_spec missing true dsq alen (Z.to_nat alen) 1 ltac:(lia) ltac:(lia))
    as (A1 & B1 & C1).
  set (q1 := scan missing true dsq alen (Z.to_nat alen) 1) in *.
  destruct (scan_spec missing false dsq alen (Z.to_nat alen) q1 ltac:(lia) ltac:(lia))
    as (A2 & B2 & C2).
  set (q2 := scan missing false dsq alen (Z.to_nat alen) q1) in *.
  destruct (scan_spec missing true dsq alen (Z.to_nat alen) q2 ltac:(lia) ltac:(lia))
    as (A3 & B3 & C3).
  set (q3 := scan missing true dsq alen (Z.to_nat alen) q2) in *.
  simpl in C1, C2, C3.
  rewrite Z.eqb_eq. split.
  - intros E. exists q1, q2. split; [lia|]. split; [lia|]. intros p Hp.
    destruct (Z.ltb_spec p q1); simpl.
    + apply B1. lia.
    + destruct (Z.leb_spec q2 p).
      * apply B3. lia.
      * apply B2. lia.
  - intros (i & j & Hij & Hj & Hpat).
    destruct (decide (q3 = alen + 1)) as [|Hne]; [assumption|exfalso].
    assert (H3 : q3 <= alen) by lia.
    pose proof (C3 H3) as M3. rewrite Hpat in M3 by lia.
    assert (H2 : q2 <= alen) by lia.
    pose proof (C2 H2) as M2. rewrite Hpat in M2 by lia.
    assert (H1 : q1 <= alen) by lia.
    pose proof (C1 H1) as M1. rewrite Hpat in M1 by lia.
    assert (Hlt : q2 < q3).
    { destruct (decide (q2 = q3)) as [E|]; [|lia]. rewrite E in M2. congruence. }
    simpl in M1, M2, M3.
    apply orb_false_iff in M3 as [X3 Y3]. apply Z.ltb_ge in X3. apply Z.leb_gt in Y3.
    apply orb_false_iff in M1 as [X1 Y1]. apply Z.ltb_ge in X1. apply Z.leb_gt in Y1.
    apply orb_true_iff in M2 as [X2|X2]; [apply Z.ltb_lt in X2|apply Z.leb_le in X2]; lia.
Qed.

Lemma validate_rows_edges missing ax alen rows :
  0 <= alen ->
  (validate_rows missing ax alen rows = eslOK <->
   forall idx, idx ∈ rows -> edges_only missing (default [] (ax !! idx)) alen) /\
  (validate_rows missing ax alen rows = eslOK \/
   validate_rows missing ax alen rows = eslEINVAL).
Proof.
  intros Hal. induction rows as [|idx rest [IH1 IH2]]; cbn [validate_rows].
  - split; [|left; reflexivity]. split; [|reflexivity].
    intros _ idx Hin. apply elem_of_nil in Hin. contradiction.
  - pose proof (validate_row_edges missing (default [] (ax !! idx)) alen Hal) as Hrow.
    destruct (validate_row missing (default [] (ax !! idx)) alen).
    + split; [|exact IH2]. rewrite IH1. split.
      * intros H i Hi. apply elem_of_cons in Hi as [->|Hi]; [apply Hrow; reflexivity|apply H, Hi].
      * intros H i Hi. apply H. right. exact Hi.
    + split; [|right; reflexivity]. split; [discriminate|].
      intros H. exfalso. assert (false = true); [|discriminate].
      apply Hrow. apply H. left.
Qed.

(** [validate_msa] returns [eslOK] exactly when every row has its
    missing-data symbols at the two edges only (a run of them, then
    residues and gaps, then a run of them; a row of missing data alone
    passes), and [eslEINVAL] otherwise. *)
Theorem validate_msa_edges missing ax nseq alen :
  0 <= alen ->
  (validate_msa missing ax nseq alen = eslOK <->
   forall idx, (idx < Z.to_nat nseq)%nat ->
     edges_only missing (default [] (ax !! idx)) alen) /\
  (validate_msa missing ax nseq alen = eslOK \/
   validate_msa missing ax nseq alen = eslEINVAL).
Proof.
  intros Hal. unfold validate_msa.
  destruct (validate_rows_edges missing ax alen (seq 0 (Z.to_nat nseq)) Hal) as [H1 H2].
  split; [|exact H2]. rewrite H1. split.
  - intros H idx Hidx. apply H. apply elem_of_seq. lia.
  - intros H idx Hidx. apply H. apply elem_of_seq in Hidx. lia.
Qed.

Lemma validate_msa_edges_witness :
  0 <= 4 /\
  forall idx, (idx < Z.to_nat 2)%nat ->
    edges_only (Z.eqb 17)
      (default [] ([[255; 17; 0; 3; 17; 255]; [255; 17; 17; 17; 17; 255]] !! idx)) 4.
Proof.
  split; [lia|].
  apply (proj1 (proj1 (validate_msa_edges (Z.eqb 17)
           [[255; 17; 0; 3; 17; 255]; [255; 17; 17; 17; 17; 255]] 2 4 ltac:(lia)))).
  vm_compute. reflexivity.
Defined.

(** ** Names and the serial loop *)

Lemma set_msa_name_keeps drv cfg msa :
  let cfg' := snd (fst (set_msa_name drv cfg msa)) in
  cfg_nali cfg' = cfg_nali cfg /\ cfg_profillic cfg' = cfg_profillic cfg /\
  cfg_do_mpi cfg' = cfg_do_mpi cfg /\ cfg_hmmName cfg' = cfg_hmmName cfg.
Proof.
  unfold set_msa_name.
  destruct (negb (cfg_do_mpi cfg) && (cfg_nali cfg =? 1)), (cfg_hmmName cfg) as [n|] eqn:EH,
    (msa_name msa) as [x|], (cfg_filename cfg) as [f|];
    repeat match goal with
    | |- context [esl_msa_SetName ?d ?m ?s] => destruct (esl_msa_SetName d m s) as [? ?]
    | |- context [esl_FileTail ?d ?f] => destruct (esl_FileTail d f) as [[] ?]
    | |- context [if ?b then _ else _] => destruct b
    end; simpl; repeat split; exact EH.
Qed.

Lemma names_alignment_quiet : names_alignment quiet_driver.
Proof. intros m s m' [= <-]. reflexivity. Qed.

(** When [set_msa_name] succeeds the alignment has a name: the one given
    with [-n], else its own (and it is then counted as named), else the
    tail of the file name; the first and the last only happen on the first
    alignment of a run without MPI. *)
Theorem set_msa_name_priority drv cfg msa cfg' msa' :
  names_alignment drv ->
  set_msa_name drv cfg msa = (eslOK, cfg', msa') ->
  exists name, msa_name msa' = Some name /\
    match cfg_hmmName cfg, msa_name msa with
    | Some n, _ => name = n /\ cfg_do_mpi cfg = false /\ cfg_nali cfg = 1
    | None, Some x => name = x /\ msa' = msa /\ cfg_nnamed cfg' = cfg_nnamed cfg + 1
    | None, None =>
        exists f, cfg_filename cfg = Some f /\ esl_FileTail drv f = (eslOK, name) /\
                  cfg_do_mpi cfg = false /\ cfg_nali cfg = 1
    end.
Proof.
  intros Hset. unfold set_msa_name.
  destruct (negb (cfg_do_mpi cfg) && (cfg_nali cfg =? 1)) eqn:Em.
  - apply andb_true_iff in Em as [Em1 Em2]. apply negb_true_iff in Em1. apply Z.eqb_eq in Em2.
    destruct (cfg_hmmName cfg) as [n|].
    + destruct (esl_msa_SetName drv msa n) as [st m1] eqn:E. intros [= -> <- <-].
      exists n. split; [eapply Hset, E|auto].
    + destruct (msa_name msa) as [x|] eqn:En.
      * intros [= <- <-]. exists x. split; [exact En|]. simpl. auto.
      * destruct (cfg_filename cfg) as [f|]; [|discriminate].
        destruct (esl_FileTail drv f) as [st name] eqn:Et.
        destruct st; try discriminate.
        destruct (esl_msa_SetName drv msa name) as [st m1] eqn:E. intros [= -> <- <-].
        exists name. split; [eapply Hset, E|]. exists f. auto.
  - destruct (cfg_hmmName cfg) as [n|]; [discriminate|].
    destruct (msa_name msa) as [x|] eqn:En; [|discriminate].
    cbv zeta. match goal with |- context [if ?b then _ else _] => destruct b end;
      [discriminate|]. intros [= <- <-].
    exists x. split; [exact En|]. simpl. auto.
Qed.

Lemma set_msa_name_priority_witness :
  names_alignment quiet_driver /\
  exists cfg' msa',
    set_msa_name quiet_driver (set_cfg_nali (serial_cfg false) 1)
      (without_name (msa_of 10 3 4)) = (eslOK, cfg', msa') /\
    msa_name msa' = Some "profile.txt"%string.
Proof.
  split; [exact names_alignment_quiet|].
  destruct (set_msa_name quiet_driver (set_cfg_nali (serial_cfg false) 1)
              (without_name (msa_of 10 3 4))) as [[st cfg'] msa'] eqn:E.
  assert (st = eslOK) as -> by (vm_compute in E; congruence).
  exists cfg', msa'. split; [reflexivity|].
  destruct (set_msa_name_priority _ _ _ _ _ names_alignment_quiet E)
    as (name & Hn & f & Hf & Ht & _).
  rewrite Hn. f_equal. injection Hf as <-. injection Ht as <-. reflexivity.
Defined.

(** On a file in the profillic format the serial loop reads one profile
    and stops: whatever follows the first entry of the file is never read
    and changes nothing. *)
Theorem serial_loop_one_profile lib drv info cfg single with_profile x rest :
  cfg_profillic cfg = true ->
  profillic_serial_loop lib drv info cfg single with_profile (x :: rest) =
  profillic_serial_loop lib drv info cfg single with_profile [x].
Proof.
  intros Hp. unfold profillic_serial_loop. cbn [serial_iter].
  cbn [cfg_profillic cfg_nali set_cfg_nali]. rewrite Hp. cbn [Z.eqb negb andb].
  destruct x as [[st msa] profile]. destruct st; try reflexivity.
  set (cfg1 := set_cfg_nali (set_cfg_nali cfg 0) (0 + 1)).
  pose proof (set_msa_name_keeps drv cfg1 msa) as Hk.
  destruct (set_msa_name drv cfg1 msa) as [[st cfg2] msa2].
  cbn [fst snd] in Hk. destruct Hk as (Hn & Hpr & _).
  destruct st; try reflexivity.
  destruct (build_one lib drv info cfg2 single msa2 _) as [why|h]; [reflexivity|].
  destruct (p7_hmmfile_WriteASCII drv h); try reflexivity.
  assert (E : cfg_profillic cfg2 && negb (cfg_nali cfg2 =? 0) = true).
  { rewrite Hpr, Hn. subst cfg1. simpl. rewrite Hp. reflexivity. }
  destruct rest; cbn [serial_iter]; rewrite E; reflexivity.
Qed.

Lemma serial_loop_one_profile_witness :
  cfg_profillic (serial_cfg true) = true /\
  profillic_serial_loop (quiet_library 4) quiet_driver quiet_info (serial_cfg true) false true
    [(eslOK, msa_of 10 3 4, dna_profile); (eslOK, msa_of 10 3 4, dna_profile)] =
  profillic_serial_loop (quiet_library 4) quiet_driver quiet_info (serial_cfg true) false true
    [(eslOK, msa_of 10 3 4, dna_profile)].
Proof.
  split; [reflexivity|].
  apply (serial_loop_one_profile (quiet_library 4) quiet_driver quiet_info (serial_cfg true)
           false true (eslOK, msa_of 10 3 4, dna_profile)
           [(eslOK, msa_of 10 3 4, dna_profile)] eq_refl).
Defined.

Lemma set_msa_name_later drv cfg msa cfg' msa' :
  negb (cfg_do_mpi cfg) && (cfg_nali cfg =? 1) = false ->
  set_msa_name drv cfg msa = (eslOK, cfg', msa') ->
  cfg_hmmName cfg = None /\ is_Some (msa_name msa) /\
  cfg_nnamed cfg + 1 = cfg_nali cfg /\ cfg_nnamed cfg' = cfg_nali cfg.
Proof.
  intros Em. unfold set_msa_name. rewrite Em.
  destruct (cfg_hmmName cfg) as [n|]; [discriminate|].
  destruct (msa_name msa) as [x|] eqn:En; [|discriminate].
  cbn [cfg_nnamed cfg_nali set_cfg_nnamed].
  destruct (cfg_nnamed cfg + 1 =? cfg_nali cfg) eqn:E; cbn [negb]; [|discriminate].
  apply Z.eqb_eq in E. intros [= <- <-]. simpl. repeat split; eauto.
Qed.

Lemma set_msa_name_first drv cfg msa cfg' msa' :
  negb (cfg_do_mpi cfg) && (cfg_nali cfg =? 1) = true ->
  set_msa_name drv cfg msa = (eslOK, cfg', msa') ->
  cfg_nnamed cfg' = cfg_nnamed cfg \/
  (cfg_nnamed cfg' = cfg_nnamed cfg + 1 /\ cfg_hmmName cfg = None /\ is_Some (msa_name msa)).
Proof.
  intros Em. unfold set_msa_name. rewrite Em.
  destruct (cfg_hmmName cfg) as [n|].
  - destruct (esl_msa_SetName drv msa n) as [st m1]. intros [= -> <- <-]. left. reflexivity.
  - destruct (msa_name msa) as [x|] eqn:En.
    + intros [= <- <-]. right. simpl. eauto.
    + destruct (cfg_filename cfg) as [f|]; [|discriminate].
      destruct (esl_FileTail drv f) as [st name]. destruct st; try discriminate.
      destruct (esl_msa_SetName drv msa name) as [st m1]. intros [= -> <- <-]. left. reflexivity.
Qed.

(** One pass of the loop that went through. *)
Lemma serial_iter_step lib drv info single wp st msa profile rest cfg w w' :
  cfg_profillic cfg = false ->
  serial_iter lib drv info single wp ((st, msa, profile) :: rest) cfg w = Completed w' ->
  exists cfg2 msa2 h,
    st = eslOK /\
    set_msa_name drv (set_cfg_nali cfg (cfg_nali cfg + 1)) msa = (eslOK, cfg2, msa2) /\
    serial_iter lib drv info single wp rest cfg2 (w ++ [(cfg_nali cfg + 1, h)]) = Completed w'.
Proof.
  intros Hp. cbn [serial_iter]. rewrite Hp. cbn [andb].
  destruct st; try discriminate.
  pose proof (set_msa_name_keeps drv (set_cfg_nali cfg (cfg_nali cfg + 1)) msa) as Hk.
  destruct (set_msa_name drv (set_cfg_nali cfg (cfg_nali cfg + 1)) msa) as [[st cfg2] msa2].
  cbn [fst snd] in Hk. destruct Hk as (Hn & _).
  destruct st; try discriminate.
  destruct (build_one lib drv info cfg2 single msa2 _) as [why|h]; [discriminate|].
  destruct (p7_hmmfile_WriteASCII drv h); try discriminate.
  intros H. exists cfg2, msa2, h. rewrite Hn in H. auto.
Qed.

Lemma serial_iter_names lib drv info single wp file : forall cfg w w',
  cfg_profillic cfg = false -> cfg_do_mpi cfg = false -> 1 <= cfg_nali cfg ->
  serial_iter lib drv info single wp file cfg w = Completed w' ->
  map fst w' = map fst w ++ seqZ (cfg_nali cfg + 1) (Z.of_nat (length file)) /\
  (file <> [] ->
   cfg_hmmName cfg = None /\ Forall alignment_named file /\ cfg_nnamed cfg = cfg_nali cfg).
Proof.
  induction file as [|[[st msa] profile] rest IH]; intros cfg w w' Hp Hm Hn.
  - cbn [serial_iter]. rewrite Hp. cbn [andb]. intros [= <-].
    split; [rewrite app_nil_r; reflexivity|]. intros H. contradiction.
  - intros H. apply serial_iter_step in H as (cfg2 & msa2 & h & -> & Hname & Hrest); [|exact Hp].
    pose proof (set_msa_name_keeps drv (set_cfg_nali cfg (cfg_nali cfg + 1)) msa) as Hk.
    rewrite Hname in Hk. cbn [fst snd cfg_nali cfg_profillic cfg_do_mpi cfg_hmmName set_cfg_nali] in Hk.
    destruct Hk as (K1 & K2 & K3 & K4).
    apply set_msa_name_later in Hname as (N1 & N2 & N3 & N4).
    2: { cbn [cfg_do_mpi cfg_nali set_cfg_nali]. rewrite Hm. cbn [negb andb].
         apply Z.eqb_neq. lia. }
    cbn [cfg_hmmName cfg_nnamed cfg_nali set_cfg_nali] in N1, N3, N4.
    assert (Hp2 : cfg_profillic cfg2 = false) by congruence.
    assert (Hm2 : cfg_do_mpi cfg2 = false) by congruence.
    assert (Hn2 : 1 <= cfg_nali cfg2) by lia.
    destruct (IH cfg2 _ w' Hp2 Hm2 Hn2 Hrest) as (I1 & I2).
    split.
    + rewrite I1, map_app, <- app_assoc. f_equal. cbn [map fst app length].
      rewrite Nat2Z.inj_succ, (seqZ_cons (cfg_nali cfg + 1)) by lia.
      rewrite K1. f_equal. f_equal; lia.
    + intros _. split; [exact N1|]. split; [|lia].
      constructor; [exact N2|].
      destruct rest as [|y rest']; [constructor|]. apply I2. discriminate.
Qed.

(** When the serial loop gets through a file that is not in the
    profillic format, the models are written under the numbers [1 .. n] in
    the order read; with two alignments or more this takes a run without
    [-n] in which every alignment carries its own name. *)
Theorem serial_loop_database lib drv info cfg single wp file written :
  cfg_profillic cfg = false -> cfg_do_mpi cfg = false -> cfg_nnamed cfg = 0 ->
  profillic_serial_loop lib drv info cfg single wp file = Completed written ->
  map fst written = seqZ 1 (Z.of_nat (length file)) /\
  ((2 <= length file)%nat ->
   cfg_hmmName cfg = None /\ Forall alignment_named file).
Proof.
  intros Hp Hm Hn0. unfold profillic_serial_loop.
  destruct file as [|[[st msa] profile] rest].
  - cbn [serial_iter]. cbn [cfg_profillic set_cfg_nali]. rewrite Hp. cbn [andb].
    intros [= <-]. split; [reflexivity|]. simpl. lia.
  - intros H. apply serial_iter_step in H as (cfg2 & msa2 & h & -> & Hname & Hrest);
      [|exact Hp].
    cbn [cfg_nali set_cfg_nali] in Hname, Hrest.
    pose proof (set_msa_name_keeps drv (set_cfg_nali (set_cfg_nali cfg 0) (0 + 1)) msa) as Hk.
    rewrite Hname in Hk. cbn [fst snd cfg_nali cfg_profillic cfg_do_mpi cfg_hmmName set_cfg_nali] in Hk.
    destruct Hk as (K1 & K2 & K3 & K4).
    apply set_msa_name_first in Hname.
    2: { cbn [cfg_do_mpi cfg_nali set_cfg_nali]. rewrite Hm. reflexivity. }
    cbn [cfg_hmmName cfg_nnamed cfg_nali set_cfg_nali] in Hname.
    assert (Hp2 : cfg_profillic cfg2 = false) by congruence.
    assert (Hm2 : cfg_do_mpi cfg2 = false) by congruence.
    assert (Hn2 : 1 <= cfg_nali cfg2) by lia.
    destruct (serial_iter_names lib drv info single wp rest cfg2 _ written
                Hp2 Hm2 Hn2 Hrest) as (I1 & I2).
    split.
    + rewrite I1. cbn [map fst app length]. rewrite K1.
      rewrite Nat2Z.inj_succ, (seqZ_cons 1) by lia. f_equal. f_equal; lia.
    + intros Hlen. destruct rest as [|y rest']; [simpl in Hlen; lia|].
      destruct (I2 ltac:(discriminate)) as (J1 & J2 & J3).
      split; [congruence|]. constructor; [|exact J2].
      destruct Hname as [E|(_ & _ & Hnamed)]; [lia|exact Hnamed].
Qed.

Lemma serial_loop_database_witness :
  cfg_profillic (serial_cfg false) = false /\ cfg_do_mpi (serial_cfg false) = false /\
  cfg_nnamed (serial_cfg false) = 0 /\
  match profillic_serial_loop (quiet_library 4) quiet_driver quiet_info (serial_cfg false)
          false true
          [(eslOK, msa_of 10 3 4, dna_profile); (eslOK, msa_of 10 3 4, dna_profile)] with
  | Completed written => map fst written = [1; 2]
  | Stopped _ _ => False
  end.
Proof.
  split; [reflexivity|]. split; [reflexivity|]. split; [reflexivity|].
  destruct (profillic_serial_loop (quiet_library 4) quiet_driver quiet_info (serial_cfg false)
              false true
              [(eslOK, msa_of 10 3 4, dna_profile); (eslOK, msa_of 10 3 4, dna_profile)])
    as [written|why written] eqn:E; [|vm_compute in E; discriminate].
  apply (serial_loop_database (quiet_library 4) quiet_driver quiet_info (serial_cfg false)
           false true _ written eq_refl eq_refl eq_refl E).
Defined.

(** * The rows of the parameterised model

    [profillic_parameterize] without priors hands every row to
    [esl_vec_FNorm].  With that routine taken as [plain_FNorm], the sum of a
    normalised row is off from 1 by the roundings of the float sum and of
    the quotients; this part bounds them. *)

(** ** Rounding to nearest

    [binary_round_aux] shifts the mantissa to the exponent of the format
    and rounds it; what it returns is within half a unit of the last place
    of the value it was given. *)











(** The mantissa after the shift and the rounding, as integers. *)
Section Round.
Variables prec emax : Z.
Hypothesis Hprec : 0 < prec.

Abbreviation fexp := (SpecFloat.fexp prec emax).
Abbreviation emin := (SpecFloat.emin prec emax).









Lemma round_nearest_even_exact m : round_nearest_even m loc_Exact = m.
Proof. reflexivity. Qed.



End Round.











Section RoundQ.
Variables prec emax : Z.
Hypothesis Hprec : 0 < prec.
Hypothesis Hemax : 2 <= emax.

Abbreviation fexp := (SpecFloat.fexp prec emax).
Abbreviation emin := (SpecFloat.emin prec emax).



End RoundQ.

(** ** Addition and division

    [SFadd] and [SFdiv] on numbers that are zero or positive round the
    exact sum and the exact quotient. *)







Section Ops.
Variables prec emax : Z.
Hypothesis Hprec : 0 < prec.
Hypothesis Hemax : 2 <= emax.

Abbreviation fexp := (SpecFloat.fexp prec emax).
Abbreviation emin := (SpecFloat.emin prec emax).







End Ops.



Section Div.
Variables prec emax : Z.
Hypothesis Hprec : 0 < prec.
Hypothesis Hemax : 2 <= emax.

Abbreviation fexp := (SpecFloat.fexp prec emax).
Abbreviation emin := (SpecFloat.emin prec emax).


End Div.




(** ** A float sum and the quotients by it (binary32) *)


Lemma pw_pos q n : (0 < q -> 0 < pw q n)%Q.
Proof. intros H. induction n; simpl; [reflexivity|]. nra. Qed.


Lemma pw_le_1 q n : (0 < q -> q <= 1 -> pw q n <= 1)%Q.
Proof. intros H0 H. pose proof (pw_pos q n H0). induction n; simpl; [lra|].
  pose proof (pw_pos q n H0). specialize (IHn H2). nra. Qed.

































(** ** The rows after [normalize_counts] *)









Lemma count_ok_f0 : count_ok f0 = true.
Proof. reflexivity. Qed.


Section Normalised.
Variable lib : Library.
Hypothesis HF : forall v, esl_vec_FNorm lib v = plain_FNorm v.











End Normalised.



(** ** The claim *)

(** What the bound [1e-6] misses on finite counts.  For the profile
    [amino_profile] of an alignment of 1025 sequences, converted and
    reweighted with the strategy None, every count is a finite number, zero
    or positive; with the rows divided by their [float] sum taken left to
    right, the match emission row of node 1 of the parameterised model
    sums to less than [1 - 19 * 2^-24], more than [1e-6] away from 1,
    whether the sum is exact or taken in [float]. *)
Lemma left_to_right_row_off :
  exists h' row,
    counts_of 1025 = inr amino_counts /\
    counts_finite amino_counts = true /\
    profillic_parameterize (quiet_library 20) amino_builder amino_counts false = inr h' /\
    hmm_mat h' !! 1%nat = Some row /\
    Forall (fun x => nonneg x = true) row /\
    (row_sum row <= 1 - 19 * u32)%Q /\
    (F2Q (fold_left fadd row f0) == 1 - 19 * u32)%Q /\
    (1 - 19 * u32 < 1 - claimed_tol)%Q /\
    ~ sums_to_one claimed_tol row.
Proof.
  eexists. eexists.
  split; [vm_compute; reflexivity|]. split; [vm_compute; reflexivity|].
  split; [reflexivity|]. split; [vm_compute; reflexivity|].
  split; [repeat constructor|].
  split; [vm_compute; discriminate|]. split; [vm_compute; reflexivity|].
  split; [vm_compute; reflexivity|].
  intros [_ H]. revert H. vm_compute. intros H. apply H. reflexivity.
Qed.




